(** * The rps-card-game engine: cards, scoring, rounds, matches and the AI

    A shallow embedding of the JavaScript sources.  Numbers that the code
    keeps integral are [Z]; property names are the strings the code passes
    around; a method of a mutable object is a computation in a state monad
    whose state survives a [throw], because in JavaScript whatever was
    assigned before the exception stays assigned. *)

From Stdlib Require Import ZArith QArith List String Bool Lia.
Import ListNotations.
Open Scope string_scope.
Open Scope list_scope.
Open Scope Z_scope.

(** ** Effects: mutable object state and exceptions *)

Module Eff.

(** What a call hands back: a value, or the message of the [Error]
    thrown.  Template strings are kept up to their first placeholder. *)
Inductive outcome (A : Type) : Type :=
| Returned (a : A)
| Thrown (msg : string).
Arguments Returned {A} a.
Arguments Thrown {A} msg.

(** A method running against an object of type [S]. *)
Definition M (S A : Type) : Type := S -> outcome A * S.

Definition ret {S A} (a : A) : M S A := fun s => (Returned a, s).
Definition throw {S A} (msg : string) : M S A := fun s => (Thrown msg, s).
Definition bind {S A B} (m : M S A) (k : A -> M S B) : M S B :=
  fun s => match m s with
           | (Returned a, s') => k a s'
           | (Thrown msg, s') => (Thrown msg, s')
           end.
Definition get {S} : M S S := fun s => (Returned s, s).
Definition gets {S A} (f : S -> A) : M S A := fun s => (Returned (f s), s).
Definition modify {S} (f : S -> S) : M S unit := fun s => (Returned tt, f s).

(** A pure computation that may throw, run inside a method. *)
Definition lift {S A} (o : outcome A) : M S A := fun s => (o, s).

(** A method of a sub-object stored in a field of the enclosing one. *)
Definition zoom {S T A} (proj : S -> T) (upd : T -> S -> S) (m : M T A) : M S A :=
  fun s => let (r, t') := m (proj s) in (r, upd t' s).

(** [when c m]: an [if] without [else]. *)
Definition when {S} (c : bool) (m : M S unit) : M S unit :=
  if c then m else ret tt.

(** Sequencing for computations that only throw. *)
Definition obind {A B} (o : outcome A) (k : A -> outcome B) : outcome B :=
  match o with
  | Returned a => k a
  | Thrown msg => Thrown msg
  end.

End Eff.
Import Eff.

Declare Scope eff_scope.
Delimit Scope eff_scope with eff.
Notation "x <- c1 ;; c2" := (bind c1 (fun x => c2))
  (at level 61, c1 at next level, right associativity) : eff_scope.
Notation "c1 ;; c2" := (bind c1 (fun _ => c2))
  (at level 61, right associativity) : eff_scope.
Notation "'let*' x := o 'in' k" := (obind o (fun x => k))
  (at level 61, x pattern, o at next level, right associativity).

(** [===] on strings. *)
Notation "a === b" := (String.eqb a b) (at level 70, no associativity).

(** [Array.prototype.includes] on an array of strings. *)
Definition includes (l : list string) (s : string) : bool :=
  existsb (String.eqb s) l.

(** ** shared/core/game-config.js *)

Module GameConfig.

(** GAME_MECHANICS *)
Definition PROPERTY_SUM : Z := 20.
Definition MIN_PROPERTY_VALUE : Z := 1.
Definition MAX_PROPERTY_VALUE : Z := 9.
Definition CARDS_PER_PLAYER : Z := 3.
Definition ROUNDS_PER_CARD : Z := 3.
Definition TOTAL_CARD_GAMES : Z := 3.
Definition AUTO_PLAY_FINAL_ROUND : bool := true.

(** [Object.values(PROPERTIES)] and [Object.values(LEGACY_PROPERTIES)],
    in insertion order. *)
Definition PROPERTIES : list string := ["deception"; "magic"; "attack"].
Definition LEGACY_PROPERTIES : list string := ["rock"; "paper"; "scissors"].

(** GAME_PHASES: the closed set of phase strings. *)
Inductive Phase : Set :=
| CARD_SELECTION | PROPERTY_SELECTION | ROUND_RESULT | AUTO_ROUND
| CARD_COMPLETE | GAME_OVER | WAITING.

Definition Phase_eqb (a b : Phase) : bool :=
  match a, b with
  | CARD_SELECTION, CARD_SELECTION | PROPERTY_SELECTION, PROPERTY_SELECTION
  | ROUND_RESULT, ROUND_RESULT | AUTO_ROUND, AUTO_ROUND
  | CARD_COMPLETE, CARD_COMPLETE | GAME_OVER, GAME_OVER
  | WAITING, WAITING => true
  | _, _ => false
  end.

(** SCORING *)
Record Scoring : Set := {
  WIN_BONUS : Z;
  PERFECT_GAME_BONUS : Z;
  COMEBACK_BONUS : Z;
  MIN_SCORE : Z;
  MAX_SINGLE_ROUND_SCORE : Z
}.

Definition SCORING : Scoring := {|
  WIN_BONUS := 0;
  PERFECT_GAME_BONUS := 0;
  COMEBACK_BONUS := 0;
  MIN_SCORE := 0;
  MAX_SINGLE_ROUND_SCORE := 8
|}.

(** AI_CONFIG.DIFFICULTY_LEVELS *)
Definition EASY := "easy".
Definition NORMAL := "normal".
Definition HARD := "hard".
Definition EXPERT := "expert".

Definition getAllProperties : list string := PROPERTIES.

Definition isValidProperty (property : string) : bool :=
  includes PROPERTIES property || includes LEGACY_PROPERTIES property.

End GameConfig.

(** ** shared/core/game-rules.js *)

Module GameRules.

(** Object literals used as look-up tables.  A key the table does not own
    reads [undefined], or a member of [Object.prototype], neither of which
    is ever equal to a string or found in an array of strings: [None]. *)
Definition WINNING_RULES (k : string) : option string :=
  if k === "deception" then Some "attack"
  else if k === "attack" then Some "magic"
  else if k === "magic" then Some "deception"
  else None.

Definition LEGACY_PROPERTY_MAP (k : string) : option string :=
  if k === "rock" then Some "deception"
  else if k === "paper" then Some "magic"
  else if k === "scissors" then Some "attack"
  else None.

Definition VALID_PROPERTIES : list string := ["deception"; "magic"; "attack"].

(** [LEGACY_PROPERTY_MAP[property] || property] *)
Definition normalizeProperty (property : string) : string :=
  match LEGACY_PROPERTY_MAP property with
  | Some p => p
  | None => property
  end.

Definition isValidProperty (property : string) : bool :=
  includes VALID_PROPERTIES (normalizeProperty property).

(** [Number.isInteger(value) && value >= 1 && value <= 9]; values are
    integers here, so the first conjunct is true. *)
Definition isValidPropertyValue (value : Z) : bool :=
  (1 <=? value) && (value <=? 9).

(** [WINNING_RULES[a] === b] *)
Definition beats (a b : string) : bool :=
  match WINNING_RULES a with
  | Some c => c === b
  | None => false
  end.

Definition calculateRoundScore (prop1 : string) (val1 : Z)
                               (prop2 : string) (val2 : Z) : outcome (Z * Z) :=
  if negb (isValidProperty prop1) || negb (isValidProperty prop2) then
    Thrown "Invalid property names provided"
  else if negb (isValidPropertyValue val1) || negb (isValidPropertyValue val2) then
    Thrown "Invalid property values provided"
  else
    let prop1 := normalizeProperty prop1 in
    let prop2 := normalizeProperty prop2 in
    if prop1 === prop2 then
      if val1 >? val2 then Returned (val1 - val2, 0)
      else if val2 >? val1 then Returned (0, val2 - val1)
      else Returned (0, 0)
    else if beats prop1 prop2 && (val1 >? val2) then Returned (val1 - val2, 0)
    else if beats prop2 prop1 && (val2 >? val1) then Returned (0, val2 - val1)
    else Returned (0, 0).

Definition doesPropertyBeat (prop1 prop2 : string) : bool :=
  beats (normalizeProperty prop1) (normalizeProperty prop2).

Definition getBeatenProperty (property : string) : option string :=
  WINNING_RULES (normalizeProperty property).

(** The loop over [Object.entries(WINNING_RULES)], in insertion order. *)
Definition getCounterProperty (property : string) : outcome string :=
  let normalized := normalizeProperty property in
  match find (fun beater => beats beater normalized)
             ["deception"; "attack"; "magic"] with
  | Some beater => Returned beater
  | None => Thrown "No counter property found for: "
  end.

Definition validateRoundInput (prop1 : string) (val1 : Z)
                              (prop2 : string) (val2 : Z) : bool :=
  isValidProperty prop1 && isValidProperty prop2 &&
  isValidPropertyValue val1 && isValidPropertyValue val2.

End GameRules.

(** ** shared/core/card.js *)

Record Card : Set := {
  id : Z;
  deception : Z;
  magic : Z;
  attack : Z
}.

Module CardOps.

Definition isValidProperty (value : Z) : bool :=
  (1 <=? value) && (value <=? 9).

(** The constructor: the sum is checked first, then the three ranges.  The
    arguments are integers; the sum is the constructor's as long as its
    additions are exact, that is, below 2^53 in magnitude. *)
Definition new (id deception magic attack : Z) : outcome Card :=
  if negb (deception + magic + attack =? 20) then
    Thrown "Card properties must sum to 20. Got: "
  else if negb (isValidProperty deception) || negb (isValidProperty magic)
          || negb (isValidProperty attack) then
    Thrown "Each property must be between 1 and 9 inclusive"
  else
    Returned {| id := id; deception := deception; magic := magic; attack := attack |}.

Definition getProperty (c : Card) (property : string) : outcome Z :=
  if (property === "rock") || (property === "deception") then Returned (deception c)
  else if (property === "paper") || (property === "magic") then Returned (magic c)
  else if (property === "scissors") || (property === "attack") then Returned (attack c)
  else Thrown "Invalid property name: ".

(** [reduce] without a seed over deception, magic, attack: a later entry
    replaces the running one only when strictly larger (smaller). *)
Definition getHighestProperty (c : Card) : string * Z :=
  fold_left (fun max current => if snd current >? snd max then current else max)
            [("magic", magic c); ("attack", attack c)]
            ("deception", deception c).

Definition getLowestProperty (c : Card) : string * Z :=
  fold_left (fun min current => if snd current <? snd min then current else min)
            [("magic", magic c); ("attack", attack c)]
            ("deception", deception c).

Definition isBalanced (c : Card) : bool :=
  snd (getHighestProperty c) - snd (getLowestProperty c) <=? 3.

Definition getRarity (c : Card) : string :=
  let difference := snd (getHighestProperty c) - snd (getLowestProperty c) in
  if difference <=? 1 then "Legendary"
  else if difference <=? 3 then "Epic"
  else if difference <=? 5 then "Rare"
  else "Common".

(** The plain object [toJSON] produces. *)
Record CardJSON : Set := {
  j_id : Z;
  j_deception : Z;
  j_magic : Z;
  j_attack : Z;
  j_rarity : string;
  j_balanced : bool
}.

Definition toJSON (c : Card) : CardJSON := {|
  j_id := id c;
  j_deception := deception c;
  j_magic := magic c;
  j_attack := attack c;
  j_rarity := getRarity c;
  j_balanced := isBalanced c
|}.

Definition fromJSON (obj : CardJSON) : outcome Card :=
  new (j_id obj) (j_deception obj) (j_magic obj) (j_attack obj).

(** The invariant the constructor enforces. *)
Definition wellFormed (c : Card) : bool :=
  (deception c + magic c + attack c =? 20)
  && isValidProperty (deception c) && isValidProperty (magic c)
  && isValidProperty (attack c).

End CardOps.

(** ** shared/core/card-generator.js *)

Module CardGenerator.

(** The values a [for (let x = lo; x <= hi; x++)] loop visits. *)
Definition upto (lo hi : Z) : list Z :=
  map (fun k => lo + Z.of_nat k) (seq 0 (Z.to_nat (hi - lo + 1))).

(** One pass of the inner loop body: [cards] and [cardId] are the loop's
    two locals.  [cardId++] is evaluated before the constructor runs, so
    the counter moves even if the constructor throws (the [catch] only
    logs). *)
Definition addCard (deception : Z) (st : list Card * Z) (magic : Z) : list Card * Z :=
  let '(cards, cardId) := st in
  let attack := 20 - deception - magic in
  if (attack >=? 1) && (attack <=? 9) then
    match CardOps.new cardId deception magic attack with
    | Returned c => (cards ++ [c], cardId + 1)
    | Thrown _ => (cards, cardId + 1)
    end
  else (cards, cardId).

Definition generateAllCards : list Card :=
  fst (fold_left (fun st deception => fold_left (addCard deception) (upto 1 9) st)
                 (upto 1 9) ([], 0)).

Definition getTotalCardCount : Z :=
  fold_left (fun count deception =>
               fold_left (fun count magic =>
                            let attack := 20 - deception - magic in
                            if (attack >=? 1) && (attack <=? 9) then count + 1 else count)
                         (upto 1 9) count)
            (upto 1 9) 0.

End CardGenerator.

(** ** console/config.js and console/game.js *)

Module Console.

Definition CARD_PROPERTY_SUM : Z := 20.
Definition PROPERTY_MIN_VALUE : Z := 1.
Definition PROPERTY_MAX_VALUE : Z := 9.

(** PROPERTY_NAMES *)
Definition PROPERTY_NAMES (k : string) : option string :=
  if k === "r" then Some "Rock"
  else if k === "p" then Some "Paper"
  else if k === "s" then Some "Scissors"
  else None.

(** WINNING_RULES, and the identical local table [winning] of
    [Game.calculateRoundScore] and [AIPlayer.calculateRoundScore]. *)
Definition WINNING_RULES (k : string) : option string :=
  if k === "r" then Some "s"
  else if k === "s" then Some "p"
  else if k === "p" then Some "r"
  else None.

Definition beats (a b : string) : bool :=
  match WINNING_RULES a with
  | Some c => c === b
  | None => false
  end.

Record Card : Set := { rock : Z; paper : Z; scissors : Z }.

(** The console constructor checks the sum and nothing else. *)
Definition newCard (rock paper scissors : Z) : outcome Card :=
  if negb (rock + paper + scissors =? 20) then
    Thrown "Card properties must sum to 20"
  else Returned {| rock := rock; paper := paper; scissors := scissors |}.

(** [CardGenerator.generateAllPossibleCards]: nothing catches a throwing
    constructor here, so the whole call throws. *)
Definition addCard (rock : Z) (st : outcome (list Card)) (paper : Z) : outcome (list Card) :=
  let* cards := st in
  let scissors := 20 - rock - paper in
  if (scissors >=? 1) && (scissors <=? 9) then
    let* c := newCard rock paper scissors in Returned (cards ++ [c])
  else Returned cards.

Definition generateAllPossibleCards : outcome (list Card) :=
  fold_left (fun st rock => fold_left (addCard rock) (CardGenerator.upto 1 9) st)
            (CardGenerator.upto 2 18) (Returned []).

(** [Game.calculateRoundScore] *)
Definition calculateRoundScore (prop1 : string) (val1 : Z)
                               (prop2 : string) (val2 : Z) : Z * Z :=
  if prop1 === prop2 then
    if val1 >? val2 then (val1 - val2, 0)
    else if val2 >? val1 then (0, val2 - val1)
    else (0, 0)
  else if beats prop1 prop2 && (val1 >? val2) then (val1 - val2, 0)
  else if beats prop2 prop1 && (val2 >? val1) then (0, val2 - val1)
  else (0, 0).

(** The key of the shared engine's legacy table that a console key stands
    for: PROPERTY_NAMES in lower case. *)
Definition legacyName (k : string) : option string :=
  if k === "r" then Some "rock"
  else if k === "p" then Some "paper"
  else if k === "s" then Some "scissors"
  else None.

End Console.

(** ** shared/game-engine/round-manager.js *)

(** ['player1'], ['player2'] or ['tie']. *)
Inductive Winner : Set := player1 | player2 | tie.

(** The object [calculateRoundResult] builds.  Its [explanation] field, a
    sentence for display assembled from the other fields, is left out. *)
Record RoundResult : Set := {
  round : Z;
  player1Property : string;
  player1Value : Z;
  player1Points : Z;
  player2Property : string;
  player2Value : Z;
  player2Points : Z;
  winner : Winner
}.

(** [x || d] for a number and for a string. *)
Definition orZ (x d : Z) : Z := if x =? 0 then d else x.
Definition orString (x d : string) : string := if x === "" then d else x.

(** [new Set(arr).size] *)
Definition setSize (l : list string) : Z :=
  Z.of_nat (List.length (nodup string_dec l)).

Definition len {A} (l : list A) : Z := Z.of_nat (List.length l).

Module RoundManager.
Import GameConfig.

Record t : Set := {
  currentRound : Z;
  maxRounds : Z;
  roundResults : list RoundResult;
  usedPlayer1Properties : list string;
  usedPlayer2Properties : list string;
  currentPlayer1Property : option string;
  currentPlayer2Property : option string;
  roundPhase : Phase;
  autoPlayEnabled : bool
}.

(** The constructor. *)
Definition new : t := {|
  currentRound := 1;
  maxRounds := ROUNDS_PER_CARD;
  roundResults := [];
  usedPlayer1Properties := [];
  usedPlayer2Properties := [];
  currentPlayer1Property := None;
  currentPlayer2Property := None;
  roundPhase := PROPERTY_SELECTION;
  autoPlayEnabled := AUTO_PLAY_FINAL_ROUND
|}.

Definition reset : M t unit :=
  modify (fun rm => {|
    currentRound := 1;
    maxRounds := maxRounds rm;
    roundResults := [];
    usedPlayer1Properties := [];
    usedPlayer2Properties := [];
    currentPlayer1Property := None;
    currentPlayer2Property := None;
    roundPhase := PROPERTY_SELECTION;
    autoPlayEnabled := autoPlayEnabled rm
  |}).

Definition getCurrentRound (rm : t) : Z := currentRound rm.
Definition getMaxRounds (rm : t) : Z := maxRounds rm.

Definition isFinalRound (rm : t) : bool := currentRound rm =? maxRounds rm.

Definition areAllRoundsComplete (rm : t) : bool := currentRound rm >? maxRounds rm.

(** [playerNumber === 1 ? usedPlayer1Properties : usedPlayer2Properties] *)
Definition usedProperties (rm : t) (playerNumber : Z) : list string :=
  if playerNumber =? 1 then usedPlayer1Properties rm else usedPlayer2Properties rm.

Definition getAvailableProperties (rm : t) (playerNumber : Z) : list string :=
  filter (fun prop => negb (includes (usedProperties rm playerNumber) prop))
         getAllProperties.

Definition isPropertyAvailable (rm : t) (playerNumber : Z) (property : string) : bool :=
  negb (includes (usedProperties rm playerNumber) property).

(** The two assignments of each branch of [selectProperty]. *)
Definition commit1 (property : string) (rm : t) : t := {|
  currentRound := currentRound rm;
  maxRounds := maxRounds rm;
  roundResults := roundResults rm;
  usedPlayer1Properties := usedPlayer1Properties rm ++ [property];
  usedPlayer2Properties := usedPlayer2Properties rm;
  currentPlayer1Property := Some property;
  currentPlayer2Property := currentPlayer2Property rm;
  roundPhase := roundPhase rm;
  autoPlayEnabled := autoPlayEnabled rm
|}.

Definition commit2 (property : string) (rm : t) : t := {|
  currentRound := currentRound rm;
  maxRounds := maxRounds rm;
  roundResults := roundResults rm;
  usedPlayer1Properties := usedPlayer1Properties rm;
  usedPlayer2Properties := usedPlayer2Properties rm ++ [property];
  currentPlayer1Property := currentPlayer1Property rm;
  currentPlayer2Property := Some property;
  roundPhase := roundPhase rm;
  autoPlayEnabled := autoPlayEnabled rm
|}.

Definition selectProperty (playerNumber : Z) (property : string) : M t bool :=
  (rm <- get ;;
   if negb (GameConfig.isValidProperty property) then
     throw "Invalid property: "
   else if negb (isPropertyAvailable rm playerNumber property) then
     throw "Property not available for player"
   else if playerNumber =? 1 then
     modify (commit1 property) ;; ret true
   else if playerNumber =? 2 then
     modify (commit2 property) ;; ret true
   else
     throw "Invalid player number: ")%eff.

Definition isRoundReadyForCalculation (rm : t) : bool :=
  match currentPlayer1Property rm, currentPlayer2Property rm with
  | Some _, Some _ => true
  | _, _ => false
  end.

Definition determineRoundWinner (player1Points player2Points : Z) : Winner :=
  if player1Points >? player2Points then player1
  else if player2Points >? player1Points then player2
  else tie.

Definition setRoundPhase (phase : Phase) : M t unit :=
  modify (fun rm => {|
    currentRound := currentRound rm;
    maxRounds := maxRounds rm;
    roundResults := roundResults rm;
    usedPlayer1Properties := usedPlayer1Properties rm;
    usedPlayer2Properties := usedPlayer2Properties rm;
    currentPlayer1Property := currentPlayer1Property rm;
    currentPlayer2Property := currentPlayer2Property rm;
    roundPhase := phase;
    autoPlayEnabled := autoPlayEnabled rm
  |}).

(** [this.roundResults.push(roundResult); this.roundPhase = ROUND_RESULT] *)
Definition record (rr : RoundResult) (rm : t) : t := {|
  currentRound := currentRound rm;
  maxRounds := maxRounds rm;
  roundResults := roundResults rm ++ [rr];
  usedPlayer1Properties := usedPlayer1Properties rm;
  usedPlayer2Properties := usedPlayer2Properties rm;
  currentPlayer1Property := currentPlayer1Property rm;
  currentPlayer2Property := currentPlayer2Property rm;
  roundPhase := ROUND_RESULT;
  autoPlayEnabled := autoPlayEnabled rm
|}.

(** A method call on a card that may be [undefined] (the caller indexes
    its hand with a selection that may be [null]). *)
Definition cardProperty (c : option Card) (property : string) : outcome Z :=
  match c with
  | Some c => CardOps.getProperty c property
  | None => Thrown "TypeError: Cannot read properties of undefined"
  end.

Definition calculateRoundResult (player1Card player2Card : option Card)
  : M t RoundResult :=
  (rm <- get ;;
   match currentPlayer1Property rm, currentPlayer2Property rm with
   | Some prop1, Some prop2 =>
       player1Value <- lift (cardProperty player1Card prop1) ;;
       player2Value <- lift (cardProperty player2Card prop2) ;;
       points <- lift (GameRules.calculateRoundScore prop1 player1Value
                                                     prop2 player2Value) ;;
       let rr := {| round := currentRound rm;
                    player1Property := prop1;
                    player1Value := player1Value;
                    player1Points := fst points;
                    player2Property := prop2;
                    player2Value := player2Value;
                    player2Points := snd points;
                    winner := determineRoundWinner (fst points) (snd points) |} in
       modify (record rr) ;; ret rr
   | _, _ => throw "Round not ready for calculation - missing property selections"
   end)%eff.

Definition advance (rm : t) : t := {|
  currentRound := currentRound rm + 1;
  maxRounds := maxRounds rm;
  roundResults := roundResults rm;
  usedPlayer1Properties := usedPlayer1Properties rm;
  usedPlayer2Properties := usedPlayer2Properties rm;
  currentPlayer1Property := None;
  currentPlayer2Property := None;
  roundPhase := PROPERTY_SELECTION;
  autoPlayEnabled := autoPlayEnabled rm
|}.

Definition advanceToNextRound : M t bool :=
  (rm <- get ;;
   if areAllRoundsComplete rm then ret false
   else modify advance ;; ret true)%eff.

Definition shouldAutoPlayRound (rm : t) : bool :=
  autoPlayEnabled rm && isFinalRound rm
  && (len (getAvailableProperties rm 1) =? 1)
  && (len (getAvailableProperties rm 2) =? 1).

Definition autoPlayRound (player1Card player2Card : option Card) : M t RoundResult :=
  (rm <- get ;;
   if negb (shouldAutoPlayRound rm) then throw "Round cannot be auto-played"
   else
     match getAvailableProperties rm 1, getAvailableProperties rm 2 with
     | player1FinalProperty :: _, player2FinalProperty :: _ =>
         selectProperty 1 player1FinalProperty ;;
         selectProperty 2 player2FinalProperty ;;
         setRoundPhase AUTO_ROUND ;;
         calculateRoundResult player1Card player2Card
     | _, _ => throw "Invalid property: "
     end)%eff.

(** [[...this.roundResults]] *)
Definition getRoundResults (rm : t) : list RoundResult := roundResults rm.

Definition validateState (rm : t) : bool :=
  if (currentRound rm <? 1) || (currentRound rm >? maxRounds rm + 1) then false
  else if (len (usedPlayer1Properties rm) >? maxRounds rm)
          || (len (usedPlayer2Properties rm) >? maxRounds rm) then false
  else if negb (setSize (usedPlayer1Properties rm) =? len (usedPlayer1Properties rm))
          || negb (setSize (usedPlayer2Properties rm) =? len (usedPlayer2Properties rm))
       then false
  else if negb (len (roundResults rm) =? Z.min (currentRound rm - 1) (maxRounds rm))
       then false
  else true.

(** The tree [exportState] returns has the fields of the object. *)
Definition exportState (rm : t) : t := rm.

Definition orNull (x : option string) : option string :=
  match x with
  | Some s => if s === "" then None else Some s
  | None => None
  end.

Definition importState (state : t) : M t unit :=
  (modify (fun _ => {|
     currentRound := orZ (currentRound state) 1;
     maxRounds := orZ (maxRounds state) ROUNDS_PER_CARD;
     roundResults := roundResults state;
     usedPlayer1Properties := usedPlayer1Properties state;
     usedPlayer2Properties := usedPlayer2Properties state;
     currentPlayer1Property := orNull (currentPlayer1Property state);
     currentPlayer2Property := orNull (currentPlayer2Property state);
     roundPhase := roundPhase state;
     autoPlayEnabled := autoPlayEnabled state
   |}) ;;
   rm <- get ;;
   if negb (validateState rm) then throw "Invalid round manager state imported"
   else ret tt)%eff.

End RoundManager.

(** ** shared/game-engine/score-manager.js *)

Module ScoreManager.
Import GameConfig.

(** [averagePerRound] is the quotient of two integers; the code stores the
    double nearest to it, the model the quotient itself. *)
Record PlayerStats : Set := {
  totalPoints : Z;
  roundsWon : Z;
  roundsLost : Z;
  roundsTied : Z;
  cardsWon : Z;
  cardsLost : Z;
  cardsTied : Z;
  highestSingleRound : Z;
  averagePerRound : Q;
  winStreak : Z;
  currentStreak : Z;
  comebacks : Z
}.

Definition initPlayerStats : PlayerStats := {|
  totalPoints := 0; roundsWon := 0; roundsLost := 0; roundsTied := 0;
  cardsWon := 0; cardsLost := 0; cardsTied := 0; highestSingleRound := 0;
  averagePerRound := 0%Q; winStreak := 0; currentStreak := 0; comebacks := 0
|}.

(** An entry of [scoreHistory], without its [timestamp]. *)
Record ScoreChange : Set := {
  player : Z;
  points : Z;
  source : string;
  previousScore : Z;
  newScore : Z
}.

(** An entry of [cardScores]. *)
Record CardResult : Set := {
  cardGame : Z;
  cardPlayer1Score : Z;
  cardPlayer2Score : Z;
  cardWinner : Winner;
  cardRounds : list RoundResult
}.

Record t : Set := {
  player1Score : Z;
  player2Score : Z;
  scoreHistory : list ScoreChange;
  cardScores : list CardResult;
  bonusPoints : Z * Z;
  statistics : PlayerStats * PlayerStats
}.

Definition new : t := {|
  player1Score := 0;
  player2Score := 0;
  scoreHistory := [];
  cardScores := [];
  bonusPoints := (0, 0);
  statistics := (initPlayerStats, initPlayerStats)
|}.

Definition reset : M t unit := modify (fun _ => new).

Definition getScore (sm : t) (playerNumber : Z) : Z :=
  if playerNumber =? 1 then player1Score sm else player2Score sm.

Definition getScores (sm : t) : Z * Z := (player1Score sm, player2Score sm).

(** Field updates. *)
Definition setStatistics (st : PlayerStats * PlayerStats) (sm : t) : t := {|
  player1Score := player1Score sm;
  player2Score := player2Score sm;
  scoreHistory := scoreHistory sm;
  cardScores := cardScores sm;
  bonusPoints := bonusPoints sm;
  statistics := st
|}.

Definition mapStats1 (f : PlayerStats -> PlayerStats) (sm : t) : t :=
  setStatistics (f (fst (statistics sm)), snd (statistics sm)) sm.

Definition mapStats2 (f : PlayerStats -> PlayerStats) (sm : t) : t :=
  setStatistics (fst (statistics sm), f (snd (statistics sm))) sm.

Definition addTotalPoints (n : Z) (s : PlayerStats) : PlayerStats := {|
  totalPoints := totalPoints s + n;
  roundsWon := roundsWon s; roundsLost := roundsLost s; roundsTied := roundsTied s;
  cardsWon := cardsWon s; cardsLost := cardsLost s; cardsTied := cardsTied s;
  highestSingleRound := highestSingleRound s;
  averagePerRound := averagePerRound s;
  winStreak := winStreak s; currentStreak := currentStreak s;
  comebacks := comebacks s
|}.

(** [roundsWon++], [roundsLost++], [roundsTied++] *)
Definition addRounds (won lost tied : Z) (s : PlayerStats) : PlayerStats := {|
  totalPoints := totalPoints s;
  roundsWon := roundsWon s + won; roundsLost := roundsLost s + lost;
  roundsTied := roundsTied s + tied;
  cardsWon := cardsWon s; cardsLost := cardsLost s; cardsTied := cardsTied s;
  highestSingleRound := highestSingleRound s;
  averagePerRound := averagePerRound s;
  winStreak := winStreak s; currentStreak := currentStreak s;
  comebacks := comebacks s
|}.

(** [cardsWon++], [cardsLost++], [cardsTied++] *)
Definition addCards (won lost tied : Z) (s : PlayerStats) : PlayerStats := {|
  totalPoints := totalPoints s;
  roundsWon := roundsWon s; roundsLost := roundsLost s; roundsTied := roundsTied s;
  cardsWon := cardsWon s + won; cardsLost := cardsLost s + lost;
  cardsTied := cardsTied s + tied;
  highestSingleRound := highestSingleRound s;
  averagePerRound := averagePerRound s;
  winStreak := winStreak s; currentStreak := currentStreak s;
  comebacks := comebacks s
|}.

Definition setHighestSingleRound (n : Z) (s : PlayerStats) : PlayerStats := {|
  totalPoints := totalPoints s;
  roundsWon := roundsWon s; roundsLost := roundsLost s; roundsTied := roundsTied s;
  cardsWon := cardsWon s; cardsLost := cardsLost s; cardsTied := cardsTied s;
  highestSingleRound := n;
  averagePerRound := averagePerRound s;
  winStreak := winStreak s; currentStreak := currentStreak s;
  comebacks := comebacks s
|}.

Definition setAveragePerRound (q : Q) (s : PlayerStats) : PlayerStats := {|
  totalPoints := totalPoints s;
  roundsWon := roundsWon s; roundsLost := roundsLost s; roundsTied := roundsTied s;
  cardsWon := cardsWon s; cardsLost := cardsLost s; cardsTied := cardsTied s;
  highestSingleRound := highestSingleRound s;
  averagePerRound := q;
  winStreak := winStreak s; currentStreak := currentStreak s;
  comebacks := comebacks s
|}.

Definition setStreaks (best current : Z) (s : PlayerStats) : PlayerStats := {|
  totalPoints := totalPoints s;
  roundsWon := roundsWon s; roundsLost := roundsLost s; roundsTied := roundsTied s;
  cardsWon := cardsWon s; cardsLost := cardsLost s; cardsTied := cardsTied s;
  highestSingleRound := highestSingleRound s;
  averagePerRound := averagePerRound s;
  winStreak := best; currentStreak := current;
  comebacks := comebacks s
|}.

Definition addComeback (s : PlayerStats) : PlayerStats := {|
  totalPoints := totalPoints s;
  roundsWon := roundsWon s; roundsLost := roundsLost s; roundsTied := roundsTied s;
  cardsWon := cardsWon s; cardsLost := cardsLost s; cardsTied := cardsTied s;
  highestSingleRound := highestSingleRound s;
  averagePerRound := averagePerRound s;
  winStreak := winStreak s; currentStreak := currentStreak s;
  comebacks := comebacks s + 1
|}.

(** [this.player1Score += points; this.statistics.player1.totalPoints += points] *)
Definition credit1 (n : Z) (sm : t) : t :=
  mapStats1 (addTotalPoints n) {|
    player1Score := player1Score sm + n;
    player2Score := player2Score sm;
    scoreHistory := scoreHistory sm;
    cardScores := cardScores sm;
    bonusPoints := bonusPoints sm;
    statistics := statistics sm
  |}.

Definition credit2 (n : Z) (sm : t) : t :=
  mapStats2 (addTotalPoints n) {|
    player1Score := player1Score sm;
    player2Score := player2Score sm + n;
    scoreHistory := scoreHistory sm;
    cardScores := cardScores sm;
    bonusPoints := bonusPoints sm;
    statistics := statistics sm
  |}.

Definition recordScoreChange (playerNumber points : Z) (source : string)
                             (previousScore : Z) : M t unit :=
  modify (fun sm => {|
    player1Score := player1Score sm;
    player2Score := player2Score sm;
    scoreHistory := scoreHistory sm ++
      [{| player := playerNumber; points := points; source := source;
          previousScore := previousScore;
          newScore := getScore sm playerNumber |}];
    cardScores := cardScores sm;
    bonusPoints := bonusPoints sm;
    statistics := statistics sm
  |}).

(** An empty method body in the source. *)
Definition updatePlayerStatistics (playerNumber points : Z) (source : string)
  : M t unit := ret tt.

Definition addPoints (playerNumber points : Z) (source : string) : M t unit :=
  (if points <? 0 then
     throw "Points cannot be negative. Use subtractPoints for negative values."
   else
     sm <- get ;;
     let previousScore := getScore sm playerNumber in
     (if playerNumber =? 1 then modify (credit1 points)
      else if playerNumber =? 2 then modify (credit2 points)
      else throw "Invalid player number: ") ;;
     recordScoreChange playerNumber points source previousScore ;;
     updatePlayerStatistics playerNumber points source)%eff.

(** [updateWinStreak]: the winner's streak grows, the loser's is cleared. *)
Definition streakWon (s : PlayerStats) : PlayerStats :=
  setStreaks (Z.max (winStreak s) (currentStreak s + 1)) (currentStreak s + 1) s.

Definition streakLost (s : PlayerStats) : PlayerStats :=
  setStreaks (winStreak s) 0 s.

Definition updateWinStreak (winnerNumber : Z) : M t unit :=
  if winnerNumber =? 1
  then modify (fun sm => mapStats2 streakLost (mapStats1 streakWon sm))
  else modify (fun sm => mapStats1 streakLost (mapStats2 streakWon sm)).

Definition resetWinStreaks : M t unit :=
  modify (fun sm => mapStats2 streakLost (mapStats1 streakLost sm)).

Definition average (s : PlayerStats) : PlayerStats :=
  let totalRounds := roundsWon s + roundsLost s + roundsTied s in
  if totalRounds >? 0
  then setAveragePerRound (Qmake (totalPoints s) (Z.to_pos totalRounds)) s
  else s.

Definition updateAverages : M t unit :=
  modify (fun sm => mapStats2 average (mapStats1 average sm)).

Definition raiseHighest (pts : Z) (s : PlayerStats) : PlayerStats :=
  if pts >? highestSingleRound s then setHighestSingleRound pts s else s.

Definition updateRoundStatistics (roundResult : RoundResult) (cardGame round : Z)
  : M t unit :=
  (match winner roundResult with
   | player1 =>
       modify (fun sm => mapStats2 (addRounds 0 1 0) (mapStats1 (addRounds 1 0 0) sm)) ;;
       updateWinStreak 1
   | player2 =>
       modify (fun sm => mapStats1 (addRounds 0 1 0) (mapStats2 (addRounds 1 0 0) sm)) ;;
       updateWinStreak 2
   | tie =>
       modify (fun sm => mapStats2 (addRounds 0 0 1) (mapStats1 (addRounds 0 0 1) sm)) ;;
       resetWinStreaks
   end ;;
   modify (mapStats1 (raiseHighest (player1Points roundResult))) ;;
   modify (mapStats2 (raiseHighest (player2Points roundResult))) ;;
   updateAverages)%eff.

Definition addBonus (playerNumber n : Z) (sm : t) : t := {|
  player1Score := player1Score sm;
  player2Score := player2Score sm;
  scoreHistory := scoreHistory sm;
  cardScores := cardScores sm;
  bonusPoints := if playerNumber =? 1
                 then (fst (bonusPoints sm) + n, snd (bonusPoints sm))
                 else (fst (bonusPoints sm), snd (bonusPoints sm) + n);
  statistics := statistics sm
|}.

(** Only called with player 1 or 2. *)
Definition addBonusPoints (playerNumber points : Z) (bonusType : string) : M t unit :=
  when (points >? 0)
       (addPoints playerNumber points ("bonus_" ++ bonusType)%string ;;
        modify (addBonus playerNumber points))%eff.

Section Configured.
(** GameConfig.SCORING, read at each call. *)
Variable config : Scoring.

Definition checkForBonuses (roundResult : RoundResult) (cardGame round : Z)
  : M t unit :=
  (when (player1Points roundResult =? MAX_SINGLE_ROUND_SCORE config)
        (addBonusPoints 1 (WIN_BONUS config) "perfect_round") ;;
   when (player2Points roundResult =? MAX_SINGLE_ROUND_SCORE config)
        (addBonusPoints 2 (WIN_BONUS config) "perfect_round") ;;
   sm <- get ;;
   when (currentStreak (fst (statistics sm)) >=? 3)
        (addBonusPoints 1 (WIN_BONUS config) "win_streak") ;;
   sm <- get ;;
   when (currentStreak (snd (statistics sm)) >=? 3)
        (addBonusPoints 2 (WIN_BONUS config) "win_streak"))%eff.

(** [roundResult.player1Points || 0] is the field itself. *)
Definition processRoundResult (roundResult : RoundResult) (cardGame round : Z)
  : M t unit :=
  (let player1Points := orZ (player1Points roundResult) 0 in
   let player2Points := orZ (player2Points roundResult) 0 in
   when (player1Points >? 0) (addPoints 1 player1Points "round") ;;
   when (player2Points >? 0) (addPoints 2 player2Points "round") ;;
   updateRoundStatistics roundResult cardGame round ;;
   checkForBonuses roundResult cardGame round)%eff.

Definition checkForComebacks (cardResult : CardResult) (cardGame : Z) : M t unit :=
  (sm <- get ;;
   let overall := getScores sm in
   match cardWinner cardResult with
   | player1 =>
       when (fst overall <? snd overall)
            (modify (mapStats1 addComeback) ;;
             addBonusPoints 1 (COMEBACK_BONUS config) "comeback")
   | player2 =>
       when (snd overall <? fst overall)
            (modify (mapStats2 addComeback) ;;
             addBonusPoints 2 (COMEBACK_BONUS config) "comeback")
   | tie => ret tt
   end)%eff.

Definition pushCardResult (cardResult : CardResult) (sm : t) : t := {|
  player1Score := player1Score sm;
  player2Score := player2Score sm;
  scoreHistory := scoreHistory sm;
  cardScores := cardScores sm ++ [cardResult];
  bonusPoints := bonusPoints sm;
  statistics := statistics sm
|}.

(** The two [reduce] calls of [completeCardGame]. *)
Definition sumPoints (f : RoundResult -> Z) (roundResults : list RoundResult) : Z :=
  fold_left (fun sum r => sum + orZ (f r) 0) roundResults 0.

Definition completeCardGame (roundResults : list RoundResult) (cardGame : Z)
  : M t unit :=
  (let player1CardScore := sumPoints player1Points roundResults in
   let player2CardScore := sumPoints player2Points roundResults in
   let cardResult := {|
     cardGame := cardGame;
     cardPlayer1Score := player1CardScore;
     cardPlayer2Score := player2CardScore;
     cardWinner := if player1CardScore >? player2CardScore then player1
                   else if player2CardScore >? player1CardScore then player2
                   else tie;
     cardRounds := roundResults |} in
   modify (pushCardResult cardResult) ;;
   match cardWinner cardResult with
   | player1 =>
       modify (fun sm => mapStats2 (addCards 0 1 0) (mapStats1 (addCards 1 0 0) sm))
   | player2 =>
       modify (fun sm => mapStats1 (addCards 0 1 0) (mapStats2 (addCards 1 0 0) sm))
   | tie =>
       modify (fun sm => mapStats2 (addCards 0 0 1) (mapStats1 (addCards 0 0 1) sm))
   end ;;
   checkForComebacks cardResult cardGame)%eff.

End Configured.

Definition getCurrentWinner (sm : t) : Winner :=
  if player1Score sm >? player2Score sm then player1
  else if player2Score sm >? player1Score sm then player2
  else tie.

Definition getScoreDifference (sm : t) : Z := player1Score sm - player2Score sm.

Record ScoreBreakdown : Set := {
  current : Z * Z;
  bonus : Z * Z;
  difference : Z;
  leader : Winner;
  breakdownCardScores : list CardResult;
  breakdownStatistics : PlayerStats * PlayerStats
}.

Definition getScoreBreakdown (sm : t) : ScoreBreakdown := {|
  current := getScores sm;
  bonus := bonusPoints sm;
  difference := getScoreDifference sm;
  leader := getCurrentWinner sm;
  breakdownCardScores := cardScores sm;
  breakdownStatistics := statistics sm
|}.

Definition validateState (sm : t) : bool :=
  if (player1Score sm <? 0) || (player2Score sm <? 0) then false
  else if negb (totalPoints (fst (statistics sm)) =? player1Score sm)
          || negb (totalPoints (snd (statistics sm)) =? player2Score sm) then false
  else
    let cardTotal1 := fold_left (fun sum card => sum + cardPlayer1Score card)
                                (cardScores sm) 0 in
    let cardTotal2 := fold_left (fun sum card => sum + cardPlayer2Score card)
                                (cardScores sm) 0 in
    if (cardTotal1 >? player1Score sm) || (cardTotal2 >? player2Score sm) then false
    else true.

(** The exported tree has the fields of the object (arrays and the two
    statistics objects copied). *)
Definition exportState (sm : t) : t := sm.

Definition importState (state : t) : M t unit :=
  (modify (fun _ => {|
     player1Score := orZ (player1Score state) 0;
     player2Score := orZ (player2Score state) 0;
     scoreHistory := scoreHistory state;
     cardScores := cardScores state;
     bonusPoints := bonusPoints state;
     statistics := statistics state
   |}) ;;
   sm <- get ;;
   if negb (validateState sm) then throw "Invalid score manager state imported"
   else ret tt)%eff.

End ScoreManager.

(** ** shared/game-engine/match-manager.js *)

Module MatchManager.
Import GameConfig.

(** An entry of [cardGameResults]. *)
Record CardGameResult : Set := {
  cardGame : Z;
  player1Card : option Z;
  player2Card : option Z;
  rounds : list RoundResult;
  scores : Z * Z;
  cardGameLeader : Winner
}.

(** [matchResult], without its identifier and clock readings.  Its
    [cardResults] field is not a copy: it is the very array
    [cardGameResults], so it is read from the match (see
    [getMatchResult]). *)
Record MatchResult : Set := {
  matchWinner : Winner;
  finalScores : Z * Z;
  matchStatistics : ScoreManager.ScoreBreakdown
}.

(** The match object.  [matchId], the two clock readings, [timeouts] and
    the two flags that no method reads are left out. *)
Record t : Set := {
  gameMode : string;
  player1Cards : list Card;
  player2Cards : list Card;
  currentCardGame : Z;
  maxCardGames : Z;
  matchPhase : Phase;
  player1SelectedCard : option Z;
  player2SelectedCard : option Z;
  roundManager : RoundManager.t;
  scoreManager : ScoreManager.t;
  cardGameResults : list CardGameResult;
  matchResult : option MatchResult
}.

Definition setRoundManager (rm : RoundManager.t) (m : t) : t := {|
  gameMode := gameMode m;
  player1Cards := player1Cards m;
  player2Cards := player2Cards m;
  currentCardGame := currentCardGame m;
  maxCardGames := maxCardGames m;
  matchPhase := matchPhase m;
  player1SelectedCard := player1SelectedCard m;
  player2SelectedCard := player2SelectedCard m;
  roundManager := rm;
  scoreManager := scoreManager m;
  cardGameResults := cardGameResults m;
  matchResult := matchResult m
|}.

Definition setScoreManager (sm : ScoreManager.t) (m : t) : t := {|
  gameMode := gameMode m;
  player1Cards := player1Cards m;
  player2Cards := player2Cards m;
  currentCardGame := currentCardGame m;
  maxCardGames := maxCardGames m;
  matchPhase := matchPhase m;
  player1SelectedCard := player1SelectedCard m;
  player2SelectedCard := player2SelectedCard m;
  roundManager := roundManager m;
  scoreManager := sm;
  cardGameResults := cardGameResults m;
  matchResult := matchResult m
|}.

Definition setMatchPhase (phase : Phase) (m : t) : t := {|
  gameMode := gameMode m;
  player1Cards := player1Cards m;
  player2Cards := player2Cards m;
  currentCardGame := currentCardGame m;
  maxCardGames := maxCardGames m;
  matchPhase := phase;
  player1SelectedCard := player1SelectedCard m;
  player2SelectedCard := player2SelectedCard m;
  roundManager := roundManager m;
  scoreManager := scoreManager m;
  cardGameResults := cardGameResults m;
  matchResult := matchResult m
|}.

Definition setPlayer1SelectedCard (c : option Z) (m : t) : t := {|
  gameMode := gameMode m;
  player1Cards := player1Cards m;
  player2Cards := player2Cards m;
  currentCardGame := currentCardGame m;
  maxCardGames := maxCardGames m;
  matchPhase := matchPhase m;
  player1SelectedCard := c;
  player2SelectedCard := player2SelectedCard m;
  roundManager := roundManager m;
  scoreManager := scoreManager m;
  cardGameResults := cardGameResults m;
  matchResult := matchResult m
|}.

Definition setPlayer2SelectedCard (c : option Z) (m : t) : t := {|
  gameMode := gameMode m;
  player1Cards := player1Cards m;
  player2Cards := player2Cards m;
  currentCardGame := currentCardGame m;
  maxCardGames := maxCardGames m;
  matchPhase := matchPhase m;
  player1SelectedCard := player1SelectedCard m;
  player2SelectedCard := c;
  roundManager := roundManager m;
  scoreManager := scoreManager m;
  cardGameResults := cardGameResults m;
  matchResult := matchResult m
|}.

Definition setCurrentCardGame (n : Z) (m : t) : t := {|
  gameMode := gameMode m;
  player1Cards := player1Cards m;
  player2Cards := player2Cards m;
  currentCardGame := n;
  maxCardGames := maxCardGames m;
  matchPhase := matchPhase m;
  player1SelectedCard := player1SelectedCard m;
  player2SelectedCard := player2SelectedCard m;
  roundManager := roundManager m;
  scoreManager := scoreManager m;
  cardGameResults := cardGameResults m;
  matchResult := matchResult m
|}.

Definition setCardGameResults (l : list CardGameResult) (m : t) : t := {|
  gameMode := gameMode m;
  player1Cards := player1Cards m;
  player2Cards := player2Cards m;
  currentCardGame := currentCardGame m;
  maxCardGames := maxCardGames m;
  matchPhase := matchPhase m;
  player1SelectedCard := player1SelectedCard m;
  player2SelectedCard := player2SelectedCard m;
  roundManager := roundManager m;
  scoreManager := scoreManager m;
  cardGameResults := l;
  matchResult := matchResult m
|}.

Definition setMatchResult (r : option MatchResult) (m : t) : t := {|
  gameMode := gameMode m;
  player1Cards := player1Cards m;
  player2Cards := player2Cards m;
  currentCardGame := currentCardGame m;
  maxCardGames := maxCardGames m;
  matchPhase := matchPhase m;
  player1SelectedCard := player1SelectedCard m;
  player2SelectedCard := player2SelectedCard m;
  roundManager := roundManager m;
  scoreManager := scoreManager m;
  cardGameResults := cardGameResults m;
  matchResult := r
|}.

(** Methods of the two sub-managers, run on the fields holding them. *)
Definition onRounds {A} (c : M RoundManager.t A) : M t A :=
  zoom roundManager setRoundManager c.
Definition onScores {A} (c : M ScoreManager.t A) : M t A :=
  zoom scoreManager setScoreManager c.

(** [validatePlayerCards]; every element of the model's lists is a [Card]
    instance. *)
Definition validatePlayerCards (player1Cards player2Cards : list Card) : bool :=
  if negb (len player1Cards =? CARDS_PER_PLAYER)
     || negb (len player2Cards =? CARDS_PER_PLAYER) then false
  else
    let player1Ids := map id player1Cards in
    let player2Ids := map id player2Cards in
    let duplicates := filter (fun i => existsb (Z.eqb i) player2Ids) player1Ids in
    len duplicates =? 0.

(** The constructor. *)
Definition new (player1Cards player2Cards : list Card) (gameMode : string)
  : outcome t :=
  if negb (validatePlayerCards player1Cards player2Cards) then
    Thrown "Invalid player cards provided"
  else Returned {|
    gameMode := gameMode;
    player1Cards := player1Cards;
    player2Cards := player2Cards;
    currentCardGame := 1;
    maxCardGames := TOTAL_CARD_GAMES;
    matchPhase := CARD_SELECTION;
    player1SelectedCard := None;
    player2SelectedCard := None;
    roundManager := RoundManager.new;
    scoreManager := ScoreManager.new;
    cardGameResults := [];
    matchResult := None
  |}.

(** [cards[selected]]: [undefined] when the selection is [null] or not an
    index of the array. *)
Definition cardAt (cards : list Card) (selected : option Z) : option Card :=
  match selected with
  | Some i => if i <? 0 then None else nth_error cards (Z.to_nat i)
  | None => None
  end.

Definition canProceedToPropertySelection (m : t) : bool :=
  match player1SelectedCard m, player2SelectedCard m with
  | Some _, Some _ => true
  | _, _ => false
  end.

Definition startPropertySelection : M t unit :=
  (modify (setMatchPhase PROPERTY_SELECTION) ;;
   onRounds RoundManager.reset)%eff.

(** What [selectCard] returns; [success] is always [true]. *)
Record CardSelection : Set := {
  selectedCard : Z;
  readyToProceed : bool;
  nextPhase : Phase
}.

Definition selectCard (playerNumber cardIndex : Z) : M t CardSelection :=
  (m <- get ;;
   if negb (Phase_eqb (matchPhase m) CARD_SELECTION) then
     throw "Cannot select card during phase: "
   else
     let cards := if playerNumber =? 1 then player1Cards m else player2Cards m in
     if (cardIndex <? 0) || (cardIndex >=? len cards) then
       throw "Invalid card index: "
     else if cardIndex <? currentCardGame m - 1 then
       throw "Card already used in previous card game"
     else
       (if playerNumber =? 1
        then modify (setPlayer1SelectedCard (Some cardIndex))
        else modify (setPlayer2SelectedCard (Some cardIndex))) ;;
       m <- get ;;
       when (canProceedToPropertySelection m) startPropertySelection ;;
       m <- get ;;
       ret {| selectedCard := cardIndex;
              readyToProceed := canProceedToPropertySelection m;
              nextPhase := matchPhase m |})%eff.

(** [getPlayerCardInfo]: the [available] and [used] flags of a hand index. *)
Definition cardAvailable (m : t) (index : Z) : bool := index >=? currentCardGame m - 1.
Definition cardUsed (m : t) (index : Z) : bool := index <? currentCardGame m - 1.

Section Configured.
Variable config : Scoring.

Definition completeMatch : M t unit :=
  (modify (setMatchPhase GAME_OVER) ;;
   m <- get ;;
   modify (setMatchResult (Some {|
     matchWinner := ScoreManager.getCurrentWinner (scoreManager m);
     finalScores := ScoreManager.getScores (scoreManager m);
     matchStatistics := ScoreManager.getScoreBreakdown (scoreManager m) |})))%eff.

Definition completeCardGame : M t unit :=
  (m <- get ;;
   let roundResults := RoundManager.getRoundResults (roundManager m) in
   onScores (ScoreManager.completeCardGame config roundResults (currentCardGame m)) ;;
   m <- get ;;
   let cardGameResult := {|
     cardGame := currentCardGame m;
     player1Card := player1SelectedCard m;
     player2Card := player2SelectedCard m;
     rounds := roundResults;
     scores := ScoreManager.getScores (scoreManager m);
     cardGameLeader := ScoreManager.getCurrentWinner (scoreManager m) |} in
   modify (setCardGameResults (cardGameResults m ++ [cardGameResult])) ;;
   modify (setMatchPhase CARD_COMPLETE) ;;
   when (currentCardGame m >=? maxCardGames m) completeMatch)%eff.

Definition autoPlayFinalRound : M t RoundResult :=
  (m <- get ;;
   let player1Card := cardAt (player1Cards m) (player1SelectedCard m) in
   let player2Card := cardAt (player2Cards m) (player2SelectedCard m) in
   roundResult <- onRounds (RoundManager.autoPlayRound player1Card player2Card) ;;
   m <- get ;;
   onScores (ScoreManager.processRoundResult config roundResult (currentCardGame m)
               (RoundManager.getCurrentRound (roundManager m))) ;;
   completeCardGame ;;
   ret roundResult)%eff.

Definition calculateRound : M t RoundResult :=
  (m <- get ;;
   let player1Card := cardAt (player1Cards m) (player1SelectedCard m) in
   let player2Card := cardAt (player2Cards m) (player2SelectedCard m) in
   roundResult <- onRounds (RoundManager.calculateRoundResult player1Card player2Card) ;;
   m <- get ;;
   onScores (ScoreManager.processRoundResult config roundResult (currentCardGame m)
               (RoundManager.getCurrentRound (roundManager m))) ;;
   modify (setMatchPhase ROUND_RESULT) ;;
   m <- get ;;
   (if RoundManager.areAllRoundsComplete (roundManager m) then completeCardGame
    else if RoundManager.shouldAutoPlayRound (roundManager m)
         then (autoPlayFinalRound ;; ret tt)
         else ret tt) ;;
   ret roundResult)%eff.

(** What [selectProperty] returns. *)
Record PropertySelection : Set := {
  success : bool;
  readyForCalculation : bool;
  availableProperties : list string
}.

Definition selectProperty (playerNumber : Z) (property : string)
  : M t PropertySelection :=
  (m <- get ;;
   if negb (Phase_eqb (matchPhase m) PROPERTY_SELECTION) then
     throw "Cannot select property during phase: "
   else
     success <- onRounds (RoundManager.selectProperty playerNumber property) ;;
     m <- get ;;
     (if success && RoundManager.isRoundReadyForCalculation (roundManager m)
      then (calculateRound ;; ret tt)
      else ret tt) ;;
     m <- get ;;
     ret {| success := success;
            readyForCalculation :=
              RoundManager.isRoundReadyForCalculation (roundManager m);
            availableProperties :=
              RoundManager.getAvailableProperties (roundManager m) playerNumber |})%eff.

Definition advanceToNextRound : M t bool :=
  (m <- get ;;
   if negb (Phase_eqb (matchPhase m) ROUND_RESULT) then ret false
   else
     advanced <- onRounds RoundManager.advanceToNextRound ;;
     when advanced (modify (setMatchPhase PROPERTY_SELECTION)) ;;
     ret advanced)%eff.

Definition advanceToNextCard : M t bool :=
  (m <- get ;;
   if negb (Phase_eqb (matchPhase m) CARD_COMPLETE) then ret false
   else if currentCardGame m >=? maxCardGames m then
     completeMatch ;; ret false
   else
     modify (setCurrentCardGame (currentCardGame m + 1)) ;;
     modify (setPlayer1SelectedCard None) ;;
     modify (setPlayer2SelectedCard None) ;;
     modify (setMatchPhase CARD_SELECTION) ;;
     ret true)%eff.

End Configured.

(** [getMatchResult], with the shared [cardResults] array read from where
    it lives. *)
Definition getMatchResult (m : t) : option (MatchResult * list CardGameResult) :=
  match matchResult m with
  | Some r => Some (r, cardGameResults m)
  | None => None
  end.

Definition isMatchComplete (m : t) : bool := Phase_eqb (matchPhase m) GAME_OVER.

Definition selectedInRange (selected : option Z) (cards : list Card) : bool :=
  match selected with
  | Some i => negb ((i <? 0) || (i >=? len cards))
  | None => true
  end.

Definition validateState (m : t) : bool :=
  if (currentCardGame m <? 1) || (currentCardGame m >? maxCardGames m + 1) then false
  else if negb (selectedInRange (player1SelectedCard m) (player1Cards m)) then false
  else if negb (selectedInRange (player2SelectedCard m) (player2Cards m)) then false
  else if negb (RoundManager.validateState (roundManager m))
          || negb (ScoreManager.validateState (scoreManager m)) then false
  else true.

(** The tree [exportState] returns: the fields of the object, the cards
    through [toJSON], the sub-managers through their own [exportState]. *)
Record Exported : Set := {
  x_gameMode : string;
  x_player1Cards : list CardOps.CardJSON;
  x_player2Cards : list CardOps.CardJSON;
  x_currentCardGame : Z;
  x_maxCardGames : Z;
  x_matchPhase : Phase;
  x_player1SelectedCard : option Z;
  x_player2SelectedCard : option Z;
  x_cardGameResults : list CardGameResult;
  x_matchResult : option MatchResult;
  x_roundManager : RoundManager.t;
  x_scoreManager : ScoreManager.t
}.

Definition exportState (m : t) : Exported := {|
  x_gameMode := gameMode m;
  x_player1Cards := map CardOps.toJSON (player1Cards m);
  x_player2Cards := map CardOps.toJSON (player2Cards m);
  x_currentCardGame := currentCardGame m;
  x_maxCardGames := maxCardGames m;
  x_matchPhase := matchPhase m;
  x_player1SelectedCard := player1SelectedCard m;
  x_player2SelectedCard := player2SelectedCard m;
  x_cardGameResults := cardGameResults m;
  x_matchResult := matchResult m;
  x_roundManager := RoundManager.exportState (roundManager m);
  x_scoreManager := ScoreManager.exportState (scoreManager m)
|}.

(** [array.map(cardData => Card.fromJSON(cardData))]: the first throwing
    constructor aborts the whole [map]. *)
Fixpoint mapFromJSON (l : list CardOps.CardJSON) : outcome (list Card) :=
  match l with
  | [] => Returned []
  | obj :: rest =>
      let* c := CardOps.fromJSON obj in
      let* cs := mapFromJSON rest in
      Returned (c :: cs)
  end.

Definition setGameMode (g : string) (m : t) : t := {|
  gameMode := g;
  player1Cards := player1Cards m;
  player2Cards := player2Cards m;
  currentCardGame := currentCardGame m;
  maxCardGames := maxCardGames m;
  matchPhase := matchPhase m;
  player1SelectedCard := player1SelectedCard m;
  player2SelectedCard := player2SelectedCard m;
  roundManager := roundManager m;
  scoreManager := scoreManager m;
  cardGameResults := cardGameResults m;
  matchResult := matchResult m
|}.

Definition setPlayer1Cards (cs : list Card) (m : t) : t := {|
  gameMode := gameMode m;
  player1Cards := cs;
  player2Cards := player2Cards m;
  currentCardGame := currentCardGame m;
  maxCardGames := maxCardGames m;
  matchPhase := matchPhase m;
  player1SelectedCard := player1SelectedCard m;
  player2SelectedCard := player2SelectedCard m;
  roundManager := roundManager m;
  scoreManager := scoreManager m;
  cardGameResults := cardGameResults m;
  matchResult := matchResult m
|}.

Definition setPlayer2Cards (cs : list Card) (m : t) : t := {|
  gameMode := gameMode m;
  player1Cards := player1Cards m;
  player2Cards := cs;
  currentCardGame := currentCardGame m;
  maxCardGames := maxCardGames m;
  matchPhase := matchPhase m;
  player1SelectedCard := player1SelectedCard m;
  player2SelectedCard := player2SelectedCard m;
  roundManager := roundManager m;
  scoreManager := scoreManager m;
  cardGameResults := cardGameResults m;
  matchResult := matchResult m
|}.

Definition setMaxCardGames (n : Z) (m : t) : t := {|
  gameMode := gameMode m;
  player1Cards := player1Cards m;
  player2Cards := player2Cards m;
  currentCardGame := currentCardGame m;
  maxCardGames := n;
  matchPhase := matchPhase m;
  player1SelectedCard := player1SelectedCard m;
  player2SelectedCard := player2SelectedCard m;
  roundManager := roundManager m;
  scoreManager := scoreManager m;
  cardGameResults := cardGameResults m;
  matchResult := matchResult m
|}.

(** The assignments of [importState] in source order; an exception leaves
    the earlier ones in place. *)
Definition importState (state : Exported) : M t unit :=
  (modify (setGameMode (orString (x_gameMode state) "demo")) ;;
   cards1 <- lift (mapFromJSON (x_player1Cards state)) ;;
   modify (setPlayer1Cards cards1) ;;
   cards2 <- lift (mapFromJSON (x_player2Cards state)) ;;
   modify (setPlayer2Cards cards2) ;;
   modify (setCurrentCardGame (orZ (x_currentCardGame state) 1)) ;;
   modify (setMaxCardGames (orZ (x_maxCardGames state) TOTAL_CARD_GAMES)) ;;
   modify (setMatchPhase (x_matchPhase state)) ;;
   modify (setPlayer1SelectedCard (x_player1SelectedCard state)) ;;
   modify (setPlayer2SelectedCard (x_player2SelectedCard state)) ;;
   modify (setCardGameResults (x_cardGameResults state)) ;;
   modify (setMatchResult (x_matchResult state)) ;;
   onRounds (RoundManager.importState (x_roundManager state)) ;;
   onScores (ScoreManager.importState (x_scoreManager state)) ;;
   m <- get ;;
   if negb (validateState m) then throw "Invalid match state imported"
   else ret tt)%eff.

End MatchManager.

(** ** shared/ai/ai-strategy.js *)

Module AIStrategy.

(** The evaluation works on JavaScript numbers that are no longer
    integers.  Their arithmetic is a parameter, so nothing proved below
    depends on how quotients and sums are rounded; [lit] reads a decimal
    literal of the source, [random] is [Math.random()] drawing from the
    generator's hidden state. *)
Record Runtime : Type := {
  num : Type;
  ofZ : Z -> num;
  lit : Q -> num;
  add : num -> num -> num;
  sub : num -> num -> num;
  mul : num -> num -> num;
  div : num -> num -> num;
  gt : num -> num -> bool;
  rng : Type;
  random : rng -> num * rng
}.

Section Runtime.
Variable R : Runtime.

Definition mathRandom : M (rng R) (num R) :=
  fun g => let (x, g') := random R g in (Returned x, g').

Definition calculateCardSynergy (card : Card) (property : string)
  : outcome (num R) :=
  let* myValue := CardOps.getProperty card property in
  if property === fst (CardOps.getHighestProperty card) then
    Returned (lit R (1 # 2))
  else if (property === fst (CardOps.getLowestProperty card)) && (myValue <? 5) then
    Returned (lit R (- 3 # 10))
  else if CardOps.isBalanced card then Returned (lit R (2 # 10))
  else Returned (ofZ R 0).

Definition calculatePositionalAdvantage (card : Card) (property : string)
  : outcome (num R) :=
  let* myValue := CardOps.getProperty card property in
  if myValue >=? 8 then Returned (lit R (3 # 10))
  else if myValue >=? 6 then Returned (lit R (1 # 10))
  else if myValue <=? 2 then Returned (lit R (- 2 # 10))
  else Returned (ofZ R 0).

Definition applyDifficultyModifier (baseScore : num R) (difficulty : string)
                                   (card : Card) (property : string)
  : M (rng R) (num R) :=
  (if difficulty === GameConfig.EASY then
     r <- mathRandom ;;
     ret (add R baseScore (mul R (sub R r (lit R (1 # 2))) (ofZ R 2)))
   else if difficulty === GameConfig.NORMAL then
     r <- mathRandom ;;
     ret (add R baseScore (mul R (sub R r (lit R (1 # 2))) (lit R (1 # 10))))
   else if difficulty === GameConfig.HARD then
     synergy <- lift (calculateCardSynergy card property) ;;
     ret (add R baseScore synergy)
   else if difficulty === GameConfig.EXPERT then
     synergy2 <- lift (calculateCardSynergy card property) ;;
     positional <- lift (calculatePositionalAdvantage card property) ;;
     ret (add R (add R baseScore synergy2) positional)
   else ret baseScore)%eff.

(** The body of the inner [forEach] of [evaluateMove]; the two running
    totals are integers. *)
Definition scenario (property : string) (myValue : Z) (opponentCard : Card)
                    (acc : outcome (Z * Z)) (oppProperty : string)
  : outcome (Z * Z) :=
  let* (totalScore, scenarioCount) := acc in
  let* oppValue := CardOps.getProperty opponentCard oppProperty in
  let* (myScore, oppScore) :=
    GameRules.calculateRoundScore property myValue oppProperty oppValue in
  Returned (totalScore + (myScore - oppScore), scenarioCount + 1).

(** The average net score, before the difficulty modifier. *)
Definition baseScore (card : Card) (property : string)
                     (allPossibleOpponentCards : list Card)
                     (usedOpponentProperties : list string) : outcome (num R) :=
  let* myValue := CardOps.getProperty card property in
  let opponentAvailableProps :=
    filter (fun prop => negb (includes usedOpponentProperties prop))
           GameConfig.getAllProperties in
  let* (totalScore, scenarioCount) :=
    fold_left (fun acc opponentCard =>
                 fold_left (scenario property myValue opponentCard)
                           opponentAvailableProps acc)
              allPossibleOpponentCards (Returned (0, 0)) in
  Returned (if scenarioCount >? 0
            then div R (ofZ R totalScore) (ofZ R scenarioCount)
            else ofZ R 0).

Definition evaluateMove (card : Card) (property : string)
                        (allPossibleOpponentCards : list Card)
                        (usedOpponentProperties : list string)
                        (difficulty : string) : M (rng R) (num R) :=
  (avgScore <- lift (baseScore card property allPossibleOpponentCards
                               usedOpponentProperties) ;;
   applyDifficultyModifier avgScore difficulty card property)%eff.

(** [score > bestScore] where [bestScore] starts at [-Infinity] ([None]):
    every score the evaluation produces is a finite number. *)
Definition better (score : num R) (bestScore : option (num R)) : bool :=
  match bestScore with
  | None => true
  | Some b => gt R score b
  end.

(** The [forEach] of [chooseBestProperty] over the candidates still to be
    evaluated; [best] is the pair of locals [bestProperty], [bestScore]. *)
Fixpoint chooseLoop (card : Card) (allPossibleOpponentCards : list Card)
                    (usedOpponentProperties : list string) (difficulty : string)
                    (candidates : list string) (best : string * option (num R))
  : M (rng R) string :=
  match candidates with
  | [] => ret (fst best)
  | property :: rest =>
      (score <- evaluateMove card property allPossibleOpponentCards
                             usedOpponentProperties difficulty ;;
       chooseLoop card allPossibleOpponentCards usedOpponentProperties difficulty
                  rest
                  (if better score (snd best) then (property, Some score)
                   else best))%eff
  end.

Definition chooseBestProperty (card : Card) (availableProperties : list string)
                              (allPossibleOpponentCards : list Card)
                              (usedOpponentProperties : list string)
                              (difficulty : string) : M (rng R) string :=
  match availableProperties with
  | [] => throw "No available properties for AI"
  | [only] => ret only
  | first :: _ =>
      chooseLoop card allPossibleOpponentCards usedOpponentProperties difficulty
                 availableProperties (first, None)
  end.

End Runtime.

(** Exact rational arithmetic, and a generator that replays a list of
    draws, for running the definitions. *)
Definition exact : Runtime := {|
  num := Q;
  ofZ := inject_Z;
  lit := fun q => q;
  add := Qplus;
  sub := Qminus;
  mul := Qmult;
  div := Qdiv;
  gt := fun a b => negb (Qle_bool a b);
  rng := list Q;
  random := fun g => match g with
                     | [] => (0%Q, [])
                     | x :: g' => (x, g')
                     end
|}.

End AIStrategy.

(** ** web/js/game-state-manager.js: the loop that drives a match *)

Module WebDriver.
Import GameConfig.

Section Configured.
Variable config : Scoring.

(** Each handler reports whether it goes on to call [onUpdate], which
    re-enters [handleGamePhase] with the new phase. *)
Definition handleCardSelection : M MatchManager.t bool :=
  (m <- get ;;
   let cardIndex := MatchManager.currentCardGame m - 1 in
   MatchManager.selectCard 1 cardIndex ;;
   MatchManager.selectCard 2 cardIndex ;;
   ret true)%eff.

Definition autoPlayFinalRound (prop1 prop2 : string) : M MatchManager.t bool :=
  (MatchManager.selectProperty config 1 prop1 ;;
   MatchManager.selectProperty config 2 prop2 ;;
   ret true)%eff.

(** When the final round is not auto-played the handler shows the property
    buttons and returns; the next engine call is the player's click. *)
Definition handlePropertySelection : M MatchManager.t bool :=
  (m <- get ;;
   let currentRound := RoundManager.getCurrentRound (MatchManager.roundManager m) in
   let availableProps1 :=
     RoundManager.getAvailableProperties (MatchManager.roundManager m) 1 in
   let availableProps2 :=
     RoundManager.getAvailableProperties (MatchManager.roundManager m) 2 in
   match availableProps1, availableProps2 with
   | [prop1], [prop2] =>
       if currentRound =? 3 then autoPlayFinalRound prop1 prop2 else ret false
   | _, _ => ret false
   end)%eff.

Definition handleRoundResult : M MatchManager.t bool :=
  (m <- get ;;
   let roundResults := RoundManager.getRoundResults (MatchManager.roundManager m) in
   match roundResults with
   | [] => ret false
   | _ :: _ =>
       (if len roundResults >=? RoundManager.getMaxRounds (MatchManager.roundManager m)
        then MatchManager.completeCardGame config
        else (MatchManager.advanceToNextRound ;; ret tt)) ;;
       ret true
   end)%eff.

Definition handleCardComplete : M MatchManager.t bool :=
  (m <- get ;;
   (if MatchManager.currentCardGame m <? 3
    then (MatchManager.advanceToNextCard ;; ret tt)
    else MatchManager.completeMatch) ;;
   ret true)%eff.

Definition handleGamePhase : M MatchManager.t bool :=
  (m <- get ;;
   match MatchManager.matchPhase m with
   | CARD_SELECTION => handleCardSelection
   | PROPERTY_SELECTION => handlePropertySelection
   | ROUND_RESULT => handleRoundResult
   | CARD_COMPLETE => handleCardComplete
   | _ => ret false
   end)%eff.

(** The chain of [onUpdate] callbacks, followed until a handler stops it. *)
Fixpoint settle (fuel : nat) : M MatchManager.t unit :=
  match fuel with
  | O => ret tt
  | S fuel =>
      (again <- handleGamePhase ;;
       if again then settle fuel else ret tt)%eff
  end.

(** [selectProperty]: the player's click and the property the AI answers
    with, then [onUpdate]. *)
Definition selectProperty (fuel : nat) (property aiChoice : string)
  : M MatchManager.t unit :=
  (MatchManager.selectProperty config 1 property ;;
   MatchManager.selectProperty config 2 aiChoice ;;
   settle fuel)%eff.

(** A whole session: the first display, then the clicks in order. *)
Fixpoint clicks (fuel : nat) (choices : list (string * string))
  : M MatchManager.t unit :=
  match choices with
  | [] => ret tt
  | (property, aiChoice) :: rest =>
      (selectProperty fuel property aiChoice ;; clicks fuel rest)%eff
  end.

Definition play (fuel : nat) (choices : list (string * string))
  : M MatchManager.t unit :=
  (settle fuel ;; clicks fuel choices)%eff.

End Configured.

(** What the player and the AI may pick in the two open rounds of one
    card-game: properties under their current names, a different one in the
    second round. *)
Definition legalPair (first second : string) : Prop :=
  In first getAllProperties /\ In second getAllProperties /\ first <> second.

Inductive legalChoices : nat -> list (string * string) -> Prop :=
| legal_done : legalChoices 0 []
| legal_cardGame (n : nat) (a1 b1 a2 b2 : string) (rest : list (string * string)) :
    legalPair a1 a2 -> legalPair b1 b2 -> legalChoices n rest ->
    legalChoices (S n) ((a1, b1) :: (a2, b2) :: rest).

End WebDriver.

(** * Further methods of the classes above *)

(** ** shared/core/game-rules.js: the winner of a round *)

Module Rules.

Definition getRoundWinner (prop1 : string) (val1 : Z) (prop2 : string) (val2 : Z)
  : outcome Winner :=
  let* (score1, score2) := GameRules.calculateRoundScore prop1 val1 prop2 val2 in
  Returned (if score1 >? score2 then player1
            else if score2 >? score1 then player2
            else tie).

End Rules.

(** ** shared/core/card.js: comparing and rebuilding cards *)

Module CardMore.

Definition isIdentical (c otherCard : Card) : bool :=
  (deception c =? deception otherCard) && (magic c =? magic otherCard)
  && (attack c =? attack otherCard).

(** [fromLegacy]: the identifier is [obj.id || 0], [None] standing for an
    object without one. *)
Definition fromLegacy (id : option Z) (rock paper scissors : Z) : outcome Card :=
  CardOps.new (match id with Some i => orZ i 0 | None => 0 end) rock paper scissors.

End CardMore.

(** ** shared/core/card-generator.js: checking a collection *)

Module CardCheck.

(** [validateCards]; every element of the model's lists is a [Card]
    instance. *)
Definition validateCards (cards : list Card) : bool :=
  forallb (fun card =>
             if negb (deception card + magic card + attack card =? 20) then false
             else if (deception card <? 1) || (deception card >? 9) then false
             else if (magic card <? 1) || (magic card >? 9) then false
             else if (attack card <? 1) || (attack card >? 9) then false
             else true)
          cards.

End CardCheck.

(** ** console/game.js: the score the console AI expects *)

Module ConsoleAI.

(** [AIPlayer.calculateRoundScore]: the caller's points only. *)
Definition calculateRoundScore (myProp : string) (myVal : Z)
                               (oppProp : string) (oppVal : Z) : Z :=
  if myProp === oppProp then
    if myVal >? oppVal then myVal - oppVal else 0
  else if Console.beats myProp oppProp && (myVal >? oppVal) then myVal - oppVal
  else 0.

End ConsoleAI.


(** ** shared/ai/ai-strategy.js: the choice of a card and a property *)

Module AIMove.
Import AIStrategy.

Section Runtime.
Variable R : Runtime.

(** The locals [bestCardIndex], [bestProperty] and [bestScore] of
    [chooseBestMove]; [bestScore] starts at [-Infinity] ([None]). *)
Definition Best : Type := (Z * string * option (num R))%type.

(** The inner [forEach], over the properties still to be evaluated for
    the card at [cardIndex]. *)
Fixpoint propertyLoop (card : Card) (cardIndex : Z)
                      (allPossibleOpponentCards : list Card)
                      (usedOpponentProperties : list string) (difficulty : string)
                      (properties : list string) (best : Best) : M (rng R) Best :=
  match properties with
  | [] => ret best
  | property :: rest =>
      (score <- evaluateMove R card property allPossibleOpponentCards
                             usedOpponentProperties difficulty ;;
       propertyLoop card cardIndex allPossibleOpponentCards usedOpponentProperties
                    difficulty rest
                    (if better R score (snd best) then (cardIndex, property, Some score)
                     else best))%eff
  end.

(** The outer [forEach], over the cards from [cardIndex] on. *)
Fixpoint cardLoop (availableProperties : list string)
                  (allPossibleOpponentCards : list Card)
                  (usedOpponentProperties : list string) (difficulty : string)
                  (cards : list Card) (cardIndex : Z) (best : Best) : M (rng R) Best :=
  match cards with
  | [] => ret best
  | card :: rest =>
      (best' <- propertyLoop card cardIndex allPossibleOpponentCards
                             usedOpponentProperties difficulty availableProperties best ;;
       cardLoop availableProperties allPossibleOpponentCards usedOpponentProperties
                difficulty rest (cardIndex + 1) best')%eff
  end.

(** The result is the pair of [cardIndex] and [property]. *)
Definition chooseBestMove (availableCards : list Card) (availableProperties : list string)
                          (allPossibleOpponentCards : list Card)
                          (usedOpponentProperties : list string)
                          (difficulty : string) : M (rng R) (Z * string) :=
  match availableCards, availableProperties with
  | [], _ => throw "No available cards or properties for AI"
  | _, [] => throw "No available cards or properties for AI"
  | [_], [only] => ret (0, only)
  | _, first :: _ =>
      (best <- cardLoop availableProperties allPossibleOpponentCards
                        usedOpponentProperties difficulty availableCards 0
                        (0, first, None) ;;
       ret (fst best))%eff
  end.

End Runtime.

End AIMove.

(** ** shared/core/card-generator.js: dealing random cards *)

Module RandomCards.

Section Generator.
(** The hidden state of [Math.random], and
    [Math.floor(Math.random() * n)] drawing from it. *)
Variable rng : Type.
Variable randomIndex : Z -> rng -> Z * rng.

(** [excludeCards.some(excludeCard => excludeCard.id === card.id)].  An
    array element may be [undefined] ([None]), whose [id] cannot be
    read. *)
Fixpoint someSameId (excludeCards : list (option Card)) (card : Card) : outcome bool :=
  match excludeCards with
  | [] => Returned false
  | None :: _ => Thrown "TypeError: Cannot read properties of undefined"
  | Some excludeCard :: rest =>
      if id excludeCard =? id card then Returned true else someSameId rest card
  end.

(** [allCards.filter(card => !excludeCards.some(...))] *)
Fixpoint removeExcluded (excludeCards : list (option Card)) (allCards : list Card)
  : outcome (list Card) :=
  match allCards with
  | [] => Returned []
  | card :: rest =>
      let* excluded := someSameId excludeCards card in
      let* others := removeExcluded excludeCards rest in
      Returned (if negb excluded then card :: others else others)
  end.

(** [availableCards[randomIndex]]: [undefined] outside the array. *)
Definition element (cards : list Card) (index : Z) : option Card :=
  if index <? 0 then None else nth_error cards (Z.to_nat index).

Definition getRandomCard (excludeCards : list (option Card)) : M rng (option Card) :=
  (availableCards <- lift (removeExcluded excludeCards CardGenerator.generateAllCards) ;;
   if len availableCards =? 0 then throw "No available cards to select from"
   else fun g => let (index, g') := randomIndex (len availableCards) g in
                 (Returned (element availableCards index), g'))%eff.

(** The loop of [getRandomCards] with [remaining] iterations to go: an
    exception of [getRandomCard] is caught and ends the loop. *)
Fixpoint dealLoop (remaining : nat) (cards excluded : list (option Card))
  : M rng (list (option Card)) :=
  match remaining with
  | O => ret cards
  | S remaining' => fun g =>
      match getRandomCard excluded g with
      | (Returned card, g') =>
          dealLoop remaining' (cards ++ [card]) (excluded ++ [card]) g'
      | (Thrown _, g') => (Returned cards, g')
      end
  end.

Definition getRandomCards (count : Z) (excludeCards : list (option Card))
  : M rng (list (option Card)) :=
  if count <=? 0 then ret [] else dealLoop (Z.to_nat count) [] excludeCards.

End Generator.

(** The cards of the universe that share no identifier with [excludeCards]. *)
Definition notExcluded (excludeCards : list Card) : list Card :=
  filter (fun card => negb (existsb (fun excludeCard => id excludeCard =? id card)
                                    excludeCards))
         CardGenerator.generateAllCards.

(** A generator for running the definitions: a counter, reduced modulo
    the bound. *)
Definition counting (n : Z) (g : Z) : Z * Z := (g mod n, g + 1).

End RandomCards.

(** ** web/js/card-selection-manager.js: the selection, without its display *)

Module CardSelectionManager.

(** [selectedCards.findIndex(c => c.id === card.id)], [None] for -1. *)
Fixpoint findIndex (cardId : Z) (selectedCards : list Card) : option nat :=
  match selectedCards with
  | [] => None
  | c :: rest =>
      if id c =? cardId then Some O
      else match findIndex cardId rest with
           | Some i => Some (S i)
           | None => None
           end
  end.

(** [selectedCards.splice(index, 1)] *)
Definition splice (index : nat) (selectedCards : list Card) : list Card :=
  firstn index selectedCards ++ skipn (S index) selectedCards.

Definition toggleCardSelection (card : Card) (selectedCards : list Card) : list Card :=
  match findIndex (id card) selectedCards with
  | Some index => splice index selectedCards
  | None =>
      if len selectedCards <? 3 then selectedCards ++ [card]
      else selectedCards
  end.

Definition isValidSelection (selectedCards : list Card) : bool :=
  len selectedCards =? 3.

(** A series of clicks on the grid, from the empty selection of the
    constructor. *)
Definition clicks (cards : list Card) : list Card :=
  fold_left (fun selectedCards card => toggleCardSelection card selectedCards)
            cards [].

End CardSelectionManager.
(** * What the properties are stated with *)

(** ** The three properties and the scoring rule as the specification words it *)

Module Spec.

Inductive Property : Set := Deception | Magic | Attack.

(** The name the engine uses for a property. *)
Definition name (p : Property) : string :=
  match p with
  | Deception => "deception"
  | Magic => "magic"
  | Attack => "attack"
  end.

(** The property a string stands for, legacy aliases included: the
    normalization step at the boundary of the scoring rule. *)
Definition propertyOf (s : string) : option Property :=
  let n := GameRules.normalizeProperty s in
  if n === "deception" then Some Deception
  else if n === "magic" then Some Magic
  else if n === "attack" then Some Attack
  else None.

(** The property a key of the console version stands for. *)
Definition consolePropertyOf (k : string) : option Property :=
  match Console.legacyName k with
  | Some legacy => propertyOf legacy
  | None => None
  end.

(** Dominance, read off the engine's table. *)
Definition dominates (a b : Property) : Prop :=
  GameRules.WINNING_RULES (name a) = Some (name b).

(** The four steps of the scoring algorithm. *)
Inductive Score (propA : Property) (valA : Z) (propB : Property) (valB : Z)
  : Z * Z -> Prop :=
| step1_higher_A :
    propA = propB -> valA > valB -> Score propA valA propB valB (valA - valB, 0)
| step1_higher_B :
    propA = propB -> valB > valA -> Score propA valA propB valB (0, valB - valA)
| step1_equal :
    propA = propB -> valA = valB -> Score propA valA propB valB (0, 0)
| step2 :
    propA <> propB -> dominates propA propB -> valA > valB ->
    Score propA valA propB valB (valA - valB, 0)
| step3 :
    propA <> propB -> ~ (dominates propA propB /\ valA > valB) ->
    dominates propB propA -> valB > valA ->
    Score propA valA propB valB (0, valB - valA)
| step4 :
    propA <> propB -> ~ (dominates propA propB /\ valA > valB) ->
    ~ (dominates propB propA /\ valB > valA) ->
    Score propA valA propB valB (0, 0).

End Spec.

(** ** Cycles *)

(** A relation is a 3-cycle over the keys [ks] when no key beats itself
    and every key beats exactly one of the keys and is beaten by exactly
    one of them. *)
Definition threeCycle (beats : string -> string -> bool) (ks : list string) : Prop :=
  forall p, In p ks ->
    beats p p = false
    /\ (exists q, In q ks /\ q <> p /\ beats p q = true
                  /\ forall q', In q' ks -> beats p q' = true -> q' = q)
    /\ (exists q, In q ks /\ q <> p /\ beats q p = true
                  /\ forall q', In q' ks -> beats q' p = true -> q' = q).

(** ** Driving a match *)

Module Engine.
Import GameConfig.

(** The driver-facing operations of a match, a card being selected by an
    integer index. *)
Inductive Call : Set :=
| SelectCard (playerNumber cardIndex : Z)
| SelectProperty (playerNumber : Z) (property : string)
| AdvanceToNextRound
| CompleteCardGame
| AdvanceToNextCard
| CompleteMatch.

Definition call (config : Scoring) (c : Call) : M MatchManager.t unit :=
  match c with
  | SelectCard playerNumber cardIndex =>
      (MatchManager.selectCard playerNumber cardIndex ;; ret tt)%eff
  | SelectProperty playerNumber property =>
      (MatchManager.selectProperty config playerNumber property ;; ret tt)%eff
  | AdvanceToNextRound => (MatchManager.advanceToNextRound ;; ret tt)%eff
  | CompleteCardGame => MatchManager.completeCardGame config
  | AdvanceToNextCard => (MatchManager.advanceToNextCard ;; ret tt)%eff
  | CompleteMatch => MatchManager.completeMatch
  end.

(** A driver issuing calls one after the other; a call that throws leaves
    the match as the exception found it and the driver carries on. *)
Definition run (config : Scoring) (calls : list Call) (m : MatchManager.t)
  : MatchManager.t :=
  fold_left (fun m c => snd (call config c m)) calls m.

(** The states a match can be brought to. *)
Definition reachable (config : Scoring) (m : MatchManager.t) : Prop :=
  exists player1Cards player2Cards gameMode m0 calls,
    Forall (fun c => CardOps.wellFormed c = true) (player1Cards ++ player2Cards)
    /\ MatchManager.new player1Cards player2Cards gameMode = Returned m0
    /\ m = run config calls m0.

End Engine.

(** Two hands for worked examples; the first card of each is the pair of the
    specification's scenario. *)
Module Example.

Definition hand1 : list Card :=
  [ {| id := 8; deception := 2; magic := 9; attack := 9 |};
    {| id := 21; deception := 6; magic := 7; attack := 7 |};
    {| id := 35; deception := 9; magic := 9; attack := 2 |} ].

Definition hand2 : list Card :=
  [ {| id := 12; deception := 5; magic := 8; attack := 7 |};
    {| id := 3; deception := 4; magic := 7; attack := 9 |};
    {| id := 30; deception := 9; magic := 2; attack := 9 |} ].

(** [new MatchManager(hand1, hand2, 'demo')] *)
Definition fresh : MatchManager.t :=
  match MatchManager.new hand1 hand2 "demo" with
  | Returned m => m
  | Thrown _ =>
      {| MatchManager.gameMode := "";
         MatchManager.player1Cards := []; MatchManager.player2Cards := [];
         MatchManager.currentCardGame := 0; MatchManager.maxCardGames := 0;
         MatchManager.matchPhase := GameConfig.WAITING;
         MatchManager.player1SelectedCard := None;
         MatchManager.player2SelectedCard := None;
         MatchManager.roundManager := RoundManager.new;
         MatchManager.scoreManager := ScoreManager.new;
         MatchManager.cardGameResults := [];
         MatchManager.matchResult := None |}
  end.

End Example.

(** ** Worked matches *)

Module Scenarios.
Import Engine.

(** Three rounds of the first card-game, every property committed by an
    explicit [selectProperty] call. *)
Definition threeExplicitRounds : list Call :=
  [ SelectCard 1 0; SelectCard 2 0;
    SelectProperty 1 "attack"; SelectProperty 2 "attack"; AdvanceToNextRound;
    SelectProperty 1 "deception"; SelectProperty 2 "magic"; AdvanceToNextRound;
    SelectProperty 1 "magic"; SelectProperty 2 "deception" ].

(** The first card-game played with the last card of each hand and closed
    the way the web driver closes it, then the move to the second. *)
Definition lastCardFirst : list Call :=
  [ SelectCard 1 2; SelectCard 2 2;
    SelectProperty 1 "attack"; SelectProperty 2 "attack"; AdvanceToNextRound;
    SelectProperty 1 "deception"; SelectProperty 2 "magic"; AdvanceToNextRound;
    SelectProperty 1 "magic"; SelectProperty 2 "deception";
    CompleteCardGame; AdvanceToNextCard ].

(** The first round of the first card-game. *)
Definition oneRound : list Call :=
  [ SelectCard 1 0; SelectCard 2 0;
    SelectProperty 1 "attack"; SelectProperty 2 "attack" ].

(** A card-game played with the cards at [index], both sides committing a
    legacy name in round 1: three rounds of explicit selections, opened
    by [advanceToNextRound]. *)
Definition aliasCardGame (index : Z) : list Call :=
  [ SelectCard 1 index; SelectCard 2 index;
    SelectProperty 1 "rock"; SelectProperty 2 "paper"; AdvanceToNextRound;
    SelectProperty 1 "magic"; SelectProperty 2 "deception"; AdvanceToNextRound;
    SelectProperty 1 "attack"; SelectProperty 2 "attack" ].

(** Three such card-games, with [advanceToNextCard] between them; no
    [completeCardGame] and no [completeMatch] is called. *)
Definition aliasesInRoundOne : list Call :=
  aliasCardGame 0 ++ [AdvanceToNextCard] ++ aliasCardGame 1 ++ [AdvanceToNextCard]
  ++ aliasCardGame 2.

End Scenarios.

(** What a completed match is specified to look like. *)
Module Completed.

Definition total (f : RoundResult -> Z) (results : list MatchManager.CardGameResult) : Z :=
  fold_right Z.add 0
    (map (fun c => fold_right Z.add 0 (map f (MatchManager.rounds c))) results).

Definition asSpecified (m : MatchManager.t) : Prop :=
  exists r cardResults,
    MatchManager.getMatchResult m = Some (r, cardResults)
    /\ len cardResults = 3
    /\ Forall (fun c => len (MatchManager.rounds c) = 3) cardResults
    /\ fst (MatchManager.finalScores r)
       = total player1Points cardResults
         + fst (ScoreManager.bonus (MatchManager.matchStatistics r))
    /\ snd (MatchManager.finalScores r)
       = total player2Points cardResults
         + snd (ScoreManager.bonus (MatchManager.matchStatistics r)).

  (** The claim on every reachable match. *)
Definition claim (config : GameConfig.Scoring) : Prop :=
  forall m, Engine.reachable config m ->
            MatchManager.isMatchComplete m = true -> asSpecified m.

End Completed.

(** ** How the score manager's operations move the scores *)

Module ScoreFacts.

(** A side's score without the bonus points it was awarded. *)
Definition raw1 (sm : ScoreManager.t) : Z :=
  ScoreManager.player1Score sm - fst (ScoreManager.bonusPoints sm).
Definition raw2 (sm : ScoreManager.t) : Z :=
  ScoreManager.player2Score sm - snd (ScoreManager.bonusPoints sm).

(** [effect c d1 d2 keep]: from every state [c] returns, having raised the
    two bonus-free scores by [d1] and [d2]; under [keep] it leaves the
    bonus counters alone. *)
Definition effect (c : M ScoreManager.t unit) (d1 d2 : Z) (keep : Prop) : Prop :=
  forall sm, exists sm',
    c sm = (Returned tt, sm')
    /\ raw1 sm' = raw1 sm + d1
    /\ raw2 sm' = raw2 sm + d2
    /\ (keep -> ScoreManager.bonusPoints sm' = ScoreManager.bonusPoints sm).

End ScoreFacts.

(** ** The states a driven match passes through *)

Module Driven.
Import GameConfig.

(** The round manager as [reset] leaves it. *)
Definition freshRounds (autoPlay : bool) : RoundManager.t := {|
  RoundManager.currentRound := 1;
  RoundManager.maxRounds := 3;
  RoundManager.roundResults := [];
  RoundManager.usedPlayer1Properties := [];
  RoundManager.usedPlayer2Properties := [];
  RoundManager.currentPlayer1Property := None;
  RoundManager.currentPlayer2Property := None;
  RoundManager.roundPhase := PROPERTY_SELECTION;
  RoundManager.autoPlayEnabled := autoPlay
|}.

(** The round manager once the third round is resolved. *)
Definition resolvedRounds (autoPlay : bool) (used1 used2 : list string)
                          (last1 last2 : string) (results : list RoundResult)
  : RoundManager.t := {|
  RoundManager.currentRound := 3;
  RoundManager.maxRounds := 3;
  RoundManager.roundResults := results;
  RoundManager.usedPlayer1Properties := used1;
  RoundManager.usedPlayer2Properties := used2;
  RoundManager.currentPlayer1Property := Some last1;
  RoundManager.currentPlayer2Property := Some last2;
  RoundManager.roundPhase := ROUND_RESULT;
  RoundManager.autoPlayEnabled := autoPlay
|}.

(** A match in card-game [k], both sides on card [k - 1]. *)
Definition inCardGame (gameMode : string) (hand1 hand2 : list Card) (k : Z)
                      (phase : Phase) (rm : RoundManager.t) (sm : ScoreManager.t)
                      (results : list MatchManager.CardGameResult)
  : MatchManager.t := {|
  MatchManager.gameMode := gameMode;
  MatchManager.player1Cards := hand1;
  MatchManager.player2Cards := hand2;
  MatchManager.currentCardGame := k;
  MatchManager.maxCardGames := 3;
  MatchManager.matchPhase := phase;
  MatchManager.player1SelectedCard := Some (k - 1);
  MatchManager.player2SelectedCard := Some (k - 1);
  MatchManager.roundManager := rm;
  MatchManager.scoreManager := sm;
  MatchManager.cardGameResults := results;
  MatchManager.matchResult := None
|}.

(** [completeCardGame], and [completeMatch] behind it after the last
    card-game. *)
Definition closeCardGame (sm' : ScoreManager.t) (m : MatchManager.t) : MatchManager.t :=
  let m1 := MatchManager.setScoreManager sm' m in
  let m2 :=
    MatchManager.setMatchPhase CARD_COMPLETE
      (MatchManager.setCardGameResults
         (MatchManager.cardGameResults m ++
          [{| MatchManager.cardGame := MatchManager.currentCardGame m;
              MatchManager.player1Card := MatchManager.player1SelectedCard m;
              MatchManager.player2Card := MatchManager.player2SelectedCard m;
              MatchManager.rounds :=
                RoundManager.roundResults (MatchManager.roundManager m);
              MatchManager.scores := ScoreManager.getScores sm';
              MatchManager.cardGameLeader := ScoreManager.getCurrentWinner sm' |}])
         m1) in
  if MatchManager.currentCardGame m >=? MatchManager.maxCardGames m
  then snd (MatchManager.completeMatch m2)
  else m2.

End Driven.

(** ** State transfer *)

Module Transfer.

(** What an import of an export never trips over: a state that passes the
    validation [importState] ends with, hands of well-formed cards, and no
    field holding a value that [||] replaces by a default. *)
Definition importable (m : MatchManager.t) : Prop :=
  MatchManager.validateState m = true
  /\ Forall (fun c => CardOps.wellFormed c = true)
            (MatchManager.player1Cards m ++ MatchManager.player2Cards m)
  /\ MatchManager.gameMode m <> ""
  /\ MatchManager.maxCardGames m <> 0
  /\ RoundManager.maxRounds (MatchManager.roundManager m) <> 0
  /\ RoundManager.currentPlayer1Property (MatchManager.roundManager m) <> Some ""
  /\ RoundManager.currentPlayer2Property (MatchManager.roundManager m) <> Some "".

End Transfer.

(** ** Independence of the random generator *)

(** A computation that neither draws from the generator nor lets its result
    depend on the generator's state. *)
Definition generatorFree (R : AIStrategy.Runtime) {A} (c : M (AIStrategy.rng R) A)
  : Prop :=
exists o, forall g, c g = (o, g).


(** ** What every call keeps *)

Module Keeps.
Import GameConfig.

(** [kept I c]: from a state satisfying [I], whatever [c] does, and
    whether it returns or throws, it leaves a state satisfying [I]. *)
Definition kept {S A} (I : S -> Prop) (c : M S A) : Prop :=
  forall s, I s -> I (snd (c s)).

(** [related R c]: the state [c] leaves is [R]-related to the one it
    found, whether it returns or throws. *)
Definition related {S A} (R : S -> S -> Prop) (c : M S A) : Prop :=
  forall s, R s (snd (c s)).

(** A list that only grew. *)
Definition extends {A} (l l' : list A) : Prop := exists extra, l' = l ++ extra.

(** A round result that agrees with the rule book. *)
Definition consistent (r : RoundResult) : Prop :=
  GameConfig.isValidProperty (player1Property r) = true
  /\ GameConfig.isValidProperty (player2Property r) = true
  /\ GameRules.calculateRoundScore (player1Property r) (player1Value r)
                                   (player2Property r) (player2Value r)
     = Returned (player1Points r, player2Points r)
  /\ winner r = RoundManager.determineRoundWinner (player1Points r) (player2Points r).

(** The round manager's books. *)
Definition roundsInOrder (rm : RoundManager.t) : Prop :=
  RoundManager.maxRounds rm = 3
  /\ RoundManager.autoPlayEnabled rm = true
  /\ 1 <= RoundManager.currentRound rm <= 4
  /\ NoDup (RoundManager.usedPlayer1Properties rm)
  /\ NoDup (RoundManager.usedPlayer2Properties rm)
  /\ Forall (fun p => GameConfig.isValidProperty p = true)
            (RoundManager.usedPlayer1Properties rm)
  /\ Forall (fun p => GameConfig.isValidProperty p = true)
            (RoundManager.usedPlayer2Properties rm)
  /\ (forall p, RoundManager.currentPlayer1Property rm = Some p ->
                In p (RoundManager.usedPlayer1Properties rm))
  /\ (forall p, RoundManager.currentPlayer2Property rm = Some p ->
                In p (RoundManager.usedPlayer2Properties rm))
  /\ Forall (fun r => consistent r /\ 1 <= round r <= RoundManager.currentRound rm)
            (RoundManager.roundResults rm).

(** The points the history credits to a side. *)
Definition historyPoints (playerNumber : Z) (history : list ScoreManager.ScoreChange) : Z :=
  fold_right Z.add 0
    (map ScoreManager.points
         (filter (fun e => ScoreManager.player e =? playerNumber) history)).

(** The score manager's books: the first two checks of its
    [validateState], and the history adding up to the scores. *)
Definition accounted (sm : ScoreManager.t) : Prop :=
  0 <= fst (ScoreManager.bonusPoints sm) <= ScoreManager.player1Score sm
  /\ 0 <= snd (ScoreManager.bonusPoints sm) <= ScoreManager.player2Score sm
  /\ ScoreManager.totalPoints (fst (ScoreManager.statistics sm))
     = ScoreManager.player1Score sm
  /\ ScoreManager.totalPoints (snd (ScoreManager.statistics sm))
     = ScoreManager.player2Score sm
  /\ historyPoints 1 (ScoreManager.scoreHistory sm) = ScoreManager.player1Score sm
  /\ historyPoints 2 (ScoreManager.scoreHistory sm) = ScoreManager.player2Score sm
  /\ Forall (fun e => 0 < ScoreManager.points e
                      /\ ScoreManager.newScore e
                         = ScoreManager.previousScore e + ScoreManager.points e
                      /\ (ScoreManager.player e = 1 \/ ScoreManager.player e = 2))
            (ScoreManager.scoreHistory sm).

(** The two sides' statistics mirror each other. *)
Definition mirrored (sm : ScoreManager.t) : Prop :=
  let s1 := fst (ScoreManager.statistics sm) in
  let s2 := snd (ScoreManager.statistics sm) in
  ScoreManager.roundsWon s1 = ScoreManager.roundsLost s2
  /\ ScoreManager.roundsLost s1 = ScoreManager.roundsWon s2
  /\ ScoreManager.roundsTied s1 = ScoreManager.roundsTied s2
  /\ ScoreManager.cardsWon s1 = ScoreManager.cardsLost s2
  /\ ScoreManager.cardsLost s1 = ScoreManager.cardsWon s2
  /\ ScoreManager.cardsTied s1 = ScoreManager.cardsTied s2
  /\ ScoreManager.cardsWon s1 + ScoreManager.cardsLost s1 + ScoreManager.cardsTied s1
     = len (ScoreManager.cardScores sm)
  /\ 0 <= ScoreManager.roundsWon s1 /\ 0 <= ScoreManager.roundsLost s1
  /\ 0 <= ScoreManager.roundsTied s1
  /\ 0 <= ScoreManager.currentStreak s1 <= ScoreManager.winStreak s1
  /\ 0 <= ScoreManager.currentStreak s2 <= ScoreManager.winStreak s2
  /\ ScoreManager.winStreak s1 <= ScoreManager.roundsWon s1
  /\ ScoreManager.winStreak s2 <= ScoreManager.roundsWon s2
  /\ (ScoreManager.currentStreak s1 = 0 \/ ScoreManager.currentStreak s2 = 0).

(** The statistics the books speak of. *)
Definition counters (s : ScoreManager.PlayerStats) : list Z :=
  [ ScoreManager.totalPoints s; ScoreManager.roundsWon s; ScoreManager.roundsLost s;
    ScoreManager.roundsTied s; ScoreManager.cardsWon s; ScoreManager.cardsLost s;
    ScoreManager.cardsTied s; ScoreManager.winStreak s; ScoreManager.currentStreak s ].

(** Both parts of the score manager's books. *)
Definition books (sm : ScoreManager.t) : Prop := accounted sm /\ mirrored sm.

(** The match's own fields. *)
Definition bothSelected (m : MatchManager.t) : Prop :=
  MatchManager.player1SelectedCard m <> None
  /\ MatchManager.player2SelectedCard m <> None.

Definition inRange (hand1 hand2 : list Card) (mode : string) (m : MatchManager.t)
  : Prop :=
  MatchManager.player1Cards m = hand1
  /\ MatchManager.player2Cards m = hand2
  /\ MatchManager.gameMode m = mode
  /\ MatchManager.maxCardGames m = 3
  /\ 1 <= MatchManager.currentCardGame m <= 3
  /\ (forall i, MatchManager.player1SelectedCard m = Some i ->
                MatchManager.currentCardGame m - 1 <= i < len hand1)
  /\ (forall i, MatchManager.player2SelectedCard m = Some i ->
                MatchManager.currentCardGame m - 1 <= i < len hand2)
  /\ (MatchManager.matchPhase m = PROPERTY_SELECTION
      \/ MatchManager.matchPhase m = ROUND_RESULT -> bothSelected m)
  /\ (MatchManager.matchPhase m = GAME_OVER -> MatchManager.matchResult m <> None)
  /\ MatchManager.matchPhase m <> AUTO_ROUND
  /\ MatchManager.matchPhase m <> WAITING
  /\ Forall (fun c => 1 <= MatchManager.cardGame c <= MatchManager.currentCardGame m
                      /\ Forall consistent (MatchManager.rounds c))
            (MatchManager.cardGameResults m).

(** All the books together. *)
Definition inOrder (hand1 hand2 : list Card) (mode : string) (m : MatchManager.t)
  : Prop :=
  inRange hand1 hand2 mode m
  /\ roundsInOrder (MatchManager.roundManager m)
  /\ books (MatchManager.scoreManager m).

(** A match in order with both cards on the table. *)
Definition inPlay (hand1 hand2 : list Card) (mode : string) (m : MatchManager.t)
  : Prop :=
  inOrder hand1 hand2 mode m /\ bothSelected m.

(** [returning P c]: from a state satisfying [P], [c] returns, and leaves
    a state satisfying [P]. *)
Definition returning {S A} (P : S -> Prop) (c : M S A) : Prop :=
  forall s, P s -> exists a s', c s = (Returned a, s') /\ P s'.

(** The two cards on the table, with the round manager's books in order. *)
Definition onTable (c1 c2 : Card) (m : MatchManager.t) : Prop :=
  MatchManager.cardAt (MatchManager.player1Cards m) (MatchManager.player1SelectedCard m)
  = Some c1
  /\ MatchManager.cardAt (MatchManager.player2Cards m) (MatchManager.player2SelectedCard m)
     = Some c2
  /\ roundsInOrder (MatchManager.roundManager m).

(** The four complaints of [MatchManager.selectProperty]. *)
Definition selectPropertyErrors : list string :=
  [ "Cannot select property during phase: "; "Invalid property: ";
    "Property not available for player"; "Invalid player number: " ].

(** What a call may do to the records of a match: scores only rise, and
    the history, the card scores and the card-game results only grow. *)
Definition scoresGrow (sm sm' : ScoreManager.t) : Prop :=
  ScoreManager.player1Score sm <= ScoreManager.player1Score sm'
  /\ ScoreManager.player2Score sm <= ScoreManager.player2Score sm'
  /\ fst (ScoreManager.bonusPoints sm) <= fst (ScoreManager.bonusPoints sm')
  /\ snd (ScoreManager.bonusPoints sm) <= snd (ScoreManager.bonusPoints sm')
  /\ extends (ScoreManager.scoreHistory sm) (ScoreManager.scoreHistory sm')
  /\ extends (ScoreManager.cardScores sm) (ScoreManager.cardScores sm').

Definition grows (m m' : MatchManager.t) : Prop :=
  scoresGrow (MatchManager.scoreManager m) (MatchManager.scoreManager m')
  /\ extends (MatchManager.cardGameResults m) (MatchManager.cardGameResults m')
  /\ MatchManager.currentCardGame m <= MatchManager.currentCardGame m'
  /\ MatchManager.player1Cards m' = MatchManager.player1Cards m
  /\ MatchManager.player2Cards m' = MatchManager.player2Cards m.

End Keeps.


(** ** What the AI's evaluation of a property is *)

(** The evaluation of [property] is [s], from every state of the
    generator. *)
Definition scored (R : AIStrategy.Runtime) (card : Card) (pool : list Card)
                  (used : list string) (difficulty : string)
                  (property : string) (s : AIStrategy.num R) : Prop :=
  forall g, AIStrategy.evaluateMove R card property pool used difficulty g
            = (Returned s, g).
(** * Properties *)


(** ** Scoring *)

Section Scoring.
Import Spec.

Lemma propertyOf_cases (s : string) (p : Property) :
  propertyOf s = Some p ->
  s = name p \/ GameRules.LEGACY_PROPERTY_MAP s = Some (name p).
Proof.
  unfold propertyOf, GameRules.normalizeProperty, GameRules.LEGACY_PROPERTY_MAP.
  destruct (String.eqb_spec s "rock") as [->|_]; [cbn; intros [= <-]; now right|].
  destruct (String.eqb_spec s "paper") as [->|_]; [cbn; intros [= <-]; now right|].
  destruct (String.eqb_spec s "scissors") as [->|_]; [cbn; intros [= <-]; now right|].
  destruct (String.eqb_spec s "deception") as [->|_]; [intros [= <-]; now left|].
  destruct (String.eqb_spec s "magic") as [->|_]; [intros [= <-]; now left|].
  destruct (String.eqb_spec s "attack") as [->|_]; [intros [= <-]; now left|].
  discriminate.
Qed.

Lemma legacy_cases (s t : string) :
  GameRules.LEGACY_PROPERTY_MAP s = Some t ->
  (s = "rock" /\ t = "deception") \/ (s = "paper" /\ t = "magic")
  \/ (s = "scissors" /\ t = "attack").
Proof.
  unfold GameRules.LEGACY_PROPERTY_MAP.
  destruct (String.eqb_spec s "rock") as [->|_]; [intros [= <-]; auto|].
  destruct (String.eqb_spec s "paper") as [->|_]; [intros [= <-]; auto|].
  destruct (String.eqb_spec s "scissors") as [->|_]; [intros [= <-]; auto|].
  discriminate.
Qed.

(** The six strings that name a property. *)
Lemma propertyOf_names (s : string) (p : Property) :
  propertyOf s = Some p ->
  In (s, p) [("deception", Deception); ("magic", Magic); ("attack", Attack);
             ("rock", Deception); ("paper", Magic); ("scissors", Attack)].
Proof.
  intros H. destruct (propertyOf_cases s p H) as [->|L].
  - destruct p; cbn; auto 7.
  - apply legacy_cases in L.
    destruct L as [[-> E]|[[-> E]|[-> E]]]; destruct p; cbn in E; try discriminate;
      cbn; auto 7.
Qed.

Lemma isValidProperty_propertyOf (s : string) :
  GameRules.isValidProperty s = true <-> exists p, propertyOf s = Some p.
Proof.
  unfold GameRules.isValidProperty, propertyOf, includes, GameRules.VALID_PROPERTIES.
  cbn [existsb]. set (n := GameRules.normalizeProperty s).
  destruct (n === "deception"); [split; eauto|].
  destruct (n === "magic"); [split; eauto|].
  destruct (n === "attack"); [split; eauto|].
  split; [discriminate | intros [p [=]]].
Qed.

Lemma isValidPropertyValue_range (v : Z) :
  GameRules.isValidPropertyValue v = true <-> 1 <= v <= 9.
Proof. unfold GameRules.isValidPropertyValue. lia. Qed.

(** The algorithm prescribes one result. *)
Lemma Score_functional (pA pB : Property) (vA vB : Z) (r r' : Z * Z) :
  Score pA vA pB vB r -> Score pA vA pB vB r' -> r = r'.
Proof.
  intros H H'.
  destruct H; destruct H'; try reflexivity; try congruence; try lia;
    try tauto; exfalso; try lia; tauto.
Qed.

End Scoring.

Section ScoringTheorems.
Import Spec.

Lemma consolePropertyOf_names (k : string) (p : Property) :
  consolePropertyOf k = Some p ->
  In (k, p) [("r", Deception); ("p", Magic); ("s", Attack)].
Proof.
  unfold consolePropertyOf, Console.legacyName.
  destruct (String.eqb_spec k "r") as [->|_]; [cbn; intros [= <-]; auto|].
  destruct (String.eqb_spec k "p") as [->|_]; [cbn; intros [= <-]; auto|].
  destruct (String.eqb_spec k "s") as [->|_]; [cbn; intros [= <-]; auto 4|].
  discriminate.
Qed.

Ltac score_rule :=
  solve [ apply step1_higher_A; [reflexivity|lia] ]
  || solve [ apply step1_higher_B; [reflexivity|lia] ]
  || solve [ apply step1_equal; [reflexivity|lia] ]
  || solve [ apply step2; [discriminate|reflexivity|lia] ]
  || solve [ apply step3; [ discriminate
                          | intros [D G]; (discriminate D || lia)
                          | reflexivity | lia ] ]
  || solve [ apply step4; [ discriminate
                          | intros [D G]; (discriminate D || lia)
                          | intros [D G]; (discriminate D || lia) ] ].

Ltac score_case :=
  repeat match goal with
         | |- context [?a >? ?b] => destruct (Z.gtb_spec a b)
         end;
  cbn [andb];
  (eexists; split; [reflexivity | score_rule]).

Lemma calculateRoundScore_Score (propA propB : string) (valA valB : Z)
                                (pA pB : Property) :
  propertyOf propA = Some pA -> propertyOf propB = Some pB ->
  1 <= valA <= 9 -> 1 <= valB <= 9 ->
  exists r, GameRules.calculateRoundScore propA valA propB valB = Returned r
            /\ Score pA valA pB valB r.
Proof.
  intros HA HB RA RB.
  unfold GameRules.calculateRoundScore.
  assert (VA : GameRules.isValidProperty propA = true)
    by (apply isValidProperty_propertyOf; eauto).
  assert (VB : GameRules.isValidProperty propB = true)
    by (apply isValidProperty_propertyOf; eauto).
  assert (WA : GameRules.isValidPropertyValue valA = true)
    by (apply isValidPropertyValue_range; exact RA).
  assert (WB : GameRules.isValidPropertyValue valB = true)
    by (apply isValidPropertyValue_range; exact RB).
  rewrite VA, VB, WA, WB. cbn [negb orb].
  apply propertyOf_names in HA. apply propertyOf_names in HB.
  cbn [In] in HA, HB.
  repeat match goal with
         | H : _ \/ _ |- _ => destruct H
         | H : (_, _) = (_, _) |- _ => injection H as <- <-
         | H : False |- _ => destruct H
         end;
    cbn -[Z.gtb Z.sub]; score_case.
Qed.

Lemma console_calculateRoundScore_Score (propA propB : string) (valA valB : Z)
                                        (pA pB : Property) :
  consolePropertyOf propA = Some pA -> consolePropertyOf propB = Some pB ->
  Score pA valA pB valB (Console.calculateRoundScore propA valA propB valB).
Proof.
  intros HA HB.
  apply consolePropertyOf_names in HA. apply consolePropertyOf_names in HB.
  cbn [In] in HA, HB.
  assert (G : exists r, Console.calculateRoundScore propA valA propB valB = r
                        /\ Score pA valA pB valB r).
  { unfold Console.calculateRoundScore.
    repeat match goal with
           | H : _ \/ _ |- _ => destruct H
           | H : (_, _) = (_, _) |- _ => injection H as <- <-
           | H : False |- _ => destruct H
           end;
      cbn -[Z.gtb Z.sub]; score_case. }
  destruct G as [r [-> S]]. exact S.
Qed.

(** C1.  For valid inputs (a string naming a property, legacy aliases
    included, and a value in 1..9 on each side) [calculateRoundScore]
    returns, and what it returns is exactly the pair the four-step
    algorithm prescribes for the two properties and values: the algorithm
    admits that pair and no other.  The console version of the function
    does the same on its keys r, p, s. *)
Theorem calculateRoundScore_follows_algorithm
  (propA propB : string) (valA valB : Z) (pA pB : Property) :
  propertyOf propA = Some pA -> propertyOf propB = Some pB ->
  1 <= valA <= 9 -> 1 <= valB <= 9 ->
  (exists r, GameRules.calculateRoundScore propA valA propB valB = Returned r
             /\ Score pA valA pB valB r
             /\ forall r', Score pA valA pB valB r' -> r' = r)
  /\ (forall kA kB, consolePropertyOf kA = Some pA -> consolePropertyOf kB = Some pB ->
        Score pA valA pB valB (Console.calculateRoundScore kA valA kB valB)
        /\ forall r', Score pA valA pB valB r' ->
                      r' = Console.calculateRoundScore kA valA kB valB).
Proof.
  intros HA HB RA RB. split.
  - destruct (calculateRoundScore_Score propA propB valA valB pA pB HA HB RA RB)
      as [r [E S]].
    exists r. split; [exact E|]. split; [exact S|].
    intros r' S'. exact (Score_functional _ _ _ _ _ _ S' S).
  - intros kA kB KA KB.
    pose proof (console_calculateRoundScore_Score kA kB valA valB pA pB KA KB) as S.
    split; [exact S|].
    intros r' S'. exact (Score_functional _ _ _ _ _ _ S' S).
Qed.

Lemma calculateRoundScore_follows_algorithm_witness :
  (exists r, GameRules.calculateRoundScore "rock" 9 "attack" 7 = Returned r
             /\ Score Deception 9 Attack 7 r
             /\ forall r', Score Deception 9 Attack 7 r' -> r' = r)
  /\ (forall kA kB, consolePropertyOf kA = Some Deception ->
                    consolePropertyOf kB = Some Attack ->
        Score Deception 9 Attack 7 (Console.calculateRoundScore kA 9 kB 7)
        /\ forall r', Score Deception 9 Attack 7 r' ->
                      r' = Console.calculateRoundScore kA 9 kB 7).
Proof.
  apply (calculateRoundScore_follows_algorithm "rock" "attack" 9 7 Deception Attack);
    [reflexivity | reflexivity | lia | lia].
Defined.

(** The range of a round's points, shared by the bound on a single round
    and by the accounting of a whole match. *)
Lemma calculateRoundScore_range (prop1 prop2 : string) (val1 val2 : Z) :
  GameRules.validateRoundInput prop1 val1 prop2 val2 = true ->
  exists a b, GameRules.calculateRoundScore prop1 val1 prop2 val2 = Returned (a, b)
              /\ 0 <= a <= 8 /\ 0 <= b <= 8 /\ (a = 0 \/ b = 0).
Proof.
  unfold GameRules.validateRoundInput. intros V.
  apply andb_prop in V. destruct V as [V W2].
  apply andb_prop in V. destruct V as [V W1].
  apply andb_prop in V. destruct V as [V1 V2].
  unfold GameRules.calculateRoundScore. rewrite V1, V2, W1, W2. cbn [negb orb].
  apply isValidPropertyValue_range in W1, W2. cbn.
  set (n1 := GameRules.normalizeProperty prop1).
  set (n2 := GameRules.normalizeProperty prop2).
  destruct (n1 === n2), (GameRules.beats n1 n2), (GameRules.beats n2 n1),
    (Z.gtb_spec val1 val2), (Z.gtb_spec val2 val1); cbn [andb];
    eexists; eexists; (split; [reflexivity|lia]).
Qed.

(** C10.  For valid inputs each component of the returned pair lies
    between 0 and 8, the configured minimum and maximum of a single round,
    and at least one component is 0. *)
Theorem calculateRoundScore_bounds (prop1 prop2 : string) (val1 val2 : Z) :
  GameRules.validateRoundInput prop1 val1 prop2 val2 = true ->
  exists a b, GameRules.calculateRoundScore prop1 val1 prop2 val2 = Returned (a, b)
              /\ GameConfig.MIN_SCORE GameConfig.SCORING <= a
                 <= GameConfig.MAX_SINGLE_ROUND_SCORE GameConfig.SCORING
              /\ GameConfig.MIN_SCORE GameConfig.SCORING <= b
                 <= GameConfig.MAX_SINGLE_ROUND_SCORE GameConfig.SCORING
              /\ 0 <= a <= 8 /\ 0 <= b <= 8
              /\ (a = 0 \/ b = 0).
Proof.
  intros V.
  destruct (calculateRoundScore_range prop1 prop2 val1 val2 V)
    as (a & b & E & A & B & Z0).
  exists a, b. cbn. repeat split; (exact E || exact Z0 || lia).
Qed.

Lemma calculateRoundScore_bounds_witness :
  exists a b, GameRules.calculateRoundScore "magic" 9 "paper" 1 = Returned (a, b)
              /\ GameConfig.MIN_SCORE GameConfig.SCORING <= a
                 <= GameConfig.MAX_SINGLE_ROUND_SCORE GameConfig.SCORING
              /\ GameConfig.MIN_SCORE GameConfig.SCORING <= b
                 <= GameConfig.MAX_SINGLE_ROUND_SCORE GameConfig.SCORING
              /\ 0 <= a <= 8 /\ 0 <= b <= 8
              /\ (a = 0 \/ b = 0).
Proof.
  apply (calculateRoundScore_bounds "magic" "paper" 9 1). reflexivity.
Defined.

End ScoringTheorems.

(** ** The dominance relation *)

Section Dominance.
Import Spec.


Ltac among_three q :=
  exists q; split; [cbn [In]; auto|];
  split; [discriminate|]; split; [reflexivity|];
  let q' := fresh "q'" in
  let Hq := fresh "Hq" in
  let B := fresh "B" in
  intros q' Hq B; cbn [In] in Hq;
  destruct Hq as [<-|[<-|[<-|[]]]]; (reflexivity || discriminate B).

Lemma GameRules_threeCycle : threeCycle GameRules.beats GameRules.VALID_PROPERTIES.
Proof.
  intros p Hp. unfold GameRules.VALID_PROPERTIES in *. cbn [In] in Hp.
  destruct Hp as [<-|[<-|[<-|[]]]]; (split; [reflexivity|split]).
  - among_three "attack".
  - among_three "magic".
  - among_three "deception".
  - among_three "attack".
  - among_three "magic".
  - among_three "deception".
Qed.

Lemma Console_threeCycle : threeCycle Console.beats ["r"; "p"; "s"].
Proof.
  intros p Hp. cbn [In] in Hp.
  destruct Hp as [<-|[<-|[<-|[]]]]; (split; [reflexivity|split]).
  - among_three "s".
  - among_three "p".
  - among_three "r".
  - among_three "s".
  - among_three "p".
  - among_three "r".
Qed.

Lemma legacy_threeCycle :
  threeCycle GameRules.doesPropertyBeat GameConfig.LEGACY_PROPERTIES.
Proof.
  intros p Hp. unfold GameConfig.LEGACY_PROPERTIES in *. cbn [In] in Hp.
  destruct Hp as [<-|[<-|[<-|[]]]]; (split; [reflexivity|split]).
  - among_three "scissors".
  - among_three "paper".
  - among_three "rock".
  - among_three "scissors".
  - among_three "paper".
  - among_three "rock".
Qed.

(** C3.  The table of the shared engine is a 3-cycle over deception, magic
    and attack: no property beats itself, each beats exactly one other and
    is beaten by exactly one other.  The same holds for the console table
    over r, p, s and for [doesPropertyBeat] over the legacy names; and on
    any two names that stand for properties, whichever module they come
    from, the tables agree on who beats whom. *)
Theorem dominance_is_a_consistent_three_cycle :
  threeCycle GameRules.beats GameRules.VALID_PROPERTIES
  /\ threeCycle Console.beats ["r"; "p"; "s"]
  /\ threeCycle GameRules.doesPropertyBeat GameConfig.LEGACY_PROPERTIES
  /\ (forall a b pa pb, propertyOf a = Some pa -> propertyOf b = Some pb ->
        GameRules.doesPropertyBeat a b = GameRules.beats (name pa) (name pb))
  /\ (forall a b pa pb, consolePropertyOf a = Some pa -> consolePropertyOf b = Some pb ->
        Console.beats a b = GameRules.beats (name pa) (name pb))
  /\ (forall pa pb, dominates pa pb <-> GameRules.beats (name pa) (name pb) = true).
Proof.
  split; [exact GameRules_threeCycle|].
  split; [exact Console_threeCycle|].
  split; [exact legacy_threeCycle|].
  split; [|split].
  - intros a b pa pb Ha Hb.
    apply propertyOf_names in Ha. apply propertyOf_names in Hb.
    cbn [In] in Ha, Hb.
    repeat match goal with
           | H : _ \/ _ |- _ => destruct H
           | H : (_, _) = (_, _) |- _ => injection H as <- <-
           | H : False |- _ => destruct H
           end; reflexivity.
  - intros a b pa pb Ha Hb.
    apply consolePropertyOf_names in Ha. apply consolePropertyOf_names in Hb.
    cbn [In] in Ha, Hb.
    repeat match goal with
           | H : _ \/ _ |- _ => destruct H
           | H : (_, _) = (_, _) |- _ => injection H as <- <-
           | H : False |- _ => destruct H
           end; reflexivity.
  - intros pa pb. unfold dominates.
    destruct pa, pb; cbn; split; (reflexivity || discriminate).
Qed.

End Dominance.

(** ** The card universe *)

Section CardUniverse.

Lemma wellFormed_spec (c : Card) :
  CardOps.wellFormed c = true <->
  deception c + magic c + attack c = 20
  /\ 1 <= deception c <= 9 /\ 1 <= magic c <= 9 /\ 1 <= attack c <= 9.
Proof. unfold CardOps.wellFormed, CardOps.isValidProperty. lia. Qed.

(** Whatever the constructor returns satisfies the invariant. *)
Lemma new_wellFormed (i d m a : Z) (c : Card) :
  CardOps.new i d m a = Returned c ->
  CardOps.wellFormed c = true
  /\ c = {| id := i; deception := d; magic := m; attack := a |}.
Proof.
  unfold CardOps.new, CardOps.wellFormed.
  destruct (d + m + a =? 20) eqn:S; cbn [negb]; [|discriminate].
  destruct (CardOps.isValidProperty d) eqn:E1, (CardOps.isValidProperty m) eqn:E2,
    (CardOps.isValidProperty a) eqn:E3; cbn [negb orb]; try discriminate.
  intros [= <-]. cbn [deception magic attack]. rewrite S, E1, E2, E3. auto.
Qed.

(** The constructor accepts exactly the well-formed triples. *)
Lemma new_of_wellFormed (c : Card) :
  CardOps.wellFormed c = true ->
  CardOps.new (id c) (deception c) (magic c) (attack c) = Returned c.
Proof.
  unfold CardOps.new, CardOps.wellFormed. intros W.
  apply andb_prop in W. destruct W as [W E3].
  apply andb_prop in W. destruct W as [W E2].
  apply andb_prop in W. destruct W as [S E1].
  rewrite S, E1, E2, E3. cbn. destruct c; reflexivity.
Qed.

(** The shared generator: 36 well-formed cards, numbered 0 to 35 in the
    order deception ascending, then magic ascending. *)
Lemma generateAllCards_universe :
  len CardGenerator.generateAllCards = 36
  /\ CardGenerator.getTotalCardCount = 36
  /\ map id CardGenerator.generateAllCards = CardGenerator.upto 0 35
  /\ forall c, In c CardGenerator.generateAllCards ->
       deception c + magic c + attack c = 20
       /\ 1 <= deception c <= 9 /\ 1 <= magic c <= 9 /\ 1 <= attack c <= 9.
Proof.
  split; [vm_compute; reflexivity|].
  split; [vm_compute; reflexivity|].
  split; [vm_compute; reflexivity|].
  intros c Hc. apply wellFormed_spec.
  assert (A : forallb CardOps.wellFormed CardGenerator.generateAllCards = true)
    by (vm_compute; reflexivity).
  rewrite forallb_forall in A. exact (A c Hc).
Qed.

(** C2.  The generator of the console version starts its outer loop at 2
    and ends it at 18, and its constructor checks only the sum: the call
    returns 81 cards, 45 of them with a first property above 9, among them
    the card 18/1/1, although the same file's configuration caps a
    property at 9 and the shared generator produces the 36 cards in
    range. *)
Theorem console_generator_leaves_range :
  exists cards,
    Console.generateAllPossibleCards = Returned cards
    /\ len cards = 81
    /\ len (filter (fun c => Console.rock c >? Console.PROPERTY_MAX_VALUE) cards) = 45
    /\ In {| Console.rock := 18; Console.paper := 1; Console.scissors := 1 |} cards
    /\ len CardGenerator.generateAllCards = 36.
Proof.
  eexists. split; [vm_compute; reflexivity|].
  split; [vm_compute; reflexivity|].
  split; [vm_compute; reflexivity|].
  split; [|vm_compute; reflexivity].
  cbn [In]. do 80 right. left. reflexivity.
Qed.

End CardUniverse.

(** ** The round state machine *)

Section Rounds.
Import GameConfig.

Lemma includes_In (l : list string) (s : string) :
  includes l s = true <-> In s l.
Proof.
  unfold includes. rewrite existsb_exists. split.
  - intros [x [Hx E]]. apply String.eqb_eq in E. now subst.
  - intros H. exists s. split; [exact H|apply String.eqb_refl].
Qed.

(** [selectProperty], branch by branch. *)
Lemma RoundManager_selectProperty_eq (playerNumber : Z) (property : string)
                                     (rm : RoundManager.t) :
  RoundManager.selectProperty playerNumber property rm =
  if negb (GameConfig.isValidProperty property) then
    (Thrown "Invalid property: ", rm)
  else if negb (RoundManager.isPropertyAvailable rm playerNumber property) then
    (Thrown "Property not available for player", rm)
  else if playerNumber =? 1 then (Returned true, RoundManager.commit1 property rm)
  else if playerNumber =? 2 then (Returned true, RoundManager.commit2 property rm)
  else (Thrown "Invalid player number: ", rm).
Proof.
  unfold RoundManager.selectProperty, bind, get.
  destruct (negb (GameConfig.isValidProperty property)); [reflexivity|].
  destruct (negb (RoundManager.isPropertyAvailable rm playerNumber property));
    [reflexivity|].
  destruct (playerNumber =? 1); [reflexivity|].
  destruct (playerNumber =? 2); reflexivity.
Qed.

(** A commit that fails leaves the round manager exactly as it was. *)
Lemma RoundManager_selectProperty_failure (playerNumber : Z) (property msg : string)
                                          (rm rm' : RoundManager.t) :
  RoundManager.selectProperty playerNumber property rm = (Thrown msg, rm') ->
  rm' = rm.
Proof.
  rewrite RoundManager_selectProperty_eq.
  repeat match goal with
         | |- context [if ?c then _ else _] => destruct c
         end; intros [=]; congruence.
Qed.

(** A name already on a side's used list cannot be committed again. *)
Lemma RoundManager_selectProperty_used (playerNumber : Z) (property : string)
                                       (rm : RoundManager.t) :
  In property (RoundManager.usedProperties rm playerNumber) ->
  exists msg, RoundManager.selectProperty playerNumber property rm = (Thrown msg, rm).
Proof.
  intros U. rewrite RoundManager_selectProperty_eq.
  destruct (negb (GameConfig.isValidProperty property)); [eauto|].
  unfold RoundManager.isPropertyAvailable.
  apply includes_In in U. rewrite U. cbn. eauto.
Qed.

(** A successful commit appends the committed name, a name that was not
    on the list, to the committing side's list and touches nothing but
    that list and the side's current selection. *)
Lemma RoundManager_selectProperty_success (playerNumber : Z) (property : string)
                                          (b : bool) (rm rm' : RoundManager.t) :
  RoundManager.selectProperty playerNumber property rm = (Returned b, rm') ->
  b = true
  /\ GameConfig.isValidProperty property = true
  /\ ~ In property (RoundManager.usedProperties rm playerNumber)
  /\ ((playerNumber = 1 /\ rm' = RoundManager.commit1 property rm)
      \/ (playerNumber = 2 /\ rm' = RoundManager.commit2 property rm)).
Proof.
  rewrite RoundManager_selectProperty_eq.
  destruct (GameConfig.isValidProperty property); cbn [negb]; [|discriminate].
  destruct (RoundManager.isPropertyAvailable rm playerNumber property) eqn:A;
    cbn [negb]; [|discriminate].
  assert (N : ~ In property (RoundManager.usedProperties rm playerNumber)).
  { intros U. apply includes_In in U. unfold RoundManager.isPropertyAvailable in A.
    rewrite U in A. discriminate. }
  destruct (Z.eqb_spec playerNumber 1); [intros [= <- <-]; auto 8|].
  destruct (Z.eqb_spec playerNumber 2); [intros [= <- <-]; auto 9|].
  discriminate.
Qed.

(** C4.  After player 1 has committed "deception", committing the same
    name again is refused and changes nothing, but committing its legacy
    alias "rock" succeeds: both names stand for the same property and read
    the same value from any card, so the side has committed one property
    twice in one card-game. *)
Theorem legacy_alias_recommits_a_property :
  let rm1 := snd (RoundManager.selectProperty 1 "deception" RoundManager.new) in
  RoundManager.selectProperty 1 "deception" rm1
    = (Thrown "Property not available for player", rm1)
  /\ RoundManager.selectProperty 1 "rock" rm1
     = (Returned true, RoundManager.commit1 "rock" rm1)
  /\ RoundManager.usedPlayer1Properties (RoundManager.commit1 "rock" rm1)
     = ["deception"; "rock"]
  /\ Spec.propertyOf "rock" = Spec.propertyOf "deception"
  /\ (forall c, CardOps.getProperty c "rock" = CardOps.getProperty c "deception")
  /\ RoundManager.getAvailableProperties (RoundManager.commit1 "rock" rm1) 1
     = ["magic"; "attack"].
Proof.
  cbv zeta. repeat split.
Qed.

End Rounds.


(** ** Worked matches *)


Section WorkedMatches.
Import GameConfig Engine Example Scenarios.

Lemma fresh_is_new : MatchManager.new hand1 hand2 "demo" = Returned fresh.
Proof. reflexivity. Qed.

Lemma fresh_reachable (calls : list Call) : reachable SCORING (run SCORING calls fresh).
Proof.
  exists hand1, hand2, "demo", fresh, calls.
  split; [repeat constructor|]. split; reflexivity.
Qed.

(** C5.  The first card-game is played with index 2 of each hand.  In the
    second card-game [selectCard] accepts index 2 for player 1 again,
    although that card has been played, and rejects index 0 as already
    used, although it has never been played: availability is decided by
    comparing the index with the number of finished card-games, not by
    what was played. *)
Theorem played_card_is_accepted_again :
  let m := run SCORING lastCardFirst fresh in
  MatchManager.matchPhase m = CARD_SELECTION
  /\ MatchManager.currentCardGame m = 2
  /\ map MatchManager.player1Card (MatchManager.cardGameResults m) = [Some 2]
  /\ (exists r m', MatchManager.selectCard 1 2 m = (Returned r, m')
                   /\ MatchManager.player1SelectedCard m' = Some 2)
  /\ MatchManager.selectCard 1 0 m
     = (Thrown "Card already used in previous card game", m)
  /\ MatchManager.cardUsed m 2 = false /\ MatchManager.cardUsed m 0 = true.
Proof.
  cbv zeta. split; [vm_compute; reflexivity|]. split; [vm_compute; reflexivity|].
  split; [vm_compute; reflexivity|]. split.
  - eexists. eexists. split; vm_compute; reflexivity.
  - split; [vm_compute; reflexivity|]. split; vm_compute; reflexivity.
Qed.

(** C6.  After both sides have explicitly committed their third property
    the third round is resolved and recorded, yet the round counter still
    reads 3, [areAllRoundsComplete] is false, the match stays in the
    round-result phase and no card-game result is recorded.  The next
    [advanceToNextRound] then opens a fourth round of property selection
    in which neither side has a property left. *)
Theorem third_round_leaves_card_game_open :
  let m := run SCORING threeExplicitRounds fresh in
  map round (RoundManager.roundResults (MatchManager.roundManager m)) = [1; 2; 3]
  /\ RoundManager.currentRound (MatchManager.roundManager m) = 3
  /\ RoundManager.areAllRoundsComplete (MatchManager.roundManager m) = false
  /\ MatchManager.matchPhase m = ROUND_RESULT
  /\ MatchManager.cardGameResults m = []
  /\ let m' := run SCORING [AdvanceToNextRound] m in
     MatchManager.matchPhase m' = PROPERTY_SELECTION
     /\ RoundManager.currentRound (MatchManager.roundManager m') = 4
     /\ RoundManager.getAvailableProperties (MatchManager.roundManager m') 1 = []
     /\ RoundManager.getAvailableProperties (MatchManager.roundManager m') 2 = []
     /\ MatchManager.cardGameResults m' = [].
Proof.
  cbv zeta. repeat split; vm_compute; reflexivity.
Qed.

(** C8.  A match whose first round has just been resolved is exported and
    the tree imported into a new match built from the same hands: the
    import throws, because the round manager's validation expects one
    recorded result fewer than the round counter, and the importing match
    is left with the exporter's round manager but its own empty score
    manager. *)
Theorem export_after_a_round_is_refused :
  let m := run SCORING oneRound fresh in
  reachable SCORING m
  /\ MatchManager.matchPhase m = ROUND_RESULT
  /\ RoundManager.validateState (MatchManager.roundManager m) = false
  /\ fst (MatchManager.importState (MatchManager.exportState m) fresh)
     = Thrown "Invalid round manager state imported"
  /\ ScoreManager.getScores (MatchManager.scoreManager m) = (2, 0)
  /\ ScoreManager.getScores
       (MatchManager.scoreManager
          (snd (MatchManager.importState (MatchManager.exportState m) fresh))) = (0, 0).
Proof.
  cbv zeta. split; [apply fresh_reachable|].
  repeat split; vm_compute; reflexivity.
Qed.

End WorkedMatches.

(** ** The AI's choice of a property *)

Section AIChoice.
Import AIStrategy.
Variable R : Runtime.


Lemma generatorFree_ret {A} (a : A) : generatorFree R (ret a).
Proof. exists (Returned a). reflexivity. Qed.

Lemma generatorFree_lift {A} (o : outcome A) : generatorFree R (lift o).
Proof. exists o. reflexivity. Qed.

Lemma generatorFree_throw {A} (msg : string) : generatorFree R (@throw (rng R) A msg).
Proof. exists (Thrown msg). reflexivity. Qed.

Lemma generatorFree_bind {A B} (c : M (rng R) A) (k : A -> M (rng R) B) :
generatorFree R c -> (forall a, generatorFree R (k a)) -> generatorFree R (bind c k).
Proof.
intros [o Ho] Hk. destruct o as [a|msg].
- destruct (Hk a) as [o' Ho']. exists o'. intros g. unfold bind. rewrite Ho. apply Ho'.
- exists (Thrown msg). intros g. unfold bind. rewrite Ho. reflexivity.
Qed.

(** Off the two noisy levels the modifier makes no draw. *)
Lemma applyDifficultyModifier_generatorFree (baseScore : num R) (difficulty : string)
                                            (card : Card) (property : string) :
difficulty <> GameConfig.EASY -> difficulty <> GameConfig.NORMAL ->
generatorFree R (applyDifficultyModifier R baseScore difficulty card property).
Proof.
intros NE NN. unfold applyDifficultyModifier.
destruct (String.eqb_spec difficulty GameConfig.EASY); [contradiction|].
destruct (String.eqb_spec difficulty GameConfig.NORMAL); [contradiction|].
destruct (difficulty === GameConfig.HARD).
- apply generatorFree_bind; [apply generatorFree_lift|].
  intros a. apply generatorFree_ret.
- destruct (difficulty === GameConfig.EXPERT).
  + apply generatorFree_bind; [apply generatorFree_lift|]. intros a.
    apply generatorFree_bind; [apply generatorFree_lift|]. intros b.
    apply generatorFree_ret.
  + apply generatorFree_ret.
Qed.

Lemma evaluateMove_generatorFree (card : Card) (property : string) (pool : list Card)
                                 (used : list string) (difficulty : string) :
difficulty <> GameConfig.EASY -> difficulty <> GameConfig.NORMAL ->
generatorFree R (evaluateMove R card property pool used difficulty).
Proof.
intros NE NN. unfold evaluateMove.
apply generatorFree_bind; [apply generatorFree_lift|].
intros a. now apply applyDifficultyModifier_generatorFree.
Qed.

Lemma chooseLoop_generatorFree (card : Card) (pool : list Card) (used : list string)
                               (difficulty : string) (candidates : list string)
                               (best : string * option (num R)) :
difficulty <> GameConfig.EASY -> difficulty <> GameConfig.NORMAL ->
generatorFree R (chooseLoop R card pool used difficulty candidates best).
Proof.
intros NE NN. revert best.
induction candidates as [|property rest IH]; intros best; cbn [chooseLoop].
- apply generatorFree_ret.
- apply generatorFree_bind; [now apply evaluateMove_generatorFree|].
  intros score. apply IH.
Qed.

Lemma chooseBestProperty_generatorFree (card : Card) (available : list string)
                                       (pool : list Card) (used : list string)
                                       (difficulty : string) :
difficulty <> GameConfig.EASY -> difficulty <> GameConfig.NORMAL ->
generatorFree R (chooseBestProperty R card available pool used difficulty).
Proof.
intros NE NN. unfold chooseBestProperty.
destruct available as [|first [|second rest]].
- apply generatorFree_throw.
- apply generatorFree_ret.
- now apply chooseLoop_generatorFree.
Qed.

(** The average net score is computed without the generator at every
    level: it is the value [baseScore] returns. *)
Lemma evaluateMove_base (card : Card) (property : string) (pool : list Card)
                        (used : list string) (difficulty : string) (g : rng R) :
evaluateMove R card property pool used difficulty g =
match baseScore R card property pool used with
| Returned avgScore => applyDifficultyModifier R avgScore difficulty card property g
| Thrown msg => (Thrown msg, g)
end.
Proof.
unfold evaluateMove, bind, lift.
destruct (baseScore R card property pool used); reflexivity.
Qed.

End AIChoice.

(** C9.  At a difficulty other than easy and normal, the two levels whose
    modifier adds random noise, [chooseBestProperty] called twice with the
    same card, available properties, opponent pool and opponent used
    properties gives the same result (the same property, or the same error),
    whatever the state of the random generator at each call and however the
    arithmetic on scores rounds; it leaves the generator untouched. *)
Theorem chooseBestProperty_is_deterministic
  (R : AIStrategy.Runtime) (card : Card) (availableProperties : list string)
  (allPossibleOpponentCards : list Card) (usedOpponentProperties : list string)
  (difficulty : string) (g1 g2 : AIStrategy.rng R) :
  difficulty <> GameConfig.EASY -> difficulty <> GameConfig.NORMAL ->
  fst (AIStrategy.chooseBestProperty R card availableProperties
         allPossibleOpponentCards usedOpponentProperties difficulty g1)
  = fst (AIStrategy.chooseBestProperty R card availableProperties
           allPossibleOpponentCards usedOpponentProperties difficulty g2)
  /\ snd (AIStrategy.chooseBestProperty R card availableProperties
            allPossibleOpponentCards usedOpponentProperties difficulty g1) = g1.
Proof.
intros NE NN.
destruct (chooseBestProperty_generatorFree R card availableProperties
            allPossibleOpponentCards usedOpponentProperties difficulty NE NN)
  as [o Ho].
rewrite (Ho g1), (Ho g2). split; reflexivity.
Qed.

Lemma chooseBestProperty_is_deterministic_witness :
  fst (AIStrategy.chooseBestProperty AIStrategy.exact
         {| id := 21; deception := 6; magic := 7; attack := 7 |}
         GameConfig.getAllProperties CardGenerator.generateAllCards [] "hard" [])
  = fst (AIStrategy.chooseBestProperty AIStrategy.exact
           {| id := 21; deception := 6; magic := 7; attack := 7 |}
           GameConfig.getAllProperties CardGenerator.generateAllCards [] "hard"
           [(9 # 10)%Q; 0%Q])
  /\ snd (AIStrategy.chooseBestProperty AIStrategy.exact
            {| id := 21; deception := 6; magic := 7; attack := 7 |}
            GameConfig.getAllProperties CardGenerator.generateAllCards [] "hard" [])
     = [].
Proof.
apply (chooseBestProperty_is_deterministic AIStrategy.exact
         {| id := 21; deception := 6; magic := 7; attack := 7 |}
         GameConfig.getAllProperties CardGenerator.generateAllCards [] "hard"
         [] [(9 # 10)%Q; 0%Q]); discriminate.
Defined.

(** At the easy level the draws decide: the same arguments with two
    generator states give two different properties. *)
Example easy_choice_follows_the_generator :
  fst (AIStrategy.chooseBestProperty AIStrategy.exact
         {| id := 21; deception := 6; magic := 7; attack := 7 |}
         GameConfig.getAllProperties CardGenerator.generateAllCards [] "easy"
         [0%Q; 0%Q; (9 # 10)%Q]) = Returned "attack"
  /\ fst (AIStrategy.chooseBestProperty AIStrategy.exact
            {| id := 21; deception := 6; magic := 7; attack := 7 |}
            GameConfig.getAllProperties CardGenerator.generateAllCards [] "easy"
            [(9 # 10)%Q; 0%Q; 0%Q]) = Returned "deception".
Proof. split; vm_compute; reflexivity. Qed.


(** ** How the score manager's operations move the scores *)


Section ScoreEffects.
Import ScoreFacts.

Lemma effect_ret (keep : Prop) : effect (ret tt) 0 0 keep.
Proof. intros sm. exists sm. repeat split; lia. Qed.

Lemma effect_bind (c c' : M ScoreManager.t unit) (d1 d2 e1 e2 : Z) (keep : Prop) :
  effect c d1 d2 keep -> effect c' e1 e2 keep ->
  effect (bind c (fun _ => c')) (d1 + e1) (d2 + e2) keep.
Proof.
intros H H' sm.
destruct (H sm) as (sm1 & E1 & R1 & R2 & K1).
destruct (H' sm1) as (sm2 & E2 & S1 & S2 & K2).
exists sm2. unfold bind. rewrite E1, E2.
repeat split; try lia. intros k. rewrite (K2 k). exact (K1 k).
Qed.

Lemma effect_get (k : ScoreManager.t -> M ScoreManager.t unit) (d1 d2 : Z)
                 (keep : Prop) :
  (forall s, effect (k s) d1 d2 keep) -> effect (bind get k) d1 d2 keep.
Proof. intros H sm. unfold bind, get. apply H. Qed.

Lemma effect_when (b : bool) (c : M ScoreManager.t unit) (keep : Prop) :
  effect c 0 0 keep -> effect (when b c) 0 0 keep.
Proof. intros H. destruct b; [exact H|apply effect_ret]. Qed.

Lemma effect_weaken (c : M ScoreManager.t unit) (d1 d2 : Z) (keep keep' : Prop) :
  (keep' -> keep) -> effect c d1 d2 keep -> effect c d1 d2 keep'.
Proof.
intros W H sm. destruct (H sm) as (sm' & E & R1 & R2 & K).
exists sm'. repeat split; auto.
Qed.

Lemma effect_eq (c : M ScoreManager.t unit) (d1 d2 e1 e2 : Z) (keep : Prop) :
  d1 = e1 -> d2 = e2 -> effect c d1 d2 keep -> effect c e1 e2 keep.
Proof. intros -> ->. exact (fun H => H). Qed.

(** An update that touches neither the scores nor the bonus counters. *)
Lemma effect_modify (f : ScoreManager.t -> ScoreManager.t) (keep : Prop) :
  (forall sm, ScoreManager.player1Score (f sm) = ScoreManager.player1Score sm
              /\ ScoreManager.player2Score (f sm) = ScoreManager.player2Score sm
              /\ ScoreManager.bonusPoints (f sm) = ScoreManager.bonusPoints sm) ->
  effect (modify f) 0 0 keep.
Proof.
intros H sm. exists (f sm). destruct (H sm) as (A & B & C).
unfold raw1, raw2. rewrite A, B, C. repeat split; lia.
Qed.

Ltac stats_only :=
  intros ?sm; repeat split; reflexivity.

Lemma addPoints_effect1 (points : Z) (source : string) (keep : Prop) :
  0 <= points -> effect (ScoreManager.addPoints 1 points source) points 0 keep.
Proof.
intros P sm. unfold ScoreManager.addPoints.
destruct (Z.ltb_spec points 0); [lia|].
eexists. split; [reflexivity|]. unfold raw1, raw2. cbn. repeat split; lia.
Qed.

Lemma addPoints_effect2 (points : Z) (source : string) (keep : Prop) :
  0 <= points -> effect (ScoreManager.addPoints 2 points source) 0 points keep.
Proof.
intros P sm. unfold ScoreManager.addPoints.
destruct (Z.ltb_spec points 0); [lia|].
eexists. split; [reflexivity|]. unfold raw1, raw2. cbn. repeat split; lia.
Qed.

(** Bonus points raise the score and the bonus counter together. *)
Lemma addBonusPoints_effect1 (points : Z) (bonusType : string) :
  effect (ScoreManager.addBonusPoints 1 points bonusType) 0 0 (points <= 0).
Proof.
intros sm. unfold ScoreManager.addBonusPoints, when.
destruct (Z.gtb_spec points 0) as [G|G].
- unfold ScoreManager.addPoints. destruct (Z.ltb_spec points 0); [lia|].
  eexists. split; [reflexivity|]. unfold raw1, raw2. cbn. repeat split; lia.
- exists sm. repeat split; lia.
Qed.

Lemma addBonusPoints_effect2 (points : Z) (bonusType : string) :
  effect (ScoreManager.addBonusPoints 2 points bonusType) 0 0 (points <= 0).
Proof.
intros sm. unfold ScoreManager.addBonusPoints, when.
destruct (Z.gtb_spec points 0) as [G|G].
- unfold ScoreManager.addPoints. destruct (Z.ltb_spec points 0); [lia|].
  eexists. split; [reflexivity|]. unfold raw1, raw2. cbn. repeat split; lia.
- exists sm. repeat split; lia.
Qed.

Lemma updateRoundStatistics_effect (roundResult : RoundResult) (cardGame round : Z)
                                   (keep : Prop) :
  effect (ScoreManager.updateRoundStatistics roundResult cardGame round) 0 0 keep.
Proof.
intros sm. unfold ScoreManager.updateRoundStatistics.
destruct (winner roundResult);
  (eexists; split; [reflexivity|]; unfold raw1, raw2; cbn; repeat split; lia).
Qed.

Lemma checkForBonuses_effect (config : GameConfig.Scoring) (roundResult : RoundResult)
                             (cardGame round : Z) :
  effect (ScoreManager.checkForBonuses config roundResult cardGame round) 0 0
         (GameConfig.WIN_BONUS config <= 0).
Proof.
unfold ScoreManager.checkForBonuses.
apply (effect_bind _ _ 0 0 0 0); [apply effect_when, addBonusPoints_effect1|].
apply (effect_bind _ _ 0 0 0 0); [apply effect_when, addBonusPoints_effect2|].
apply effect_get. intros s.
apply (effect_bind _ _ 0 0 0 0); [apply effect_when, addBonusPoints_effect1|].
apply effect_get. intros s'.
apply effect_when, addBonusPoints_effect2.
Qed.

Lemma processRoundResult_effect (config : GameConfig.Scoring) (roundResult : RoundResult)
                                (cardGame round : Z) :
  0 <= player1Points roundResult -> 0 <= player2Points roundResult ->
  effect (ScoreManager.processRoundResult config roundResult cardGame round)
         (player1Points roundResult) (player2Points roundResult)
         (GameConfig.WIN_BONUS config <= 0).
Proof.
intros P1 P2. unfold ScoreManager.processRoundResult.
assert (O1 : orZ (player1Points roundResult) 0 = player1Points roundResult)
  by (unfold orZ; destruct (Z.eqb_spec (player1Points roundResult) 0); lia).
assert (O2 : orZ (player2Points roundResult) 0 = player2Points roundResult)
  by (unfold orZ; destruct (Z.eqb_spec (player2Points roundResult) 0); lia).
rewrite O1, O2.
apply (effect_eq _ (player1Points roundResult + (0 + (0 + 0)))
                   (0 + (player2Points roundResult + (0 + 0)))); [lia|lia|].
apply effect_bind.
{ unfold when. destruct (Z.gtb_spec (player1Points roundResult) 0).
  - now apply addPoints_effect1.
  - apply (effect_eq _ 0 0); [lia|lia|apply effect_ret]. }
apply effect_bind.
{ unfold when. destruct (Z.gtb_spec (player2Points roundResult) 0).
  - now apply addPoints_effect2.
  - apply (effect_eq _ 0 0); [lia|lia|apply effect_ret]. }
apply effect_bind; [apply updateRoundStatistics_effect|].
apply checkForBonuses_effect.
Qed.

Lemma completeCardGame_effect (config : GameConfig.Scoring)
                              (roundResults : list RoundResult) (cardGame : Z) :
  effect (ScoreManager.completeCardGame config roundResults cardGame) 0 0
         (GameConfig.COMEBACK_BONUS config <= 0).
Proof.
unfold ScoreManager.completeCardGame. cbv zeta.
apply (effect_bind _ _ 0 0 0 0); [apply effect_modify; stats_only|].
apply (effect_bind _ _ 0 0 0 0).
{ cbn [ScoreManager.cardWinner].
  destruct (_ >? _); [apply effect_modify; stats_only|].
  destruct (_ >? _); apply effect_modify; stats_only. }
unfold ScoreManager.checkForComebacks. apply effect_get. intros s.
cbn [ScoreManager.cardWinner].
destruct (_ >? _).
{ apply effect_when. apply (effect_bind _ _ 0 0 0 0);
    [apply effect_modify; stats_only|apply addBonusPoints_effect1]. }
destruct (_ >? _).
{ apply effect_when. apply (effect_bind _ _ 0 0 0 0);
    [apply effect_modify; stats_only|apply addBonusPoints_effect2]. }
apply effect_ret.
Qed.

End ScoreEffects.

(** ** The match coordinator, call by call *)

Section MatchSteps.
Import GameConfig ScoreFacts Driven.
Variable config : Scoring.

Lemma Phase_eqb_eq (a b : Phase) : Phase_eqb a b = true <-> a = b.
Proof. destruct a, b; cbn; split; (reflexivity || discriminate). Qed.

Lemma bind_returned {S A B} (c : M S A) (k : A -> M S B) (s s' : S) (a : A) :
  c s = (Returned a, s') -> bind c k s = k a s'.
Proof. intros E. unfold bind. rewrite E. reflexivity. Qed.

Lemma bind_thrown {S A B} (c : M S A) (k : A -> M S B) (s s' : S) (msg : string) :
  c s = (Thrown msg, s') -> bind c k s = (Thrown msg, s').
Proof. intros E. unfold bind. rewrite E. reflexivity. Qed.

Lemma selectCard_eq (playerNumber cardIndex : Z) (m : MatchManager.t) :
  MatchManager.selectCard playerNumber cardIndex m =
  if negb (Phase_eqb (MatchManager.matchPhase m) CARD_SELECTION) then
    (Thrown "Cannot select card during phase: ", m)
  else if (cardIndex <? 0)
          || (cardIndex >=? len (if playerNumber =? 1 then MatchManager.player1Cards m
                                 else MatchManager.player2Cards m)) then
    (Thrown "Invalid card index: ", m)
  else if cardIndex <? MatchManager.currentCardGame m - 1 then
    (Thrown "Card already used in previous card game", m)
  else
    let m1 := if playerNumber =? 1
              then MatchManager.setPlayer1SelectedCard (Some cardIndex) m
              else MatchManager.setPlayer2SelectedCard (Some cardIndex) m in
    let m2 := if MatchManager.canProceedToPropertySelection m1
              then snd (MatchManager.startPropertySelection m1)
              else m1 in
    (Returned {| MatchManager.selectedCard := cardIndex;
                 MatchManager.readyToProceed :=
                   MatchManager.canProceedToPropertySelection m2;
                 MatchManager.nextPhase := MatchManager.matchPhase m2 |}, m2).
Proof.
unfold MatchManager.selectCard, bind, get.
destruct (negb _); [reflexivity|].
destruct (_ || _); [reflexivity|].
destruct (_ <? _); [reflexivity|].
destruct (playerNumber =? 1); cbn [modify];
  destruct (MatchManager.canProceedToPropertySelection _); reflexivity.
Qed.

(** [selectCard] succeeds exactly in the card-selection phase, on an index
    of the hand that is not below the number of finished card-games. *)
Lemma selectCard_succeeds_iff (playerNumber cardIndex : Z) (m : MatchManager.t) :
  (exists r m', MatchManager.selectCard playerNumber cardIndex m = (Returned r, m'))
  <-> MatchManager.matchPhase m = CARD_SELECTION
      /\ 0 <= cardIndex < len (if playerNumber =? 1 then MatchManager.player1Cards m
                                else MatchManager.player2Cards m)
      /\ MatchManager.currentCardGame m - 1 <= cardIndex.
Proof.
rewrite selectCard_eq.
destruct (Phase_eqb (MatchManager.matchPhase m) CARD_SELECTION) eqn:P; cbn [negb].
2:{ split; [intros (r & m' & E); discriminate E|].
    intros [Q _]. rewrite Q in P. discriminate P. }
apply Phase_eqb_eq in P.
destruct (Z.ltb_spec cardIndex 0); cbn [orb];
  [split; [intros (r & m' & E); discriminate E | lia]|].
destruct (Z.geb_spec cardIndex (len (if playerNumber =? 1
                                     then MatchManager.player1Cards m
                                     else MatchManager.player2Cards m)));
  [split; [intros (r & m' & E); discriminate E | lia]|].
destruct (Z.ltb_spec cardIndex (MatchManager.currentCardGame m - 1));
  [split; [intros (r & m' & E); discriminate E | lia]|].
split; [intros _; repeat split; (assumption || lia) | intros _; eauto].
Qed.

Lemma MatchManager_selectProperty_waiting
  (playerNumber : Z) (property : string) (m : MatchManager.t) (rm' : RoundManager.t) :
  MatchManager.matchPhase m = PROPERTY_SELECTION ->
  RoundManager.selectProperty playerNumber property (MatchManager.roundManager m)
    = (Returned true, rm') ->
  RoundManager.isRoundReadyForCalculation rm' = false ->
  exists r, MatchManager.selectProperty config playerNumber property m
            = (Returned r, MatchManager.setRoundManager rm' m).
Proof.
intros P E N. unfold MatchManager.selectProperty, bind, get.
rewrite P. cbn [Phase_eqb negb].
unfold MatchManager.onRounds, zoom. rewrite E.
cbn [MatchManager.roundManager MatchManager.setRoundManager]. rewrite N.
cbn [andb]. eexists. reflexivity.
Qed.

Lemma calculateRound_eq
  (m : MatchManager.t) (prop1 prop2 : string) (c1 c2 : Card) (v1 v2 : Z) (pts : Z * Z) :
  let rm := MatchManager.roundManager m in
  RoundManager.currentPlayer1Property rm = Some prop1 ->
  RoundManager.currentPlayer2Property rm = Some prop2 ->
  MatchManager.cardAt (MatchManager.player1Cards m) (MatchManager.player1SelectedCard m)
    = Some c1 ->
  MatchManager.cardAt (MatchManager.player2Cards m) (MatchManager.player2SelectedCard m)
    = Some c2 ->
  CardOps.getProperty c1 prop1 = Returned v1 ->
  CardOps.getProperty c2 prop2 = Returned v2 ->
  GameRules.calculateRoundScore prop1 v1 prop2 v2 = Returned pts ->
  0 <= fst pts -> 0 <= snd pts ->
  RoundManager.areAllRoundsComplete rm = false ->
  RoundManager.shouldAutoPlayRound rm = false ->
  let rr := {| round := RoundManager.currentRound rm;
               player1Property := prop1; player1Value := v1; player1Points := fst pts;
               player2Property := prop2; player2Value := v2; player2Points := snd pts;
               winner := RoundManager.determineRoundWinner (fst pts) (snd pts) |} in
  exists sm',
    MatchManager.calculateRound config m
    = (Returned rr,
       MatchManager.setMatchPhase ROUND_RESULT
         (MatchManager.setScoreManager sm'
            (MatchManager.setRoundManager (RoundManager.record rr rm) m)))
    /\ raw1 sm' = raw1 (MatchManager.scoreManager m) + fst pts
    /\ raw2 sm' = raw2 (MatchManager.scoreManager m) + snd pts
    /\ (WIN_BONUS config <= 0 ->
        ScoreManager.bonusPoints sm'
        = ScoreManager.bonusPoints (MatchManager.scoreManager m)).
Proof.
intros rm P1 P2 C1 C2 V1 V2 S G1 G2 A Auto rr.
destruct (processRoundResult_effect config rr (MatchManager.currentCardGame m)
            (RoundManager.currentRound rm) G1 G2 (MatchManager.scoreManager m))
  as (sm' & E & R1 & R2 & K).
exists sm'. split; [|auto].
unfold MatchManager.calculateRound, bind, get.
unfold MatchManager.onRounds, MatchManager.onScores, zoom.
unfold RoundManager.calculateRoundResult, bind, get, lift.
fold rm. rewrite P1, P2, C1, C2. cbn [RoundManager.cardProperty].
rewrite V1, V2, S.
unfold modify, ret.
cbn -[ScoreManager.processRoundResult RoundManager.areAllRoundsComplete
      RoundManager.shouldAutoPlayRound RoundManager.record].
change (ScoreManager.processRoundResult config _ _ _ _)
  with (ScoreManager.processRoundResult config rr (MatchManager.currentCardGame m)
          (RoundManager.currentRound rm) (MatchManager.scoreManager m)).
rewrite E.
cbn -[RoundManager.areAllRoundsComplete RoundManager.shouldAutoPlayRound
      RoundManager.record].
change (RoundManager.areAllRoundsComplete (RoundManager.record _ rm))
  with (RoundManager.areAllRoundsComplete rm).
rewrite A.
change (RoundManager.shouldAutoPlayRound (RoundManager.record _ rm))
  with (RoundManager.shouldAutoPlayRound rm).
rewrite Auto. reflexivity.
Qed.

(** [selectProperty] by the side that completes the pair: the round is
    resolved at once. *)
Lemma MatchManager_selectProperty_resolving
  (playerNumber : Z) (property : string) (m : MatchManager.t) (rm' : RoundManager.t)
  (prop1 prop2 : string) (c1 c2 : Card) (v1 v2 : Z) (pts : Z * Z) :
  MatchManager.matchPhase m = PROPERTY_SELECTION ->
  RoundManager.selectProperty playerNumber property (MatchManager.roundManager m)
    = (Returned true, rm') ->
  RoundManager.currentPlayer1Property rm' = Some prop1 ->
  RoundManager.currentPlayer2Property rm' = Some prop2 ->
  MatchManager.cardAt (MatchManager.player1Cards m) (MatchManager.player1SelectedCard m)
    = Some c1 ->
  MatchManager.cardAt (MatchManager.player2Cards m) (MatchManager.player2SelectedCard m)
    = Some c2 ->
  CardOps.getProperty c1 prop1 = Returned v1 ->
  CardOps.getProperty c2 prop2 = Returned v2 ->
  GameRules.calculateRoundScore prop1 v1 prop2 v2 = Returned pts ->
  0 <= fst pts -> 0 <= snd pts ->
  RoundManager.areAllRoundsComplete rm' = false ->
  RoundManager.shouldAutoPlayRound rm' = false ->
  let rr := {| round := RoundManager.currentRound rm';
               player1Property := prop1; player1Value := v1; player1Points := fst pts;
               player2Property := prop2; player2Value := v2; player2Points := snd pts;
               winner := RoundManager.determineRoundWinner (fst pts) (snd pts) |} in
  exists r sm',
    MatchManager.selectProperty config playerNumber property m
    = (Returned r,
       MatchManager.setMatchPhase ROUND_RESULT
         (MatchManager.setScoreManager sm'
            (MatchManager.setRoundManager (RoundManager.record rr rm') m)))
    /\ raw1 sm' = raw1 (MatchManager.scoreManager m) + fst pts
    /\ raw2 sm' = raw2 (MatchManager.scoreManager m) + snd pts
    /\ (WIN_BONUS config <= 0 ->
        ScoreManager.bonusPoints sm'
        = ScoreManager.bonusPoints (MatchManager.scoreManager m)).
Proof.
intros P E P1 P2 C1 C2 V1 V2 S G1 G2 A Auto rr.
destruct (calculateRound_eq (MatchManager.setRoundManager rm' m)
            prop1 prop2 c1 c2 v1 v2 pts P1 P2 C1 C2 V1 V2 S G1 G2 A Auto)
  as (sm' & EC & R1 & R2 & K).
eexists. exists sm'. split; [|auto].
unfold MatchManager.selectProperty, bind, get.
rewrite P. cbn [Phase_eqb negb].
unfold MatchManager.onRounds, zoom. rewrite E.
cbn [MatchManager.roundManager MatchManager.setRoundManager].
unfold RoundManager.isRoundReadyForCalculation. rewrite P1, P2. cbn [andb].
rewrite EC. reflexivity.
Qed.

Lemma MatchManager_advanceToNextRound_eq (m : MatchManager.t) :
  MatchManager.matchPhase m = ROUND_RESULT ->
  RoundManager.areAllRoundsComplete (MatchManager.roundManager m) = false ->
  MatchManager.advanceToNextRound m
  = (Returned true,
     MatchManager.setMatchPhase PROPERTY_SELECTION
       (MatchManager.setRoundManager
          (RoundManager.advance (MatchManager.roundManager m)) m)).
Proof.
intros P A. unfold MatchManager.advanceToNextRound, bind, get.
rewrite P. cbn [Phase_eqb negb].
unfold MatchManager.onRounds, zoom, RoundManager.advanceToNextRound, bind, get.
rewrite A. reflexivity.
Qed.


Lemma MatchManager_completeCardGame_eq (m : MatchManager.t) :
  exists sm',
    MatchManager.completeCardGame config m = (Returned tt, closeCardGame sm' m)
    /\ raw1 sm' = raw1 (MatchManager.scoreManager m)
    /\ raw2 sm' = raw2 (MatchManager.scoreManager m)
    /\ (COMEBACK_BONUS config <= 0 ->
        ScoreManager.bonusPoints sm'
        = ScoreManager.bonusPoints (MatchManager.scoreManager m)).
Proof.
destruct (completeCardGame_effect config
            (RoundManager.roundResults (MatchManager.roundManager m))
            (MatchManager.currentCardGame m) (MatchManager.scoreManager m))
  as (sm' & E & R1 & R2 & K).
exists sm'. split; [|repeat split; (lia || auto)].
unfold MatchManager.completeCardGame, bind, get.
unfold MatchManager.onScores, zoom, RoundManager.getRoundResults.
rewrite E. unfold closeCardGame.
cbn -[MatchManager.completeMatch Z.geb].
destruct (_ >=? _); reflexivity.
Qed.

Lemma MatchManager_advanceToNextCard_eq (m : MatchManager.t) :
  MatchManager.matchPhase m = CARD_COMPLETE ->
  MatchManager.currentCardGame m < MatchManager.maxCardGames m ->
  MatchManager.advanceToNextCard m
  = (Returned true,
     MatchManager.setMatchPhase CARD_SELECTION
       (MatchManager.setPlayer2SelectedCard None
          (MatchManager.setPlayer1SelectedCard None
             (MatchManager.setCurrentCardGame (MatchManager.currentCardGame m + 1) m)))).
Proof.
intros P L. unfold MatchManager.advanceToNextCard, bind, get.
rewrite P. cbn [Phase_eqb negb].
destruct (Z.geb_spec (MatchManager.currentCardGame m) (MatchManager.maxCardGames m));
  [lia|reflexivity].
Qed.

End MatchSteps.


(** ** A match driven by the web driver *)

Section DrivenMatch.
Import GameConfig ScoreFacts Driven.
Variable config : Scoring.

Lemma canonical_cases (a : string) :
  In a getAllProperties -> a = "deception" \/ a = "magic" \/ a = "attack".
Proof. cbn. intuition auto. Qed.

Lemma getProperty_canonical (c : Card) (a : string) :
  In a getAllProperties -> CardOps.wellFormed c = true ->
  exists v, CardOps.getProperty c a = Returned v /\ 1 <= v <= 9.
Proof.
intros A W. apply wellFormed_spec in W.
destruct (canonical_cases a A) as [-> | [-> | ->]]; eexists; (split; [reflexivity|lia]).
Qed.

Lemma calculateRoundScore_canonical (a b : string) (v w : Z) :
  In a getAllProperties -> In b getAllProperties -> 1 <= v <= 9 -> 1 <= w <= 9 ->
  exists pts, GameRules.calculateRoundScore a v b w = Returned pts
              /\ 0 <= fst pts /\ 0 <= snd pts.
Proof.
intros A B V W.
destruct (calculateRoundScore_range a b v w) as (x & y & E & X & Y & _).
- unfold GameRules.validateRoundInput.
  apply isValidPropertyValue_range in V, W. rewrite V, W.
  destruct (canonical_cases a A) as [-> | [-> | ->]],
           (canonical_cases b B) as [-> | [-> | ->]]; reflexivity.
- exists (x, y). cbn. repeat split; (exact E || lia).
Qed.

(** One round: both sides commit, the second commit resolves the round. *)
Lemma playRound_eq (m : MatchManager.t) (a b : string) (c1 c2 : Card) :
  let rm := MatchManager.roundManager m in
  MatchManager.matchPhase m = PROPERTY_SELECTION ->
  RoundManager.currentPlayer1Property rm = None ->
  RoundManager.currentPlayer2Property rm = None ->
  In a getAllProperties -> In b getAllProperties ->
  includes (RoundManager.usedPlayer1Properties rm) a = false ->
  includes (RoundManager.usedPlayer2Properties rm) b = false ->
  MatchManager.cardAt (MatchManager.player1Cards m) (MatchManager.player1SelectedCard m)
    = Some c1 ->
  MatchManager.cardAt (MatchManager.player2Cards m) (MatchManager.player2SelectedCard m)
    = Some c2 ->
  CardOps.wellFormed c1 = true -> CardOps.wellFormed c2 = true ->
  RoundManager.areAllRoundsComplete rm = false ->
  RoundManager.shouldAutoPlayRound (RoundManager.commit2 b (RoundManager.commit1 a rm))
    = false ->
  exists rr sm',
    (forall B (K : M MatchManager.t B),
       bind (MatchManager.selectProperty config 1 a)
            (fun _ => bind (MatchManager.selectProperty config 2 b) (fun _ => K)) m
       = K (MatchManager.setMatchPhase ROUND_RESULT
              (MatchManager.setScoreManager sm'
                 (MatchManager.setRoundManager
                    (RoundManager.record rr
                       (RoundManager.commit2 b (RoundManager.commit1 a rm))) m))))
    /\ round rr = RoundManager.currentRound rm
    /\ 0 <= player1Points rr /\ 0 <= player2Points rr
    /\ raw1 sm' = raw1 (MatchManager.scoreManager m) + player1Points rr
    /\ raw2 sm' = raw2 (MatchManager.scoreManager m) + player2Points rr
    /\ (WIN_BONUS config <= 0 ->
        ScoreManager.bonusPoints sm'
        = ScoreManager.bonusPoints (MatchManager.scoreManager m)).
Proof.
intros rm P N1 N2 A B U1 U2 C1 C2 W1 W2 NC Auto.
destruct (getProperty_canonical c1 a A W1) as (v1 & V1 & R1).
destruct (getProperty_canonical c2 b B W2) as (v2 & V2 & R2).
destruct (calculateRoundScore_canonical a b v1 v2 A B R1 R2) as (pts & S & G1 & G2).
assert (VA : GameConfig.isValidProperty a = true)
  by (destruct (canonical_cases a A) as [-> | [-> | ->]]; reflexivity).
assert (VB : GameConfig.isValidProperty b = true)
  by (destruct (canonical_cases b B) as [-> | [-> | ->]]; reflexivity).
(* the first commit *)
assert (E1 : RoundManager.selectProperty 1 a rm = (Returned true, RoundManager.commit1 a rm)).
{ rewrite RoundManager_selectProperty_eq. rewrite VA.
  unfold RoundManager.isPropertyAvailable, RoundManager.usedProperties.
  change (1 =? 1) with true. cbv beta iota. fold rm. rewrite U1. reflexivity. }
destruct (MatchManager_selectProperty_waiting config 1 a m _ P E1) as (r1 & F1).
{ unfold RoundManager.isRoundReadyForCalculation.
  cbn [RoundManager.currentPlayer1Property RoundManager.currentPlayer2Property
       RoundManager.commit1]. fold rm. rewrite N2. reflexivity. }
(* the second commit *)
set (m1 := MatchManager.setRoundManager (RoundManager.commit1 a rm) m) in *.
assert (E2 : RoundManager.selectProperty 2 b (MatchManager.roundManager m1)
             = (Returned true, RoundManager.commit2 b (RoundManager.commit1 a rm))).
{ change (MatchManager.roundManager m1) with (RoundManager.commit1 a rm).
  rewrite RoundManager_selectProperty_eq. rewrite VB.
  unfold RoundManager.isPropertyAvailable, RoundManager.usedProperties.
  change (2 =? 1) with false. cbv beta iota.
  cbn [RoundManager.usedPlayer2Properties RoundManager.commit1]. fold rm.
  rewrite U2. reflexivity. }
destruct (MatchManager_selectProperty_resolving config 2 b m1 _ a b c1 c2 v1 v2 pts
            P E2 eq_refl eq_refl C1 C2 V1 V2 S G1 G2 NC Auto)
  as (r2 & sm' & F2 & Q1 & Q2 & K').
eexists. exists sm'. split.
- intros B0 K. rewrite (bind_returned _ _ _ _ _ F1).
  rewrite (bind_returned _ _ _ _ _ F2). reflexivity.
- cbn [round player1Points player2Points]. repeat split; (reflexivity || assumption).
Qed.


Lemma settle_S (fuel : nat) (m : MatchManager.t) :
  WebDriver.settle config (S fuel) m =
  match WebDriver.handleGamePhase config m with
  | (Returned true, m') => WebDriver.settle config fuel m'
  | (Returned false, m') => (Returned tt, m')
  | (Thrown msg, m') => (Thrown msg, m')
  end.
Proof.
cbn [WebDriver.settle]. unfold bind.
destruct (WebDriver.handleGamePhase config m) as [[[|]|msg] m']; reflexivity.
Qed.

Lemma handlePropertySelection_waits (m : MatchManager.t) :
  RoundManager.currentRound (MatchManager.roundManager m) <> 3 ->
  WebDriver.handlePropertySelection config m = (Returned false, m).
Proof.
intros N. unfold WebDriver.handlePropertySelection, bind, get.
unfold RoundManager.getCurrentRound.
destruct (RoundManager.getAvailableProperties (MatchManager.roundManager m) 1)
  as [|x [|? ?]];
  destruct (RoundManager.getAvailableProperties (MatchManager.roundManager m) 2)
    as [|y [|? ?]];
  try reflexivity.
destruct (Z.eqb_spec (RoundManager.currentRound (MatchManager.roundManager m)) 3);
  [contradiction|reflexivity].
Qed.

Lemma handlePropertySelection_auto (m : MatchManager.t) (prop1 prop2 : string) :
  RoundManager.getAvailableProperties (MatchManager.roundManager m) 1 = [prop1] ->
  RoundManager.getAvailableProperties (MatchManager.roundManager m) 2 = [prop2] ->
  RoundManager.currentRound (MatchManager.roundManager m) = 3 ->
  WebDriver.handlePropertySelection config m
  = WebDriver.autoPlayFinalRound config prop1 prop2 m.
Proof.
intros A1 A2 R. unfold WebDriver.handlePropertySelection, bind, get.
rewrite A1, A2. unfold RoundManager.getCurrentRound. rewrite R. reflexivity.
Qed.

Lemma handleRoundResult_advance (m : MatchManager.t) (r : RoundResult)
                                (rest : list RoundResult) :
  RoundManager.roundResults (MatchManager.roundManager m) = r :: rest ->
  len (r :: rest) < RoundManager.maxRounds (MatchManager.roundManager m) ->
  MatchManager.matchPhase m = ROUND_RESULT ->
  RoundManager.areAllRoundsComplete (MatchManager.roundManager m) = false ->
  WebDriver.handleRoundResult config m
  = (Returned true,
     MatchManager.setMatchPhase PROPERTY_SELECTION
       (MatchManager.setRoundManager
          (RoundManager.advance (MatchManager.roundManager m)) m)).
Proof.
intros E L P A. unfold WebDriver.handleRoundResult, bind, get.
unfold RoundManager.getRoundResults, RoundManager.getMaxRounds. rewrite E.
destruct (Z.geb_spec (len (r :: rest))
            (RoundManager.maxRounds (MatchManager.roundManager m))); [lia|].
rewrite (MatchManager_advanceToNextRound_eq m P A). reflexivity.
Qed.

Lemma handleRoundResult_complete (m : MatchManager.t) (r : RoundResult)
                                 (rest : list RoundResult) :
  RoundManager.roundResults (MatchManager.roundManager m) = r :: rest ->
  RoundManager.maxRounds (MatchManager.roundManager m) <= len (r :: rest) ->
  exists sm',
    WebDriver.handleRoundResult config m = (Returned true, closeCardGame sm' m)
    /\ raw1 sm' = raw1 (MatchManager.scoreManager m)
    /\ raw2 sm' = raw2 (MatchManager.scoreManager m)
    /\ (COMEBACK_BONUS config <= 0 ->
        ScoreManager.bonusPoints sm'
        = ScoreManager.bonusPoints (MatchManager.scoreManager m)).
Proof.
intros E L.
destruct (MatchManager_completeCardGame_eq config m) as (sm' & C & R1 & R2 & K).
exists sm'. split; [|auto].
unfold WebDriver.handleRoundResult, bind, get.
unfold RoundManager.getRoundResults, RoundManager.getMaxRounds. rewrite E.
destruct (Z.geb_spec (len (r :: rest))
            (RoundManager.maxRounds (MatchManager.roundManager m))); [|lia].
rewrite C. reflexivity.
Qed.

Lemma handleCardSelection_eq (m : MatchManager.t) :
  MatchManager.matchPhase m = CARD_SELECTION ->
  MatchManager.player1SelectedCard m = None ->
  MatchManager.player2SelectedCard m = None ->
  1 <= MatchManager.currentCardGame m <= len (MatchManager.player1Cards m) ->
  MatchManager.currentCardGame m <= len (MatchManager.player2Cards m) ->
  WebDriver.handleCardSelection m
  = (Returned true,
     MatchManager.setRoundManager
       (snd (RoundManager.reset (MatchManager.roundManager m)))
       (MatchManager.setMatchPhase PROPERTY_SELECTION
          (MatchManager.setPlayer2SelectedCard
             (Some (MatchManager.currentCardGame m - 1))
             (MatchManager.setPlayer1SelectedCard
                (Some (MatchManager.currentCardGame m - 1)) m)))).
Proof.
intros P S1 S2 L1 L2. unfold WebDriver.handleCardSelection, bind, get.
rewrite !selectCard_eq. rewrite P. cbn [Phase_eqb negb].
change (1 =? 1) with true. cbv beta iota.
destruct (Z.ltb_spec (MatchManager.currentCardGame m - 1) 0); [lia|].
destruct (Z.geb_spec (MatchManager.currentCardGame m - 1)
            (len (MatchManager.player1Cards m))); [lia|].
destruct (Z.ltb_spec (MatchManager.currentCardGame m - 1)
            (MatchManager.currentCardGame m - 1)); [lia|].
cbn [orb]. cbv zeta.
unfold MatchManager.canProceedToPropertySelection at 1.
cbn [MatchManager.player1SelectedCard MatchManager.player2SelectedCard
     MatchManager.setPlayer1SelectedCard].
rewrite S2.
cbn [MatchManager.matchPhase MatchManager.setPlayer1SelectedCard].
rewrite !selectCard_eq.
cbn [MatchManager.matchPhase MatchManager.setPlayer1SelectedCard
     MatchManager.player2Cards MatchManager.currentCardGame].
rewrite P. cbn [Phase_eqb negb].
change (2 =? 1) with false. cbv beta iota.
destruct (Z.ltb_spec (MatchManager.currentCardGame m - 1) 0); [lia|].
destruct (Z.geb_spec (MatchManager.currentCardGame m - 1)
            (len (MatchManager.player2Cards m))); [lia|].
destruct (Z.ltb_spec (MatchManager.currentCardGame m - 1)
            (MatchManager.currentCardGame m - 1)); [lia|].
reflexivity.
Qed.

Lemma handleCardComplete_next (m : MatchManager.t) :
  MatchManager.matchPhase m = CARD_COMPLETE ->
  MatchManager.currentCardGame m < 3 ->
  MatchManager.currentCardGame m < MatchManager.maxCardGames m ->
  WebDriver.handleCardComplete m
  = (Returned true,
     MatchManager.setMatchPhase CARD_SELECTION
       (MatchManager.setPlayer2SelectedCard None
          (MatchManager.setPlayer1SelectedCard None
             (MatchManager.setCurrentCardGame (MatchManager.currentCardGame m + 1) m)))).
Proof.
intros P L3 L. unfold WebDriver.handleCardComplete, bind, get.
destruct (Z.ltb_spec (MatchManager.currentCardGame m) 3); [|lia].
rewrite (MatchManager_advanceToNextCard_eq m P L). reflexivity.
Qed.

End DrivenMatch.


Section DrivenCardGame.
Import GameConfig ScoreFacts Driven.
Variable config : Scoring.

Lemma third_property (a1 a2 : string) :
  WebDriver.legalPair a1 a2 ->
  exists a3,
    In a3 getAllProperties
    /\ includes [a1] a2 = false
    /\ includes [a1; a2] a3 = false
    /\ filter (fun p => negb (includes [a1; a2] p)) getAllProperties = [a3]
    /\ filter (fun p => negb (includes [a1; a2; a3] p)) getAllProperties = [].
Proof.
intros (A1 & A2 & N).
destruct (canonical_cases a1 A1) as [-> | [-> | ->]],
         (canonical_cases a2 A2) as [-> | [-> | ->]];
  try contradiction;
  [exists "attack" | exists "magic" | exists "attack"
  | exists "deception" | exists "magic" | exists "deception"];
  repeat split; cbn; auto.
Qed.

Lemma shouldAutoPlayRound_not_final (rm : RoundManager.t) :
  RoundManager.currentRound rm <> RoundManager.maxRounds rm ->
  RoundManager.shouldAutoPlayRound rm = false.
Proof.
intros N. unfold RoundManager.shouldAutoPlayRound, RoundManager.isFinalRound.
destruct (Z.eqb_spec (RoundManager.currentRound rm) (RoundManager.maxRounds rm));
  [contradiction|].
destruct (RoundManager.autoPlayEnabled rm); reflexivity.
Qed.

Lemma shouldAutoPlayRound_none_left (rm : RoundManager.t) :
  RoundManager.getAvailableProperties rm 1 = [] ->
  RoundManager.shouldAutoPlayRound rm = false.
Proof.
intros E. unfold RoundManager.shouldAutoPlayRound. rewrite E.
destruct (RoundManager.autoPlayEnabled rm), (RoundManager.isFinalRound rm); reflexivity.
Qed.

Lemma click_eq {B} (fuel : nat) (a b : string) (K : unit -> M MatchManager.t B)
               (m : MatchManager.t) :
  bind (WebDriver.selectProperty config fuel a b) K m
  = bind (MatchManager.selectProperty config 1 a)
         (fun _ => bind (MatchManager.selectProperty config 2 b)
                        (fun _ => bind (WebDriver.settle config fuel) K)) m.
Proof.
unfold WebDriver.selectProperty, bind.
destruct (MatchManager.selectProperty config 1 a m) as [[r1|msg1] m1]; [|reflexivity].
destruct (MatchManager.selectProperty config 2 b m1) as [[r2|msg2] m2]; reflexivity.
Qed.

Lemma settle_continue {B} (fuel : nat) (K : unit -> M MatchManager.t B)
                      (m m' : MatchManager.t) :
  WebDriver.handleGamePhase config m = (Returned true, m') ->
  bind (WebDriver.settle config (S fuel)) K m = bind (WebDriver.settle config fuel) K m'.
Proof. intros E. unfold bind at 1. rewrite settle_S, E. reflexivity. Qed.

Lemma settle_stop {B} (fuel : nat) (K : unit -> M MatchManager.t B)
                  (m m' : MatchManager.t) :
  WebDriver.handleGamePhase config m = (Returned false, m') ->
  bind (WebDriver.settle config (S fuel)) K m = K tt m'.
Proof. intros E. unfold bind at 1. rewrite settle_S, E. reflexivity. Qed.

Lemma handleGamePhase_eq (m : MatchManager.t) :
  WebDriver.handleGamePhase config m =
  match MatchManager.matchPhase m with
  | CARD_SELECTION => WebDriver.handleCardSelection m
  | PROPERTY_SELECTION => WebDriver.handlePropertySelection config m
  | ROUND_RESULT => WebDriver.handleRoundResult config m
  | CARD_COMPLETE => WebDriver.handleCardComplete m
  | _ => (Returned false, m)
  end.
Proof.
unfold WebDriver.handleGamePhase, bind, get.
destruct (MatchManager.matchPhase m); reflexivity.
Qed.

Ltac norm_state :=
  cbn [MatchManager.setMatchPhase MatchManager.setScoreManager
       MatchManager.setRoundManager MatchManager.setCardGameResults
       MatchManager.setMatchResult MatchManager.setCurrentCardGame
       MatchManager.setPlayer1SelectedCard MatchManager.setPlayer2SelectedCard
       MatchManager.gameMode MatchManager.player1Cards MatchManager.player2Cards
       MatchManager.currentCardGame MatchManager.maxCardGames
       MatchManager.matchPhase MatchManager.player1SelectedCard
       MatchManager.player2SelectedCard MatchManager.roundManager
       MatchManager.scoreManager MatchManager.cardGameResults
       MatchManager.matchResult
       RoundManager.record RoundManager.commit1 RoundManager.commit2
       RoundManager.advance
       RoundManager.currentRound RoundManager.maxRounds RoundManager.roundResults
       RoundManager.usedPlayer1Properties RoundManager.usedPlayer2Properties
       RoundManager.currentPlayer1Property RoundManager.currentPlayer2Property
       RoundManager.roundPhase RoundManager.autoPlayEnabled
       app] in *.

Lemma three_rounds (gameMode : string) (hand1 hand2 : list Card) (k : Z)
                   (autoPlay : bool) (sm : ScoreManager.t)
                   (results : list MatchManager.CardGameResult)
                   (a1 a2 b1 b2 : string) (c1 c2 : Card) (fuel : nat) :
  MatchManager.cardAt hand1 (Some (k - 1)) = Some c1 ->
  MatchManager.cardAt hand2 (Some (k - 1)) = Some c2 ->
  CardOps.wellFormed c1 = true -> CardOps.wellFormed c2 = true ->
  WebDriver.legalPair a1 a2 -> WebDriver.legalPair b1 b2 ->
  exists a3 b3 rr1 rr2 rr3 sm',
    (forall B (K : M MatchManager.t B),
       bind (WebDriver.selectProperty config (S (S fuel)) a1 b1)
            (fun _ => bind (WebDriver.selectProperty config (S (S fuel)) a2 b2)
                           (fun _ => K))
            (inCardGame gameMode hand1 hand2 k PROPERTY_SELECTION
                        (freshRounds autoPlay) sm results)
       = bind (WebDriver.settle config fuel) (fun _ => K)
              (inCardGame gameMode hand1 hand2 k ROUND_RESULT
                          (resolvedRounds autoPlay [a1; a2; a3] [b1; b2; b3] a3 b3
                                          [rr1; rr2; rr3])
                          sm' results))
    /\ In a3 getAllProperties /\ In b3 getAllProperties
    /\ raw1 sm' = raw1 sm + (player1Points rr1 + (player1Points rr2
                              + (player1Points rr3 + 0)))
    /\ raw2 sm' = raw2 sm + (player2Points rr1 + (player2Points rr2
                              + (player2Points rr3 + 0)))
    /\ (WIN_BONUS config <= 0 ->
        ScoreManager.bonusPoints sm' = ScoreManager.bonusPoints sm).
Proof.
intros C1 C2 W1 W2 LA LB.
destruct (third_property a1 a2 LA) as (a3 & A3 & Ia12 & Ia3 & Fa & Fa').
destruct (third_property b1 b2 LB) as (b3 & B3 & Ib12 & Ib3 & Fb & Fb').
destruct LA as (A1 & A2 & NA). destruct LB as (B1 & B2 & NB).
(* round 1 *)
assert (Auto1 : RoundManager.shouldAutoPlayRound
                  (RoundManager.commit2 b1
                     (RoundManager.commit1 a1 (freshRounds autoPlay))) = false)
  by (apply shouldAutoPlayRound_not_final; cbn; lia).
destruct (playRound_eq config
            (inCardGame gameMode hand1 hand2 k PROPERTY_SELECTION
                        (freshRounds autoPlay) sm results)
            a1 b1 c1 c2 eq_refl eq_refl eq_refl A1 B1 eq_refl eq_refl C1 C2 W1 W2
            eq_refl Auto1)
  as (rr1 & sm1 & Step1 & Rd1 & P11 & P12 & R11 & R12 & K1).
set (m1 := MatchManager.setMatchPhase ROUND_RESULT _) in Step1.
(* on to round 2 *)
assert (H1 : WebDriver.handleGamePhase config m1
             = (Returned true,
                MatchManager.setMatchPhase PROPERTY_SELECTION
                  (MatchManager.setRoundManager
                     (RoundManager.advance (MatchManager.roundManager m1)) m1))).
{ rewrite handleGamePhase_eq. change (MatchManager.matchPhase m1) with ROUND_RESULT.
  cbv iota.
  apply (handleRoundResult_advance config m1 rr1 []); (reflexivity || (cbn; lia)). }
set (m2 := MatchManager.setMatchPhase PROPERTY_SELECTION _) in H1.
assert (H2 : WebDriver.handleGamePhase config m2 = (Returned false, m2)).
{ rewrite handleGamePhase_eq. change (MatchManager.matchPhase m2) with PROPERTY_SELECTION.
  cbv iota. apply handlePropertySelection_waits. cbn. lia. }
(* round 2 *)
assert (Auto2 : RoundManager.shouldAutoPlayRound
                  (RoundManager.commit2 b2
                     (RoundManager.commit1 a2 (MatchManager.roundManager m2))) = false)
  by (apply shouldAutoPlayRound_not_final; cbn; lia).
destruct (playRound_eq config m2 a2 b2 c1 c2 eq_refl eq_refl eq_refl A2 B2 Ia12 Ib12
            C1 C2 W1 W2 eq_refl Auto2)
  as (rr2 & sm2 & Step2 & Rd2 & P21 & P22 & R21 & R22 & K2).
set (m3 := MatchManager.setMatchPhase ROUND_RESULT _) in Step2.
assert (H3 : WebDriver.handleGamePhase config m3
             = (Returned true,
                MatchManager.setMatchPhase PROPERTY_SELECTION
                  (MatchManager.setRoundManager
                     (RoundManager.advance (MatchManager.roundManager m3)) m3))).
{ rewrite handleGamePhase_eq. change (MatchManager.matchPhase m3) with ROUND_RESULT.
  cbv iota.
  apply (handleRoundResult_advance config m3 rr1 [rr2]); (reflexivity || (cbn; lia)). }
set (m4 := MatchManager.setMatchPhase PROPERTY_SELECTION _) in H3.
(* round 3, played by the driver *)
assert (H4 : WebDriver.handleGamePhase config m4
             = WebDriver.autoPlayFinalRound config a3 b3 m4).
{ rewrite handleGamePhase_eq. change (MatchManager.matchPhase m4) with PROPERTY_SELECTION.
  cbv iota. apply handlePropertySelection_auto; [exact Fa|exact Fb|reflexivity]. }
assert (Auto3 : RoundManager.shouldAutoPlayRound
                  (RoundManager.commit2 b3
                     (RoundManager.commit1 a3 (MatchManager.roundManager m4))) = false)
  by (apply shouldAutoPlayRound_none_left; exact Fa').
destruct (playRound_eq config m4 a3 b3 c1 c2 eq_refl eq_refl eq_refl A3 B3 Ia3 Ib3
            C1 C2 W1 W2 eq_refl Auto3)
  as (rr3 & sm3 & Step3 & Rd3 & P31 & P32 & R31 & R32 & K3).
exists a3, b3, rr1, rr2, rr3, sm3. split.
- intros B K. rewrite click_eq, Step1.
  rewrite (settle_continue _ _ _ _ H1).
  rewrite (settle_stop _ _ _ _ H2).
  rewrite click_eq, Step2.
  rewrite (settle_continue _ _ _ _ H3).
  rewrite (settle_continue fuel _ m4
             (MatchManager.setMatchPhase ROUND_RESULT
                (MatchManager.setScoreManager sm3
                   (MatchManager.setRoundManager
                      (RoundManager.record rr3
                         (RoundManager.commit2 b3
                            (RoundManager.commit1 a3 (MatchManager.roundManager m4))))
                      m4)))).
  + reflexivity.
  + rewrite H4. unfold WebDriver.autoPlayFinalRound. apply Step3.
- repeat split; try assumption.
  + rewrite R31. change (MatchManager.scoreManager m4) with sm2.
    rewrite R21. change (MatchManager.scoreManager m2) with sm1.
    rewrite R11. cbn [MatchManager.scoreManager inCardGame]. lia.
  + rewrite R32. change (MatchManager.scoreManager m4) with sm2.
    rewrite R22. change (MatchManager.scoreManager m2) with sm1.
    rewrite R12. cbn [MatchManager.scoreManager inCardGame]. lia.
  + intros Wb. rewrite (K3 Wb). change (MatchManager.scoreManager m4) with sm2.
    rewrite (K2 Wb). change (MatchManager.scoreManager m2) with sm1.
    rewrite (K1 Wb). reflexivity.
Qed.

End DrivenCardGame.

Section DrivenMatchTheorem.
Import GameConfig ScoreFacts Driven.
Variable config : Scoring.

(** After the third round of card-game 1 or 2 the driver closes the
    card-game, moves to the next one and selects the next card of each
    hand. *)
Lemma next_card_game (gameMode : string) (hand1 hand2 : list Card) (k : Z)
                     (autoPlay : bool) (used1 used2 : list string)
                     (last1 last2 : string) (rr1 rr2 rr3 : RoundResult)
                     (sm : ScoreManager.t)
                     (results : list MatchManager.CardGameResult) (fuel : nat) :
  1 <= k < 3 -> len hand1 = 3 -> len hand2 = 3 ->
  exists sm' cgr,
    (forall B (K : unit -> M MatchManager.t B),
       bind (WebDriver.settle config (S (S (S (S fuel))))) K
            (inCardGame gameMode hand1 hand2 k ROUND_RESULT
                        (resolvedRounds autoPlay used1 used2 last1 last2
                                        [rr1; rr2; rr3])
                        sm results)
       = K tt (inCardGame gameMode hand1 hand2 (k + 1) PROPERTY_SELECTION
                          (freshRounds autoPlay) sm' (results ++ [cgr])))
    /\ MatchManager.rounds cgr = [rr1; rr2; rr3]
    /\ raw1 sm' = raw1 sm /\ raw2 sm' = raw2 sm
    /\ (COMEBACK_BONUS config <= 0 ->
        ScoreManager.bonusPoints sm' = ScoreManager.bonusPoints sm).
Proof.
intros Hk L1 L2.
set (m5 := inCardGame gameMode hand1 hand2 k ROUND_RESULT
             (resolvedRounds autoPlay used1 used2 last1 last2 [rr1; rr2; rr3])
             sm results).
destruct (handleRoundResult_complete config m5 rr1 [rr2; rr3] eq_refl)
  as (sm' & H5 & R1 & R2 & Kb); [cbn; lia|].
assert (E6 : closeCardGame sm' m5
             = MatchManager.setMatchPhase CARD_COMPLETE
                 (MatchManager.setCardGameResults
                    (results ++
                     [{| MatchManager.cardGame := k;
                         MatchManager.player1Card := Some (k - 1);
                         MatchManager.player2Card := Some (k - 1);
                         MatchManager.rounds := [rr1; rr2; rr3];
                         MatchManager.scores := ScoreManager.getScores sm';
                         MatchManager.cardGameLeader :=
                           ScoreManager.getCurrentWinner sm' |}])
                    (MatchManager.setScoreManager sm' m5))).
{ unfold closeCardGame. cbn -[Z.geb MatchManager.completeMatch].
  destruct (Z.geb_spec k 3); [lia|reflexivity]. }
rewrite E6 in H5. set (m6 := MatchManager.setMatchPhase CARD_COMPLETE _) in H5.
assert (H5' : WebDriver.handleGamePhase config m5 = (Returned true, m6)).
{ rewrite handleGamePhase_eq. exact H5. }
assert (H6 : WebDriver.handleGamePhase config m6
             = (Returned true,
                MatchManager.setMatchPhase CARD_SELECTION
                  (MatchManager.setPlayer2SelectedCard None
                     (MatchManager.setPlayer1SelectedCard None
                        (MatchManager.setCurrentCardGame
                           (MatchManager.currentCardGame m6 + 1) m6))))).
{ rewrite handleGamePhase_eq. change (MatchManager.matchPhase m6) with CARD_COMPLETE.
  cbv iota. apply handleCardComplete_next; [reflexivity|cbn; lia|cbn; lia]. }
set (m7 := MatchManager.setMatchPhase CARD_SELECTION _) in H6.
assert (H7 : WebDriver.handleGamePhase config m7
             = (Returned true,
                MatchManager.setRoundManager
                  (snd (RoundManager.reset (MatchManager.roundManager m7)))
                  (MatchManager.setMatchPhase PROPERTY_SELECTION
                     (MatchManager.setPlayer2SelectedCard
                        (Some (MatchManager.currentCardGame m7 - 1))
                        (MatchManager.setPlayer1SelectedCard
                           (Some (MatchManager.currentCardGame m7 - 1)) m7))))).
{ rewrite handleGamePhase_eq. change (MatchManager.matchPhase m7) with CARD_SELECTION.
  cbv iota. apply handleCardSelection_eq; try reflexivity.
  - change (MatchManager.currentCardGame m7) with (k + 1).
    change (MatchManager.player1Cards m7) with hand1. lia.
  - change (MatchManager.currentCardGame m7) with (k + 1).
    change (MatchManager.player2Cards m7) with hand2. lia. }
set (m8 := MatchManager.setRoundManager _ _) in H7.
assert (H8 : WebDriver.handleGamePhase config m8 = (Returned false, m8)).
{ rewrite handleGamePhase_eq. change (MatchManager.matchPhase m8) with PROPERTY_SELECTION.
  cbv iota. apply handlePropertySelection_waits. cbn. lia. }
eexists sm', _. split; [|repeat split; auto].
- intros B K.
  rewrite (settle_continue _ _ _ _ _ H5').
  rewrite (settle_continue _ _ _ _ _ H6).
  rewrite (settle_continue _ _ _ _ _ H7).
  rewrite (settle_stop _ _ _ _ _ H8).
  reflexivity.
- reflexivity.
Qed.


(** After the third round of card-game 3 closing the card-game completes
    the match, and the driver has nothing more to do. *)
Lemma last_card_game (gameMode : string) (hand1 hand2 : list Card)
                     (autoPlay : bool) (used1 used2 : list string)
                     (last1 last2 : string) (rr1 rr2 rr3 : RoundResult)
                     (sm : ScoreManager.t)
                     (results : list MatchManager.CardGameResult) (fuel : nat) :
  exists sm' cgr m,
    (forall B (K : unit -> M MatchManager.t B),
       bind (WebDriver.settle config (S (S fuel))) K
            (inCardGame gameMode hand1 hand2 3 ROUND_RESULT
                        (resolvedRounds autoPlay used1 used2 last1 last2
                                        [rr1; rr2; rr3])
                        sm results)
       = K tt m)
    /\ MatchManager.isMatchComplete m = true
    /\ MatchManager.getMatchResult m
       = Some ({| MatchManager.matchWinner := ScoreManager.getCurrentWinner sm';
                  MatchManager.finalScores := ScoreManager.getScores sm';
                  MatchManager.matchStatistics := ScoreManager.getScoreBreakdown sm' |},
               results ++ [cgr])
    /\ MatchManager.rounds cgr = [rr1; rr2; rr3]
    /\ raw1 sm' = raw1 sm /\ raw2 sm' = raw2 sm
    /\ (COMEBACK_BONUS config <= 0 ->
        ScoreManager.bonusPoints sm' = ScoreManager.bonusPoints sm).
Proof.
set (m5 := inCardGame gameMode hand1 hand2 3 ROUND_RESULT
             (resolvedRounds autoPlay used1 used2 last1 last2 [rr1; rr2; rr3])
             sm results).
destruct (handleRoundResult_complete config m5 rr1 [rr2; rr3] eq_refl)
  as (sm' & H5 & R1 & R2 & Kb); [cbn; lia|].
assert (H5' : WebDriver.handleGamePhase config m5
              = (Returned true, closeCardGame sm' m5)).
{ rewrite handleGamePhase_eq. exact H5. }
assert (H6 : WebDriver.handleGamePhase config (closeCardGame sm' m5)
             = (Returned false, closeCardGame sm' m5)).
{ rewrite handleGamePhase_eq. reflexivity. }
exists sm'. eexists. exists (closeCardGame sm' m5).
split; [|repeat split; auto].
intros B K.
rewrite (settle_continue _ _ _ _ _ H5').
rewrite (settle_stop _ _ _ _ _ H6). reflexivity.
Qed.

(** From the constructor to the first property selection. *)
Lemma first_card_selected (gameMode : string) (hand1 hand2 : list Card)
                          (m0 : MatchManager.t) (fuel : nat) :
  MatchManager.new hand1 hand2 gameMode = Returned m0 ->
  len hand1 = 3 /\ len hand2 = 3
  /\ forall B (K : unit -> M MatchManager.t B),
       bind (WebDriver.settle config (S (S fuel))) K m0
       = K tt (inCardGame gameMode hand1 hand2 1 PROPERTY_SELECTION
                          (freshRounds true) ScoreManager.new []).
Proof.
unfold MatchManager.new, MatchManager.validatePlayerCards.
destruct (Z.eqb_spec (len hand1) CARDS_PER_PLAYER) as [L1|]; [|discriminate].
destruct (Z.eqb_spec (len hand2) CARDS_PER_PLAYER) as [L2|]; [|discriminate].
cbn [negb orb]. destruct (_ =? 0); cbn [negb]; [|discriminate].
intros [= <-]. split; [exact L1|]. split; [exact L2|].
set (m0 := {| MatchManager.gameMode := gameMode |}).
assert (H0 : WebDriver.handleGamePhase config m0
             = (Returned true,
                MatchManager.setRoundManager
                  (snd (RoundManager.reset (MatchManager.roundManager m0)))
                  (MatchManager.setMatchPhase PROPERTY_SELECTION
                     (MatchManager.setPlayer2SelectedCard
                        (Some (MatchManager.currentCardGame m0 - 1))
                        (MatchManager.setPlayer1SelectedCard
                           (Some (MatchManager.currentCardGame m0 - 1)) m0))))).
{ rewrite handleGamePhase_eq. change (MatchManager.matchPhase m0) with CARD_SELECTION.
  cbv iota. apply handleCardSelection_eq; try reflexivity.
  - change (MatchManager.currentCardGame m0) with 1.
    change (MatchManager.player1Cards m0) with hand1. rewrite L1.
    unfold CARDS_PER_PLAYER. lia.
  - change (MatchManager.currentCardGame m0) with 1.
    change (MatchManager.player2Cards m0) with hand2. rewrite L2.
    unfold CARDS_PER_PLAYER. lia. }
set (m1 := MatchManager.setRoundManager _ _) in H0.
assert (H1 : WebDriver.handleGamePhase config m1 = (Returned false, m1)).
{ rewrite handleGamePhase_eq. change (MatchManager.matchPhase m1) with PROPERTY_SELECTION.
  cbv iota. apply handlePropertySelection_waits. cbn. lia. }
intros B K.
rewrite (settle_continue _ _ _ _ _ H0).
rewrite (settle_stop _ _ _ _ _ H1). reflexivity.
Qed.

Lemma total_app (f : RoundResult -> Z) (results : list MatchManager.CardGameResult)
                (cgr : MatchManager.CardGameResult) :
  Completed.total f (results ++ [cgr])
  = Completed.total f results
    + fold_right Z.add 0 (map f (MatchManager.rounds cgr)).
Proof.
unfold Completed.total. induction results as [|c rest IH]; cbn in *; lia.
Qed.

Lemma hand_of_three (hand : list Card) :
  len hand = 3 -> Forall (fun c => CardOps.wellFormed c = true) hand ->
  exists c1 c2 c3,
    hand = [c1; c2; c3]
    /\ CardOps.wellFormed c1 = true /\ CardOps.wellFormed c2 = true
    /\ CardOps.wellFormed c3 = true.
Proof.
intros L W. unfold len in L.
destruct hand as [|c1 [|c2 [|c3 [|c4 rest]]]]; cbn [List.length] in L; try lia.
exists c1, c2, c3. inversion W as [|? ? W1 W']; subst.
inversion W' as [|? ? W2 W'']; subst. inversion W'' as [|? ? W3 _]; subst. auto.
Qed.


(** What does hold, of the matches the web driver plays.  A match built by
    the constructor from two hands of well-formed cards and driven by the
    web driver, the player and the AI each picking, in the two open rounds
    of every card-game, two different properties under their current names
    (the driver plays the third), ends in the game-over phase with a result
    holding exactly 3 card-game results of exactly 3 round results each,
    and each side's final score is the sum of its points over those 9
    rounds plus the bonus points it was awarded; when no bonus magnitude is
    positive, as in the default configuration, the final score is the
    plain sum. *)
Theorem driven_match_completes_as_specified
  (hand1 hand2 : list Card) (gameMode : string) (m0 : MatchManager.t)
  (choices : list (string * string)) :
  MatchManager.new hand1 hand2 gameMode = Returned m0 ->
  Forall (fun c => CardOps.wellFormed c = true) (hand1 ++ hand2) ->
  WebDriver.legalChoices 3 choices ->
  exists m,
    WebDriver.play config 16 choices m0 = (Returned tt, m)
    /\ MatchManager.isMatchComplete m = true
    /\ Completed.asSpecified m
    /\ (WIN_BONUS config <= 0 -> COMEBACK_BONUS config <= 0 ->
        exists r cardResults,
          MatchManager.getMatchResult m = Some (r, cardResults)
          /\ MatchManager.finalScores r
             = (Completed.total player1Points cardResults,
                Completed.total player2Points cardResults)).
Proof.
intros New W Legal.
inversion Legal as [|? a1 b1 a2 b2 rest1 LA1 LB1 Legal1]; subst.
inversion Legal1 as [|? a3 b3 a4 b4 rest2 LA2 LB2 Legal2]; subst.
inversion Legal2 as [|? a5 b5 a6 b6 rest3 LA3 LB3 Legal3]; subst.
inversion Legal3; subst. clear Legal Legal1 Legal2 Legal3.
destruct (first_card_selected gameMode hand1 hand2 m0 14 New) as (L1 & L2 & Start).
apply Forall_app in W. destruct W as [W1 W2].
destruct (hand_of_three hand1 L1 W1) as (x1 & x2 & x3 & -> & X1 & X2 & X3).
destruct (hand_of_three hand2 L2 W2) as (y1 & y2 & y3 & -> & Y1 & Y2 & Y3).
set (h1 := [x1; x2; x3]) in *. set (h2 := [y1; y2; y3]) in *.
(* card-game 1 *)
destruct (three_rounds config gameMode h1 h2 1 true ScoreManager.new [] a1 a2 b1 b2
            x1 y1 14 eq_refl eq_refl X1 Y1 LA1 LB1)
  as (a1' & b1' & r11 & r12 & r13 & s1 & G1 & _ & _ & S11 & S12 & B1).
destruct (next_card_game gameMode h1 h2 1 true [a1; a2; a1'] [b1; b2; b1'] a1' b1'
            r11 r12 r13 s1 [] 10 ltac:(lia) L1 L2)
  as (s1' & g1 & N1 & Rg1 & T11 & T12 & C1).
(* card-game 2 *)
destruct (three_rounds config gameMode h1 h2 (1 + 1) true s1' ([] ++ [g1]) a3 a4 b3 b4
            x2 y2 14 eq_refl eq_refl X2 Y2 LA2 LB2)
  as (a2' & b2' & r21 & r22 & r23 & s2 & G2 & _ & _ & S21 & S22 & B2).
destruct (next_card_game gameMode h1 h2 (1 + 1) true [a3; a4; a2'] [b3; b4; b2'] a2' b2'
            r21 r22 r23 s2 ([] ++ [g1]) 10 ltac:(lia) L1 L2)
  as (s2' & g2 & N2 & Rg2 & T21 & T22 & C2).
(* card-game 3 *)
destruct (three_rounds config gameMode h1 h2 (1 + 1 + 1) true s2' (([] ++ [g1]) ++ [g2])
            a5 a6 b5 b6 x3 y3 14 eq_refl eq_refl X3 Y3 LA3 LB3)
  as (a3' & b3' & r31 & r32 & r33 & s3 & G3 & _ & _ & S31 & S32 & B3).
destruct (last_card_game gameMode h1 h2 true [a5; a6; a3'] [b5; b6; b3'] a3' b3'
            r31 r32 r33 s3 (([] ++ [g1]) ++ [g2]) 12)
  as (s3' & g3 & m & N3 & Over & Result & Rg3 & T31 & T32 & C3).
exists m. split.
{ unfold WebDriver.play. rewrite Start. cbn [WebDriver.clicks].
  rewrite G1, N1. rewrite G2, N2. rewrite G3, N3. reflexivity. }
split; [exact Over|].
assert (Sum1 : raw1 s3' = Completed.total player1Points ((([] ++ [g1]) ++ [g2]) ++ [g3])).
{ rewrite !total_app, Rg1, Rg2, Rg3. cbn [map fold_right].
  rewrite T31, S31, T21, S21, T11, S11. unfold raw1. cbn. reflexivity. }
assert (Sum2 : raw2 s3' = Completed.total player2Points ((([] ++ [g1]) ++ [g2]) ++ [g3])).
{ rewrite !total_app, Rg1, Rg2, Rg3. cbn [map fold_right].
  rewrite T32, S32, T22, S22, T12, S12. unfold raw2. cbn. reflexivity. }
split.
- eexists. eexists. split; [exact Result|].
  split; [reflexivity|]. split.
  + repeat constructor; [rewrite Rg1|rewrite Rg2|rewrite Rg3]; reflexivity.
  + cbn [MatchManager.finalScores MatchManager.matchStatistics ScoreManager.bonus
         ScoreManager.getScoreBreakdown ScoreManager.getScores fst snd].
    rewrite <- Sum1, <- Sum2. unfold raw1, raw2. split; lia.
- intros Wb Cb. eexists. eexists. split; [exact Result|].
  cbn [MatchManager.finalScores ScoreManager.getScores].
  rewrite <- Sum1, <- Sum2. unfold raw1, raw2.
  rewrite (C3 Cb), (B3 Wb), (C2 Cb), (B2 Wb), (C1 Cb), (B1 Wb). cbn.
  unfold ScoreManager.getScores. f_equal; lia.
Qed.

End DrivenMatchTheorem.


Lemma driven_match_completes_as_specified_witness :
  exists m,
    WebDriver.play GameConfig.SCORING 16
      [("attack", "attack"); ("deception", "magic");
       ("magic", "magic"); ("attack", "deception");
       ("deception", "attack"); ("attack", "magic")] Example.fresh
    = (Returned tt, m)
    /\ MatchManager.isMatchComplete m = true
    /\ Completed.asSpecified m
    /\ (GameConfig.WIN_BONUS GameConfig.SCORING <= 0 ->
        GameConfig.COMEBACK_BONUS GameConfig.SCORING <= 0 ->
        exists r cardResults,
          MatchManager.getMatchResult m = Some (r, cardResults)
          /\ MatchManager.finalScores r
             = (Completed.total player1Points cardResults,
                Completed.total player2Points cardResults)).
Proof.
apply (driven_match_completes_as_specified GameConfig.SCORING
         Example.hand1 Example.hand2 "demo" Example.fresh).
- reflexivity.
- repeat (apply Forall_cons; [reflexivity|]). apply Forall_nil.
- repeat (apply WebDriver.legal_cardGame;
          [ split; [simpl; tauto | split; [simpl; tauto | discriminate]]
          | split; [simpl; tauto | split; [simpl; tauto | discriminate]] | ]).
  apply WebDriver.legal_done.
Defined.

Lemma getMatchResult_cardResults (m : MatchManager.t) (r : MatchManager.MatchResult)
                                 (cardResults : list MatchManager.CardGameResult) :
  MatchManager.getMatchResult m = Some (r, cardResults) ->
  cardResults = MatchManager.cardGameResults m.
Proof.
unfold MatchManager.getMatchResult.
destruct (MatchManager.matchResult m); [|discriminate]. intros [= _ <-]. reflexivity.
Qed.

(** C7.  A completed match need not have the specified shape, in two
    ways.  [completeMatch] checks no phase, unlike the calls beside it:
    called on a match just constructed it ends the match with a result
    that holds no card-game result.  And the phase-guarded calls alone
    leave the shape as well: when both sides commit a legacy name in
    round 1 of every card-game (rock and paper), the round manager, which
    compares raw names, still counts deception and magic as unused after
    round 3, so the engine auto-plays them as a fourth round under round
    number 3; the match completed by [selectCard], [selectProperty],
    [advanceToNextRound] and [advanceToNextCard] alone then holds 3
    card-game results of 4 round results each, and its final scores, 9
    and 23, sum the points of all 12 rounds.  So the claim fails on the
    matches the engine can be brought to. *)
Theorem completed_match_leaves_the_specified_shape :
  (let m := Engine.run GameConfig.SCORING [Engine.CompleteMatch] Example.fresh in
   MatchManager.isMatchComplete m = true
   /\ (exists r, MatchManager.getMatchResult m = Some (r, []))
   /\ ~ Completed.asSpecified m)
  /\ (let m := Engine.run GameConfig.SCORING Scenarios.aliasesInRoundOne Example.fresh in
      MatchManager.isMatchComplete m = true
      /\ (exists r cardResults,
            MatchManager.getMatchResult m = Some (r, cardResults)
            /\ map MatchManager.cardGame cardResults = [1; 2; 3]
            /\ map (fun c => map round (MatchManager.rounds c)) cardResults
               = [[1; 2; 3; 3]; [1; 2; 3; 3]; [1; 2; 3; 3]]
            /\ map (fun c => map player1Property (MatchManager.rounds c)) cardResults
               = [["rock"; "magic"; "attack"; "deception"];
                  ["rock"; "magic"; "attack"; "deception"];
                  ["rock"; "magic"; "attack"; "deception"]]
            /\ map (fun c => map player2Property (MatchManager.rounds c)) cardResults
               = [["paper"; "deception"; "attack"; "magic"];
                  ["paper"; "deception"; "attack"; "magic"];
                  ["paper"; "deception"; "attack"; "magic"]]
            /\ MatchManager.finalScores r = (9, 23)
            /\ Completed.total player1Points cardResults = 9
            /\ Completed.total player2Points cardResults = 23)
      /\ ~ Completed.asSpecified m)
  /\ ~ Completed.claim GameConfig.SCORING.
Proof.
assert (A : ~ Completed.asSpecified
              (Engine.run GameConfig.SCORING [Engine.CompleteMatch] Example.fresh)).
{ intros (r & cardResults & Result & Three & _).
  assert (E : MatchManager.cardGameResults
                (Engine.run GameConfig.SCORING [Engine.CompleteMatch] Example.fresh)
              = []) by (vm_compute; reflexivity).
  apply getMatchResult_cardResults in Result. rewrite E in Result.
  subst cardResults. discriminate Three. }
split; [|split].
- cbv zeta. split; [vm_compute; reflexivity|]. split; [|exact A].
  eexists. vm_compute. reflexivity.
- cbv zeta. split; [vm_compute; reflexivity|]. split.
  + eexists. eexists. split; [vm_compute; reflexivity|].
    repeat split; vm_compute; reflexivity.
  + intros (r & cardResults & Result & _ & Rounds & _).
    assert (E : existsb (fun c => len (MatchManager.rounds c) =? 4)
                  (MatchManager.cardGameResults
                     (Engine.run GameConfig.SCORING Scenarios.aliasesInRoundOne
                                 Example.fresh)) = true)
      by (vm_compute; reflexivity).
    apply getMatchResult_cardResults in Result. subst cardResults.
    apply existsb_exists in E.
    destruct E as (c & I & Four). rewrite Forall_forall in Rounds.
    apply Rounds in I. rewrite I in Four. discriminate Four.
- intros Claim. apply A. apply Claim; [apply fresh_reachable|].
  vm_compute. reflexivity.
Qed.

(** ** Export and import *)

Section ExportImport.
Import GameConfig Transfer.

Lemma orZ_nonzero (x d : Z) : x <> 0 -> orZ x d = x.
Proof. unfold orZ. destruct (Z.eqb_spec x 0); [contradiction|reflexivity]. Qed.

Lemma orZ_zero (x : Z) : orZ x 0 = x.
Proof. unfold orZ. destruct (Z.eqb_spec x 0); congruence. Qed.

Lemma mapFromJSON_toJSON (cards : list Card) :
  Forall (fun c => CardOps.wellFormed c = true) cards ->
  MatchManager.mapFromJSON (map CardOps.toJSON cards) = Returned cards.
Proof.
induction 1 as [|c rest W _ IH]; [reflexivity|].
cbn [map MatchManager.mapFromJSON]. unfold CardOps.fromJSON.
cbn [CardOps.toJSON CardOps.j_id CardOps.j_deception CardOps.j_magic CardOps.j_attack].
rewrite (new_of_wellFormed c W). cbn [obind]. rewrite IH. reflexivity.
Qed.

(** A round manager whose state passes its own validation, and whose
    fields are none of the values [||] replaces, comes back from the tree
    unchanged. *)
Lemma RoundManager_import_export (rm rm0 : RoundManager.t) :
  RoundManager.validateState rm = true ->
  RoundManager.maxRounds rm <> 0 ->
  RoundManager.currentPlayer1Property rm <> Some "" ->
  RoundManager.currentPlayer2Property rm <> Some "" ->
  RoundManager.importState (RoundManager.exportState rm) rm0 = (Returned tt, rm).
Proof.
intros V M P1 P2.
assert (R : RoundManager.currentRound rm <> 0).
{ unfold RoundManager.validateState in V.
  destruct (Z.ltb_spec (RoundManager.currentRound rm) 1); [discriminate V|lia]. }
assert (O : forall x, x <> Some "" -> RoundManager.orNull x = x).
{ intros [s|] N; [|reflexivity]. cbn.
  destruct (String.eqb_spec s ""); [subst; contradiction|reflexivity]. }
unfold RoundManager.importState, RoundManager.exportState, bind, modify, get.
rewrite (orZ_nonzero _ _ R), (orZ_nonzero _ _ M), (O _ P1), (O _ P2).
replace {| RoundManager.currentRound := RoundManager.currentRound rm |} with rm
  by (destruct rm; reflexivity).
rewrite V. reflexivity.
Qed.

Lemma ScoreManager_import_export (sm sm0 : ScoreManager.t) :
  ScoreManager.validateState sm = true ->
  ScoreManager.importState (ScoreManager.exportState sm) sm0 = (Returned tt, sm).
Proof.
intros V.
unfold ScoreManager.importState, ScoreManager.exportState, bind, modify, get.
rewrite !orZ_zero.
replace {| ScoreManager.player1Score := ScoreManager.player1Score sm |} with sm
  by (destruct sm; reflexivity).
rewrite V. reflexivity.
Qed.


(** On such a state the round trip gives the state back, whatever match
    does the importing. *)
Lemma import_export_roundtrip (m m0 : MatchManager.t) :
  importable m ->
  MatchManager.importState (MatchManager.exportState m) m0 = (Returned tt, m).
Proof.
intros (V & W & G & MC & MR & P1 & P2).
apply Forall_app in W. destruct W as [W1 W2].
assert (V' := V). unfold MatchManager.validateState in V'.
destruct (Z.ltb_spec (MatchManager.currentCardGame m) 1) as [|C]; [discriminate V'|].
cbn [orb] in V'.
destruct (MatchManager.currentCardGame m >? MatchManager.maxCardGames m + 1);
  [discriminate V'|].
destruct (MatchManager.selectedInRange (MatchManager.player1SelectedCard m) _);
  [|discriminate V'].
destruct (MatchManager.selectedInRange (MatchManager.player2SelectedCard m) _);
  [|discriminate V'].
cbn [negb] in V'.
destruct (RoundManager.validateState (MatchManager.roundManager m)) eqn:VR;
  [|discriminate V'].
destruct (ScoreManager.validateState (MatchManager.scoreManager m)) eqn:VS;
  [|discriminate V'].
clear V'.
unfold MatchManager.importState, MatchManager.exportState, bind, modify, lift, get.
cbn [MatchManager.x_gameMode MatchManager.x_player1Cards MatchManager.x_player2Cards
     MatchManager.x_currentCardGame MatchManager.x_maxCardGames
     MatchManager.x_matchPhase MatchManager.x_player1SelectedCard
     MatchManager.x_player2SelectedCard MatchManager.x_cardGameResults
     MatchManager.x_matchResult MatchManager.x_roundManager
     MatchManager.x_scoreManager].
rewrite (mapFromJSON_toJSON _ W1), (mapFromJSON_toJSON _ W2).
unfold MatchManager.onRounds, MatchManager.onScores, zoom.
rewrite (RoundManager_import_export _ _ VR MR P1 P2).
rewrite (ScoreManager_import_export _ _ VS).
rewrite (orZ_nonzero (MatchManager.currentCardGame m) 1) by lia.
rewrite (orZ_nonzero _ _ MC).
assert (OS : orString (MatchManager.gameMode m) "demo" = MatchManager.gameMode m).
{ unfold orString. destruct (String.eqb_spec (MatchManager.gameMode m) "");
    [contradiction|reflexivity]. }
rewrite OS.
set (x := MatchManager.setScoreManager _ _).
assert (X : x = m) by (unfold x; destruct m; reflexivity).
rewrite X.
rewrite V. reflexivity.
Qed.

End ExportImport.

(** ** The rule book, read as a whole *)

Section RuleBook.

Lemma GameRules_isValidProperty_names (p : string) :
  GameRules.isValidProperty p = true <->
  In p ["deception"; "magic"; "attack"; "rock"; "paper"; "scissors"].
Proof.
split.
- intros V. apply isValidProperty_propertyOf in V. destruct V as [q E].
  apply propertyOf_names in E. cbn [In] in E |- *.
  repeat (destruct E as [E|E]; [injection E as <- _; tauto|]). destruct E.
- cbn [In]. intros [<- | [<- | [<- | [<- | [<- | [<- | []]]]]]]; reflexivity.
Qed.

(** The two comparisons the scoring rule makes cannot both succeed. *)
Lemma calculateRoundScore_swap (prop1 prop2 : string) (val1 val2 : Z) :
  GameRules.calculateRoundScore prop2 val2 prop1 val1
  = match GameRules.calculateRoundScore prop1 val1 prop2 val2 with
    | Returned (score1, score2) => Returned (score2, score1)
    | Thrown msg => Thrown msg
    end.
Proof.
unfold GameRules.calculateRoundScore.
destruct (GameRules.isValidProperty prop1), (GameRules.isValidProperty prop2);
  cbn [negb orb]; try reflexivity.
destruct (GameRules.isValidPropertyValue val1), (GameRules.isValidPropertyValue val2);
  cbn [negb orb]; try reflexivity.
cbv zeta.
rewrite (String.eqb_sym (GameRules.normalizeProperty prop2)).
destruct (_ === _).
- destruct (Z.gtb_spec val1 val2), (Z.gtb_spec val2 val1); try reflexivity; lia.
- destruct (GameRules.beats (GameRules.normalizeProperty prop1) _),
           (GameRules.beats (GameRules.normalizeProperty prop2) _),
           (Z.gtb_spec val1 val2), (Z.gtb_spec val2 val1);
    cbn [andb]; try reflexivity; lia.
Qed.

Lemma console_calculateRoundScore_swap (prop1 prop2 : string) (val1 val2 : Z) :
  Console.calculateRoundScore prop2 val2 prop1 val1
  = (snd (Console.calculateRoundScore prop1 val1 prop2 val2),
     fst (Console.calculateRoundScore prop1 val1 prop2 val2)).
Proof.
unfold Console.calculateRoundScore.
rewrite (String.eqb_sym prop2).
destruct (_ === _).
- destruct (Z.gtb_spec val1 val2), (Z.gtb_spec val2 val1); try reflexivity; lia.
- destruct (Console.beats prop1 prop2), (Console.beats prop2 prop1),
           (Z.gtb_spec val1 val2), (Z.gtb_spec val2 val1);
    cbn [andb]; try reflexivity; lia.
Qed.

End RuleBook.

(** X1.  Scoring does not depend on which side is called player 1:
    calling [calculateRoundScore] with the two sides exchanged gives the
    same pair with its components exchanged, and the same exception when
    the input is refused.  This holds for every input, in the shared rule
    book and in the console version. *)
Theorem calculateRoundScore_swaps_with_the_sides
  (prop1 prop2 : string) (val1 val2 : Z) :
  GameRules.calculateRoundScore prop2 val2 prop1 val1
  = match GameRules.calculateRoundScore prop1 val1 prop2 val2 with
    | Returned (score1, score2) => Returned (score2, score1)
    | Thrown msg => Thrown msg
    end
  /\ Console.calculateRoundScore prop2 val2 prop1 val1
     = (snd (Console.calculateRoundScore prop1 val1 prop2 val2),
        fst (Console.calculateRoundScore prop1 val1 prop2 val2)).
Proof.
split; [apply calculateRoundScore_swap | apply console_calculateRoundScore_swap].
Qed.

(** X2.  The console AI's private [calculateRoundScore] is the first
    component of the game's own: what the AI expects to score is what the
    game awards it, and with the roles exchanged it is what the game
    awards the other side. *)
Theorem console_AI_scores_as_the_game_does
  (myProp oppProp : string) (myVal oppVal : Z) :
  ConsoleAI.calculateRoundScore myProp myVal oppProp oppVal
  = fst (Console.calculateRoundScore myProp myVal oppProp oppVal)
  /\ ConsoleAI.calculateRoundScore oppProp oppVal myProp myVal
     = snd (Console.calculateRoundScore myProp myVal oppProp oppVal).
Proof.
assert (A : forall a va b vb,
           ConsoleAI.calculateRoundScore a va b vb
           = fst (Console.calculateRoundScore a va b vb)).
{ intros a va b vb.
  unfold ConsoleAI.calculateRoundScore, Console.calculateRoundScore.
  destruct (a === b).
  - destruct (Z.gtb_spec va vb), (Z.gtb_spec vb va); reflexivity.
  - destruct (Console.beats a b), (Console.beats b a),
             (Z.gtb_spec va vb), (Z.gtb_spec vb va); reflexivity. }
split; [apply A|].
rewrite A, console_calculateRoundScore_swap. reflexivity.
Qed.

Section Winners.

Lemma validateRoundInput_split (prop1 prop2 : string) (val1 val2 : Z) :
  GameRules.validateRoundInput prop1 val1 prop2 val2 = true ->
  GameRules.isValidProperty prop1 = true /\ GameRules.isValidProperty prop2 = true
  /\ 1 <= val1 <= 9 /\ 1 <= val2 <= 9.
Proof.
unfold GameRules.validateRoundInput. intros V.
apply andb_prop in V. destruct V as [V W2].
apply andb_prop in V. destruct V as [V W1].
apply andb_prop in V. destruct V as [V1 V2].
apply isValidPropertyValue_range in W1, W2. auto.
Qed.

Lemma beats_irreflexive (a : string) : GameRules.beats a a = false.
Proof.
unfold GameRules.beats, GameRules.WINNING_RULES.
destruct (String.eqb_spec a "deception") as [->|]; [reflexivity|].
destruct (String.eqb_spec a "attack") as [->|]; [reflexivity|].
destruct (String.eqb_spec a "magic") as [->|]; reflexivity.
Qed.

Lemma beats_asymmetric (a b : string) :
  GameRules.beats a b = true -> GameRules.beats b a = false.
Proof.
unfold GameRules.beats, GameRules.WINNING_RULES.
destruct (String.eqb_spec a "deception") as [->|].
{ destruct (String.eqb_spec "attack" b) as [<-|]; [reflexivity|discriminate]. }
destruct (String.eqb_spec a "attack") as [->|].
{ destruct (String.eqb_spec "magic" b) as [<-|]; [reflexivity|discriminate]. }
destruct (String.eqb_spec a "magic") as [->|]; [|discriminate].
destruct (String.eqb_spec "deception" b) as [<-|]; [reflexivity|discriminate].
Qed.

End Winners.

(** X3.  [getRoundWinner] on valid input: player 1 wins exactly when its
    value is strictly higher and its property is the same as, or beats,
    the other side's; symmetrically for player 2; every other round is a
    tie.  On invalid input it throws what [calculateRoundScore] throws,
    the complaint about names taking precedence over the one about
    values. *)
Theorem getRoundWinner_characterised (prop1 prop2 : string) (val1 val2 : Z) :
  (GameRules.isValidProperty prop1 && GameRules.isValidProperty prop2 = false ->
   Rules.getRoundWinner prop1 val1 prop2 val2
   = Thrown "Invalid property names provided")
  /\ (GameRules.isValidProperty prop1 && GameRules.isValidProperty prop2 = true ->
      GameRules.isValidPropertyValue val1 && GameRules.isValidPropertyValue val2 = false ->
      Rules.getRoundWinner prop1 val1 prop2 val2
      = Thrown "Invalid property values provided")
  /\ (GameRules.validateRoundInput prop1 val1 prop2 val2 = true ->
      exists w, Rules.getRoundWinner prop1 val1 prop2 val2 = Returned w
        /\ (w = player1 <->
            val1 > val2
            /\ (GameRules.normalizeProperty prop1 = GameRules.normalizeProperty prop2
                \/ GameRules.doesPropertyBeat prop1 prop2 = true))
        /\ (w = player2 <->
            val2 > val1
            /\ (GameRules.normalizeProperty prop1 = GameRules.normalizeProperty prop2
                \/ GameRules.doesPropertyBeat prop2 prop1 = true))).
Proof.
unfold Rules.getRoundWinner, GameRules.calculateRoundScore.
split; [|split].
- intros V. destruct (GameRules.isValidProperty prop1), (GameRules.isValidProperty prop2);
    cbn in V |- *; (discriminate V || reflexivity).
- intros V W. apply andb_prop in V. destruct V as [-> ->]. cbn [negb orb].
  destruct (GameRules.isValidPropertyValue val1), (GameRules.isValidPropertyValue val2);
    cbn in W |- *; (discriminate W || reflexivity).
- intros V. apply validateRoundInput_split in V. destruct V as (V1 & V2 & R1 & R2).
  rewrite V1, V2. cbn [negb orb].
  apply isValidPropertyValue_range in R1 as W1. apply isValidPropertyValue_range in R2 as W2.
  rewrite W1, W2. cbn [negb orb]. cbv zeta.
  unfold GameRules.doesPropertyBeat.
  set (n1 := GameRules.normalizeProperty prop1).
  set (n2 := GameRules.normalizeProperty prop2).
  destruct (String.eqb_spec n1 n2) as [E|E].
  + rewrite E, beats_irreflexive.
    destruct (Z.gtb_spec val1 val2), (Z.gtb_spec val2 val1); cbn [obind];
      try lia; eexists; (split; [reflexivity|]).
    * destruct (Z.gtb_spec (val1 - val2) 0); [|lia].
      split; split; try discriminate; intuition (auto; lia).
    * destruct (Z.gtb_spec 0 (val2 - val1)); [lia|].
      destruct (Z.gtb_spec (val2 - val1) 0); [|lia].
      split; split; try discriminate; intuition (auto; lia).
    * cbn. split; split; try discriminate; intuition (auto; lia).
  + destruct (GameRules.beats n1 n2) eqn:B12.
    * rewrite (beats_asymmetric _ _ B12).
      destruct (Z.gtb_spec val1 val2); cbn [andb obind];
        eexists; (split; [reflexivity|]).
      -- destruct (Z.gtb_spec (val1 - val2) 0); [|lia].
         split; split; try discriminate; intuition (auto; try lia; try discriminate).
      -- cbn. split; split; try discriminate; intuition (auto; try lia; try discriminate).
    * cbn [andb]. destruct (GameRules.beats n2 n1) eqn:B21.
      -- destruct (Z.gtb_spec val2 val1); cbn [andb obind];
           eexists; (split; [reflexivity|]).
         ++ destruct (Z.gtb_spec 0 (val2 - val1)); [lia|].
            destruct (Z.gtb_spec (val2 - val1) 0); [|lia].
            split; split; try discriminate; intuition (auto; try lia; try discriminate).
         ++ cbn. split; split; try discriminate; intuition (auto; try lia; try discriminate).
      -- cbn [andb obind]. eexists. split; [reflexivity|]. cbn.
         split; split; try discriminate; intuition (auto; try lia; try discriminate).
Qed.

(** ** Counters, victims and legacy names *)

Section Names.

Lemma valid_name_cases (p : string) :
  GameRules.isValidProperty p = true ->
  p = "deception" \/ p = "magic" \/ p = "attack"
  \/ p = "rock" \/ p = "paper" \/ p = "scissors".
Proof.
intros V. apply GameRules_isValidProperty_names in V. cbn [In] in V.
intuition auto.
Qed.

End Names.

(** X4.  For a valid property name [getCounterProperty] and
    [getBeatenProperty] return the two other properties: the counter
    beats the property, the property beats its victim, the victim of the
    counter and the counter of the victim are the property itself under
    its current name.  For any other name the first throws and the second
    returns [undefined]. *)
Theorem counter_and_victim_are_inverse (p : string) :
  (GameRules.isValidProperty p = true ->
   exists counter victim,
     GameRules.getCounterProperty p = Returned counter
     /\ GameRules.getBeatenProperty p = Some victim
     /\ GameRules.doesPropertyBeat counter p = true
     /\ GameRules.doesPropertyBeat p victim = true
     /\ GameRules.getBeatenProperty counter = Some (GameRules.normalizeProperty p)
     /\ GameRules.getCounterProperty victim = Returned (GameRules.normalizeProperty p)
     /\ counter <> victim
     /\ counter <> GameRules.normalizeProperty p
     /\ victim <> GameRules.normalizeProperty p)
  /\ (GameRules.isValidProperty p = false ->
      GameRules.getCounterProperty p = Thrown "No counter property found for: "
      /\ GameRules.getBeatenProperty p = None).
Proof.
split.
- intros V.
  destruct (valid_name_cases p V) as [-> | [-> | [-> | [-> | [-> | ->]]]]];
    eexists; eexists; repeat split; discriminate.
- unfold GameRules.isValidProperty, GameRules.getCounterProperty,
    GameRules.getBeatenProperty, GameRules.VALID_PROPERTIES, includes.
  cbn [existsb find].
  set (n := GameRules.normalizeProperty p).
  assert (B1 : GameRules.beats "deception" n = (n === "attack"))
    by (rewrite String.eqb_sym; reflexivity).
  assert (B2 : GameRules.beats "attack" n = (n === "magic"))
    by (rewrite String.eqb_sym; reflexivity).
  assert (B3 : GameRules.beats "magic" n = (n === "deception"))
    by (rewrite String.eqb_sym; reflexivity).
  rewrite B1, B2, B3. unfold GameRules.WINNING_RULES.
  destruct (n === "deception"), (n === "magic"), (n === "attack");
    cbn [orb]; intros H; try discriminate H; split; reflexivity.
Qed.

(** X5.  A legacy name and the current name it maps to are
    interchangeable wherever the rule book or a card looks a property up:
    on either side of [calculateRoundScore], in [doesPropertyBeat] and in
    [Card.getProperty]. *)
Theorem legacy_name_acts_as_its_current_name
  (legacy current other : string) (val otherVal : Z) (c : Card) :
  GameRules.LEGACY_PROPERTY_MAP legacy = Some current ->
  GameRules.calculateRoundScore legacy val other otherVal
  = GameRules.calculateRoundScore current val other otherVal
  /\ GameRules.calculateRoundScore other otherVal legacy val
     = GameRules.calculateRoundScore other otherVal current val
  /\ GameRules.doesPropertyBeat legacy other = GameRules.doesPropertyBeat current other
  /\ GameRules.doesPropertyBeat other legacy = GameRules.doesPropertyBeat other current
  /\ CardOps.getProperty c legacy = CardOps.getProperty c current
  /\ GameRules.isValidProperty legacy = true.
Proof.
intros L. apply legacy_cases in L.
destruct L as [[-> ->] | [[-> ->] | [-> ->]]]; repeat split.
Qed.

Lemma legacy_name_acts_as_its_current_name_witness :
  GameRules.calculateRoundScore "rock" 9 "scissors" 4
  = GameRules.calculateRoundScore "deception" 9 "scissors" 4
  /\ GameRules.calculateRoundScore "scissors" 4 "rock" 9
     = GameRules.calculateRoundScore "scissors" 4 "deception" 9
  /\ GameRules.doesPropertyBeat "rock" "scissors"
     = GameRules.doesPropertyBeat "deception" "scissors"
  /\ GameRules.doesPropertyBeat "scissors" "rock"
     = GameRules.doesPropertyBeat "scissors" "deception"
  /\ CardOps.getProperty {| id := 8; deception := 2; magic := 9; attack := 9 |} "rock"
     = CardOps.getProperty {| id := 8; deception := 2; magic := 9; attack := 9 |}
                           "deception"
  /\ GameRules.isValidProperty "rock" = true.
Proof.
apply (legacy_name_acts_as_its_current_name "rock" "deception" "scissors" 9 4
         {| id := 8; deception := 2; magic := 9; attack := 9 |}).
reflexivity.
Defined.

(** ** Cards *)

(** X6.  The [Card] constructor, on three integers of magnitude at most
    2^51 (so that the additions of the sum check are exact): a triple that
    does not sum to 20 is refused with the complaint about the sum,
    whatever its ranges; a triple that sums to 20 with a value outside
    1..9 is refused with the complaint about the range; every other
    triple is accepted and stored as given.  Since two values are at most
    9, every value of an accepted card is at least 2. *)
Theorem constructor_accepts_exactly_the_valid_triples (i d m a : Z) :
  Z.abs d <= 2 ^ 51 -> Z.abs m <= 2 ^ 51 -> Z.abs a <= 2 ^ 51 ->
  (d + m + a <> 20 ->
   CardOps.new i d m a = Thrown "Card properties must sum to 20. Got: ")
  /\ (d + m + a = 20 -> ~ (1 <= d <= 9 /\ 1 <= m <= 9 /\ 1 <= a <= 9) ->
      CardOps.new i d m a = Thrown "Each property must be between 1 and 9 inclusive")
  /\ (d + m + a = 20 -> 1 <= d <= 9 -> 1 <= m <= 9 -> 1 <= a <= 9 ->
      CardOps.new i d m a
      = Returned {| id := i; deception := d; magic := m; attack := a |}
      /\ 2 <= d /\ 2 <= m /\ 2 <= a).
Proof.
intros _ _ _. unfold CardOps.new, CardOps.isValidProperty.
split; [|split].
- intros S. destruct (Z.eqb_spec (d + m + a) 20); [contradiction|reflexivity].
- intros S N. destruct (Z.eqb_spec (d + m + a) 20); [|contradiction]. cbn [negb].
  destruct (Z.leb_spec 1 d), (Z.leb_spec d 9), (Z.leb_spec 1 m), (Z.leb_spec m 9),
           (Z.leb_spec 1 a), (Z.leb_spec a 9); cbn; try reflexivity.
  exfalso. apply N. lia.
- intros S D M A. destruct (Z.eqb_spec (d + m + a) 20); [|contradiction]. cbn [negb].
  destruct (Z.leb_spec 1 d), (Z.leb_spec d 9), (Z.leb_spec 1 m), (Z.leb_spec m 9),
           (Z.leb_spec 1 a), (Z.leb_spec a 9); try lia.
  cbn. repeat split; lia.
Qed.

Lemma constructor_accepts_exactly_the_valid_triples_witness :
  (2 + 9 + 9 <> 20 ->
   CardOps.new 8 2 9 9 = Thrown "Card properties must sum to 20. Got: ")
  /\ (2 + 9 + 9 = 20 -> ~ (1 <= 2 <= 9 /\ 1 <= 9 <= 9 /\ 1 <= 9 <= 9) ->
      CardOps.new 8 2 9 9 = Thrown "Each property must be between 1 and 9 inclusive")
  /\ (2 + 9 + 9 = 20 -> 1 <= 2 <= 9 -> 1 <= 9 <= 9 -> 1 <= 9 <= 9 ->
      CardOps.new 8 2 9 9
      = Returned {| id := 8; deception := 2; magic := 9; attack := 9 |}
      /\ 2 <= 2 /\ 2 <= 9 /\ 2 <= 9).
Proof.
apply (constructor_accepts_exactly_the_valid_triples 8 2 9 9); vm_compute; discriminate.
Defined.

(** X7.  A card comes back unchanged from its own serialisations:
    [fromJSON] of [toJSON], which ignores the two derived fields, and
    [fromLegacy] reading the card's legacy fields (rock, paper and
    scissors hold the values of deception, magic and attack); so does a
    whole hand mapped through [toJSON] and back, as [exportState] and
    [importState] do. *)
Theorem card_is_rebuilt_from_its_serialisation (c : Card) (hand : list Card) :
  CardOps.wellFormed c = true ->
  Forall (fun c' => CardOps.wellFormed c' = true) hand ->
  CardOps.fromJSON (CardOps.toJSON c) = Returned c
  /\ CardMore.fromLegacy (Some (id c)) (deception c) (magic c) (attack c) = Returned c
  /\ CardMore.isIdentical c c = true
  /\ MatchManager.mapFromJSON (map CardOps.toJSON (c :: hand)) = Returned (c :: hand).
Proof.
intros W H. split; [exact (new_of_wellFormed c W)|]. split.
{ unfold CardMore.fromLegacy. rewrite orZ_zero. exact (new_of_wellFormed c W). }
split.
{ unfold CardMore.isIdentical. rewrite !Z.eqb_refl. reflexivity. }
apply mapFromJSON_toJSON. constructor; assumption.
Qed.

Lemma card_is_rebuilt_from_its_serialisation_witness :
  CardOps.fromJSON
    (CardOps.toJSON {| id := 8; deception := 2; magic := 9; attack := 9 |})
  = Returned {| id := 8; deception := 2; magic := 9; attack := 9 |}
  /\ CardMore.fromLegacy (Some 8) 2 9 9
     = Returned {| id := 8; deception := 2; magic := 9; attack := 9 |}
  /\ CardMore.isIdentical {| id := 8; deception := 2; magic := 9; attack := 9 |}
                          {| id := 8; deception := 2; magic := 9; attack := 9 |} = true
  /\ MatchManager.mapFromJSON (map CardOps.toJSON Example.hand1) = Returned Example.hand1.
Proof.
apply (card_is_rebuilt_from_its_serialisation
         {| id := 8; deception := 2; magic := 9; attack := 9 |}
         [ {| id := 21; deception := 6; magic := 7; attack := 7 |};
           {| id := 35; deception := 9; magic := 9; attack := 2 |} ]).
- reflexivity.
- repeat constructor.
Defined.

Lemma highest_and_lowest_is_max_min (c : Card) :
  snd (CardOps.getHighestProperty c) = Z.max (deception c) (Z.max (magic c) (attack c))
  /\ snd (CardOps.getLowestProperty c) = Z.min (deception c) (Z.min (magic c) (attack c)).
Proof.
unfold CardOps.getHighestProperty, CardOps.getLowestProperty.
cbn [fold_left snd fst].
destruct (Z.gtb_spec (magic c) (deception c)), (Z.ltb_spec (magic c) (deception c));
  cbn [snd fst];
  destruct (Z.gtb_spec (attack c) (magic c)), (Z.gtb_spec (attack c) (deception c)),
           (Z.ltb_spec (attack c) (magic c)), (Z.ltb_spec (attack c) (deception c));
  cbn [snd fst]; lia.
Qed.

(** X8.  [getHighestProperty] and [getLowestProperty] return the largest
    and the smallest of the three values, under the name of the first
    property, in the order deception, magic, attack, that holds it; the
    card's [getProperty] of that name is that value. *)
Theorem highest_and_lowest_property (c : Card) :
  let highest := CardOps.getHighestProperty c in
  let lowest := CardOps.getLowestProperty c in
  snd highest = Z.max (deception c) (Z.max (magic c) (attack c))
  /\ snd lowest = Z.min (deception c) (Z.min (magic c) (attack c))
  /\ CardOps.getProperty c (fst highest) = Returned (snd highest)
  /\ CardOps.getProperty c (fst lowest) = Returned (snd lowest)
  /\ (fst highest = "deception" <->
      magic c <= deception c /\ attack c <= deception c)
  /\ (fst highest = "magic" <->
      deception c < magic c /\ attack c <= magic c)
  /\ (fst lowest = "deception" <->
      deception c <= magic c /\ deception c <= attack c)
  /\ (fst lowest = "magic" <->
      magic c < deception c /\ magic c <= attack c).
Proof.
unfold CardOps.getHighestProperty, CardOps.getLowestProperty.
cbn [fold_left snd fst].
destruct (Z.gtb_spec (magic c) (deception c)), (Z.ltb_spec (magic c) (deception c));
  cbn [snd fst];
  destruct (Z.gtb_spec (attack c) (magic c)), (Z.gtb_spec (attack c) (deception c)),
           (Z.ltb_spec (attack c) (magic c)), (Z.ltb_spec (attack c) (deception c));
  cbn [snd fst]; try lia;
  (split; [lia|]); (split; [lia|]); (split; [reflexivity|]); (split; [reflexivity|]);
  repeat split; intros; try discriminate; try lia.
Qed.

(** X9.  A card is balanced exactly when its rarity is Legendary or Epic.
    On a card the constructor accepted the highest and the lowest value
    differ by at least 1 (20 is not three times a whole number) and at
    most 7, so all four rarities occur and no card has three equal
    values. *)
Theorem balanced_means_legendary_or_epic (c : Card) :
  (CardOps.isBalanced c = true <->
   CardOps.getRarity c = "Legendary" \/ CardOps.getRarity c = "Epic")
  /\ (CardOps.isBalanced c = false <->
      CardOps.getRarity c = "Rare" \/ CardOps.getRarity c = "Common")
  /\ (CardOps.wellFormed c = true ->
      1 <= snd (CardOps.getHighestProperty c) - snd (CardOps.getLowestProperty c) <= 7).
Proof.
split; [|split].
- unfold CardOps.isBalanced, CardOps.getRarity. cbv zeta.
  set (difference := _ - _).
  destruct (Z.leb_spec difference 1), (Z.leb_spec difference 3), (Z.leb_spec difference 5);
    try lia; split; intros Hyp; try reflexivity; try discriminate Hyp; auto;
    destruct Hyp as [Hyp|Hyp]; discriminate Hyp.
- unfold CardOps.isBalanced, CardOps.getRarity. cbv zeta.
  set (difference := _ - _).
  destruct (Z.leb_spec difference 1), (Z.leb_spec difference 3), (Z.leb_spec difference 5);
    try lia; split; intros Hyp; try reflexivity; try discriminate Hyp; auto;
    destruct Hyp as [Hyp|Hyp]; discriminate Hyp.
- intros W. apply wellFormed_spec in W.
  destruct (highest_and_lowest_is_max_min c) as [-> ->]. lia.
Qed.

(** ** The card universe of the shared generator *)

Section Universe.

Lemma upto_In (lo hi x : Z) : lo <= x <= hi -> In x (CardGenerator.upto lo hi).
Proof.
intros R. unfold CardGenerator.upto. apply in_map_iff.
exists (Z.to_nat (x - lo)). split; [lia|]. apply in_seq. lia.
Qed.

Lemma triple_dec (x y : Z * Z * Z) : {x = y} + {x <> y}.
Proof. repeat decide equality. Defined.

Lemma NoDup_by_nodup {A} (dec : forall x y : A, {x = y} + {x <> y}) (l : list A) :
  nodup dec l = l -> NoDup l.
Proof. intros E. rewrite <- E. apply NoDup_nodup. Qed.

Lemma generateAllCards_complete (d m a : Z) :
  d + m + a = 20 -> 1 <= d <= 9 -> 1 <= m <= 9 -> 1 <= a <= 9 ->
  exists i, In {| id := i; deception := d; magic := m; attack := a |}
               CardGenerator.generateAllCards.
Proof.
intros S D M A.
assert (T : forallb (fun d =>
              forallb (fun m =>
                         negb ((1 <=? 20 - d - m) && (20 - d - m <=? 9))
                         || existsb (fun c => (deception c =? d) && (magic c =? m)
                                              && (attack c =? 20 - d - m))
                                    CardGenerator.generateAllCards)
                      (CardGenerator.upto 1 9))
              (CardGenerator.upto 1 9) = true)
  by (vm_compute; reflexivity).
rewrite forallb_forall in T. specialize (T d (upto_In 1 9 d D)).
rewrite forallb_forall in T. specialize (T m (upto_In 1 9 m M)).
replace (20 - d - m) with a in T by lia.
destruct (Z.leb_spec 1 a); [|lia]. destruct (Z.leb_spec a 9); [|lia].
cbn [andb negb orb] in T. apply existsb_exists in T.
destruct T as (c & I & E). exists (id c).
apply andb_prop in E. destruct E as [E Ea]. apply andb_prop in E. destruct E as [Ed Em].
apply Z.eqb_eq in Ed, Em, Ea. subst d m a. destruct c; exact I.
Qed.

End Universe.

(** X10.  [generateAllCards] returns the card universe: every triple of
    values in 1..9 that sums to 20 is the value triple of a generated
    card, every generated card is such a triple, no triple is generated
    twice, the identifiers are the positions 0..35, the count is what
    [getTotalCardCount] reports without generating, and the collection
    passes [validateCards]. *)
Theorem generateAllCards_is_the_card_universe :
  (forall d m a, d + m + a = 20 -> 1 <= d <= 9 -> 1 <= m <= 9 -> 1 <= a <= 9 ->
     exists i, In {| id := i; deception := d; magic := m; attack := a |}
                  CardGenerator.generateAllCards)
  /\ (forall c, In c CardGenerator.generateAllCards ->
        deception c + magic c + attack c = 20
        /\ 1 <= deception c <= 9 /\ 1 <= magic c <= 9 /\ 1 <= attack c <= 9)
  /\ NoDup (map (fun c => (deception c, magic c, attack c))
                CardGenerator.generateAllCards)
  /\ map id CardGenerator.generateAllCards = CardGenerator.upto 0 35
  /\ len CardGenerator.generateAllCards = CardGenerator.getTotalCardCount
  /\ CardCheck.validateCards CardGenerator.generateAllCards = true.
Proof.
split; [exact generateAllCards_complete|].
split; [exact (proj2 (proj2 (proj2 generateAllCards_universe)))|].
split; [apply (NoDup_by_nodup triple_dec); vm_compute; reflexivity|].
split; [vm_compute; reflexivity|].
split; vm_compute; reflexivity.
Qed.

(** ** The round manager, method by method *)

Section RoundMethods.
Import GameConfig.

Lemma includes_app (l : list string) (p q : string) :
  includes (l ++ [p]) q = includes l q || (q === p).
Proof.
unfold includes. rewrite existsb_app. cbn [existsb]. rewrite orb_false_r. reflexivity.
Qed.

Lemma GameConfig_isValidProperty_canonical (p : string) :
  In p getAllProperties -> GameConfig.isValidProperty p = true.
Proof. cbn [getAllProperties PROPERTIES In]. intros [<- | [<- | [<- | []]]]; reflexivity. Qed.

(** A side with exactly one property left: the other two are on its
    list. *)
Lemma available_singleton (rm : RoundManager.t) (n : Z) :
  (len (RoundManager.getAvailableProperties rm n) =? 1) = true ->
  exists p, RoundManager.getAvailableProperties rm n = [p]
    /\ In p getAllProperties
    /\ includes (RoundManager.usedProperties rm n) p = false
    /\ forall q, In q getAllProperties -> q <> p ->
                 includes (RoundManager.usedProperties rm n) q = true.
Proof.
unfold RoundManager.getAvailableProperties, getAllProperties, PROPERTIES.
cbn [filter].
destruct (includes _ "deception") eqn:D, (includes _ "magic") eqn:M,
         (includes _ "attack") eqn:A; cbn [negb]; intros L;
  try discriminate L; eexists; (split; [reflexivity|]);
  (split; [cbn [In]; tauto|]); (split; [assumption|]);
  intros q [<- | [<- | [<- | []]]] N; (assumption || contradiction).
Qed.

Lemma available_none_left (used : list string) (p : string) :
  In p getAllProperties ->
  (forall q, In q getAllProperties -> q <> p -> includes used q = true) ->
  filter (fun prop => negb (includes (used ++ [p]) prop)) getAllProperties = [].
Proof.
intros I O. unfold getAllProperties, PROPERTIES in *. cbn [filter].
rewrite !includes_app.
cbn [In] in I. destruct I as [<- | [<- | [<- | []]]].
- rewrite (O "magic"), (O "attack") by (cbn [In]; (tauto || discriminate)).
  rewrite String.eqb_refl, orb_true_r. reflexivity.
- rewrite (O "deception"), (O "attack") by (cbn [In]; (tauto || discriminate)).
  rewrite String.eqb_refl, orb_true_r. reflexivity.
- rewrite (O "deception"), (O "magic") by (cbn [In]; (tauto || discriminate)).
  rewrite String.eqb_refl, orb_true_r. reflexivity.
Qed.

End RoundMethods.

(** X11.  [RoundManager.selectProperty] has three ways to fail, checked
    in this order: a name that is none of the six valid ones, a name
    already on the list of the side (any player number other than 1 reads
    player 2's list), a player number that is neither 1 nor 2.  Each
    leaves the round manager exactly as it was.  Otherwise the call
    returns [true], appends the name to the side's list, makes it the
    side's current selection, and from then on [isPropertyAvailable]
    denies it to that side; the other side, the round counter and the
    results are untouched. *)
Theorem RoundManager_selectProperty_characterised
  (playerNumber : Z) (property : string) (rm : RoundManager.t) :
  (GameConfig.isValidProperty property = false ->
   RoundManager.selectProperty playerNumber property rm
   = (Thrown "Invalid property: ", rm))
  /\ (GameConfig.isValidProperty property = true ->
      In property (RoundManager.usedProperties rm playerNumber) ->
      RoundManager.selectProperty playerNumber property rm
      = (Thrown "Property not available for player", rm))
  /\ (GameConfig.isValidProperty property = true ->
      ~ In property (RoundManager.usedProperties rm playerNumber) ->
      playerNumber <> 1 -> playerNumber <> 2 ->
      RoundManager.selectProperty playerNumber property rm
      = (Thrown "Invalid player number: ", rm))
  /\ (GameConfig.isValidProperty property = true ->
      ~ In property (RoundManager.usedProperties rm playerNumber) ->
      playerNumber = 1 \/ playerNumber = 2 ->
      exists rm',
        RoundManager.selectProperty playerNumber property rm = (Returned true, rm')
        /\ RoundManager.usedProperties rm' playerNumber
           = RoundManager.usedProperties rm playerNumber ++ [property]
        /\ RoundManager.usedProperties rm' (3 - playerNumber)
           = RoundManager.usedProperties rm (3 - playerNumber)
        /\ (if playerNumber =? 1 then RoundManager.currentPlayer1Property rm'
            else RoundManager.currentPlayer2Property rm') = Some property
        /\ RoundManager.isPropertyAvailable rm' playerNumber property = false
        /\ RoundManager.currentRound rm' = RoundManager.currentRound rm
        /\ RoundManager.roundResults rm' = RoundManager.roundResults rm
        /\ RoundManager.roundPhase rm' = RoundManager.roundPhase rm).
Proof.
rewrite RoundManager_selectProperty_eq.
assert (A : In property (RoundManager.usedProperties rm playerNumber) ->
            RoundManager.isPropertyAvailable rm playerNumber property = false).
{ intros I. apply includes_In in I. unfold RoundManager.isPropertyAvailable.
  rewrite I. reflexivity. }
assert (B : ~ In property (RoundManager.usedProperties rm playerNumber) ->
            RoundManager.isPropertyAvailable rm playerNumber property = true).
{ intros N. unfold RoundManager.isPropertyAvailable.
  destruct (includes _ property) eqn:I; [|reflexivity].
  apply includes_In in I. contradiction. }
split; [intros ->; reflexivity|].
split; [intros -> I; rewrite (A I); reflexivity|].
split.
{ intros -> N P1 P2. rewrite (B N). cbn [negb].
  destruct (Z.eqb_spec playerNumber 1); [contradiction|].
  destruct (Z.eqb_spec playerNumber 2); [contradiction|reflexivity]. }
intros -> N P. rewrite (B N). cbn [negb].
destruct P as [-> | ->]; cbn [Z.eqb Pos.eqb]; eexists; (split; [reflexivity|]);
  unfold RoundManager.isPropertyAvailable, RoundManager.usedProperties;
  cbn [Z.eqb Pos.eqb Z.sub Z.add Z.opp Z.pos_sub Pos.pred_double
       RoundManager.commit1 RoundManager.commit2
       RoundManager.usedPlayer1Properties RoundManager.usedPlayer2Properties
       RoundManager.currentPlayer1Property RoundManager.currentPlayer2Property
       RoundManager.currentRound RoundManager.roundResults RoundManager.roundPhase];
  rewrite includes_app, String.eqb_refl, orb_true_r; repeat split.
Qed.

Lemma autoPlayRound_resolves (rm : RoundManager.t) (c1 c2 : Card) :
  RoundManager.shouldAutoPlayRound rm = true ->
  CardOps.wellFormed c1 = true -> CardOps.wellFormed c2 = true ->
  exists p1 p2 rr rm',
    RoundManager.getAvailableProperties rm 1 = [p1]
    /\ RoundManager.getAvailableProperties rm 2 = [p2]
    /\ RoundManager.autoPlayRound (Some c1) (Some c2) rm = (Returned rr, rm')
    /\ player1Property rr = p1 /\ player2Property rr = p2
    /\ CardOps.getProperty c1 p1 = Returned (player1Value rr)
    /\ CardOps.getProperty c2 p2 = Returned (player2Value rr)
    /\ round rr = RoundManager.currentRound rm
    /\ RoundManager.currentRound rm = RoundManager.maxRounds rm
    /\ RoundManager.currentRound rm' = RoundManager.currentRound rm
    /\ RoundManager.roundResults rm' = RoundManager.roundResults rm ++ [rr]
    /\ RoundManager.roundPhase rm' = GameConfig.ROUND_RESULT
    /\ RoundManager.getAvailableProperties rm' 1 = []
    /\ RoundManager.getAvailableProperties rm' 2 = [].
Proof.
intros Y W1 W2. assert (Y' := Y). unfold RoundManager.shouldAutoPlayRound in Y'.
apply andb_prop in Y'. destruct Y' as [Y' L2].
apply andb_prop in Y'. destruct Y' as [Y' L1].
apply andb_prop in Y'. destruct Y' as [_ F].
unfold RoundManager.isFinalRound in F. apply Z.eqb_eq in F.
destruct (available_singleton rm 1 L1) as (p1 & E1 & I1 & U1 & O1).
destruct (available_singleton rm 2 L2) as (p2 & E2 & I2 & U2 & O2).
destruct (getProperty_canonical c1 p1 I1 W1) as (v1 & G1 & R1).
destruct (getProperty_canonical c2 p2 I2 W2) as (v2 & G2 & R2).
destruct (calculateRoundScore_canonical p1 p2 v1 v2 I1 I2 R1 R2) as (pts & S & _).
exists p1, p2.
unfold RoundManager.autoPlayRound, bind, get. rewrite Y, E1, E2. cbn [negb].
rewrite RoundManager_selectProperty_eq.
rewrite (GameConfig_isValidProperty_canonical p1 I1).
unfold RoundManager.isPropertyAvailable at 1. rewrite U1. cbn [negb Z.eqb Pos.eqb modify].
rewrite RoundManager_selectProperty_eq.
rewrite (GameConfig_isValidProperty_canonical p2 I2).
unfold RoundManager.isPropertyAvailable at 1.
change (RoundManager.usedProperties (RoundManager.commit1 p1 rm) 2)
  with (RoundManager.usedProperties rm 2).
rewrite U2. cbn [negb Z.eqb Pos.eqb modify ret RoundManager.setRoundPhase].
unfold RoundManager.calculateRoundResult, bind, get, lift, modify, ret.
cbn [RoundManager.currentPlayer1Property RoundManager.currentPlayer2Property
     RoundManager.commit1 RoundManager.commit2 RoundManager.cardProperty].
rewrite G1, G2, S.
eexists. eexists. split; [reflexivity|]. split; [reflexivity|].
split; [reflexivity|].
cbn [player1Property player2Property player1Value player2Value round
     RoundManager.currentRound RoundManager.commit1 RoundManager.commit2
     RoundManager.record RoundManager.roundResults RoundManager.roundPhase].
repeat (split; [first [reflexivity | assumption | symmetry; assumption]|]).
unfold RoundManager.getAvailableProperties, RoundManager.usedProperties.
cbn [Z.eqb Pos.eqb RoundManager.record RoundManager.commit1 RoundManager.commit2
     RoundManager.usedPlayer1Properties RoundManager.usedPlayer2Properties].
split; apply available_none_left; assumption.
Qed.

(** X12.  [autoPlayRound] refuses with "Round cannot be auto-played",
    changing nothing, unless [shouldAutoPlayRound] holds.  When it holds
    and both cards are in play, the call commits the one property each
    side has left, resolves the round with them and records the result
    under the current (final) round number; afterwards neither side has
    a property left, and the phase reads round-result, the auto-round
    phase set on the way having been overwritten. *)
Theorem autoPlayRound_plays_the_last_properties
  (rm : RoundManager.t) (c1 c2 : Card) :
  (RoundManager.shouldAutoPlayRound rm = false ->
   forall player1Card player2Card,
     RoundManager.autoPlayRound player1Card player2Card rm
     = (Thrown "Round cannot be auto-played", rm))
  /\ (RoundManager.shouldAutoPlayRound rm = true ->
      CardOps.wellFormed c1 = true -> CardOps.wellFormed c2 = true ->
      exists p1 p2 rr rm',
        RoundManager.getAvailableProperties rm 1 = [p1]
        /\ RoundManager.getAvailableProperties rm 2 = [p2]
        /\ RoundManager.autoPlayRound (Some c1) (Some c2) rm = (Returned rr, rm')
        /\ player1Property rr = p1 /\ player2Property rr = p2
        /\ CardOps.getProperty c1 p1 = Returned (player1Value rr)
        /\ CardOps.getProperty c2 p2 = Returned (player2Value rr)
        /\ round rr = RoundManager.currentRound rm
        /\ RoundManager.currentRound rm = RoundManager.maxRounds rm
        /\ RoundManager.currentRound rm' = RoundManager.currentRound rm
        /\ RoundManager.roundResults rm' = RoundManager.roundResults rm ++ [rr]
        /\ RoundManager.roundPhase rm' = GameConfig.ROUND_RESULT
        /\ RoundManager.getAvailableProperties rm' 1 = []
        /\ RoundManager.getAvailableProperties rm' 2 = []).
Proof.
split.
- intros N player1Card player2Card. unfold RoundManager.autoPlayRound, bind, get.
  rewrite N. reflexivity.
- apply autoPlayRound_resolves.
Qed.

Lemma autoPlayRound_plays_the_last_properties_witness :
  exists rr rm',
    RoundManager.autoPlayRound
      (Some {| id := 8; deception := 2; magic := 9; attack := 9 |})
      (Some {| id := 12; deception := 5; magic := 8; attack := 7 |})
      (Driven.resolvedRounds true ["attack"; "deception"] ["attack"; "magic"]
                             "deception" "magic" [])
    = (Returned rr, rm')
    /\ player1Property rr = "magic" /\ player2Property rr = "deception"
    /\ RoundManager.getAvailableProperties rm' 1 = [].
Proof.
destruct (autoPlayRound_plays_the_last_properties
            (Driven.resolvedRounds true ["attack"; "deception"] ["attack"; "magic"]
                                   "deception" "magic" [])
            {| id := 8; deception := 2; magic := 9; attack := 9 |}
            {| id := 12; deception := 5; magic := 8; attack := 7 |}) as [_ H].
destruct (H eq_refl eq_refl eq_refl)
  as (p1 & p2 & rr & rm' & E1 & E2 & E & P1 & P2 & _ & _ & _ & _ & _ & _ & _ & A1 & _).
exists rr, rm'. split; [exact E|].
injection E1 as <-. injection E2 as <-. auto.
Defined.

(** ** The score manager, method by method *)


(** X14.  Importing what a score manager exported always overwrites the
    importing manager with the exported state, whatever it held before;
    the import is accepted exactly when the exported state passes
    [validateState], and is refused with "Invalid score manager state
    imported" otherwise, the overwritten fields staying as imported. *)
Theorem ScoreManager_import_of_export (sm sm0 : ScoreManager.t) :
  snd (ScoreManager.importState (ScoreManager.exportState sm) sm0) = sm
  /\ (ScoreManager.validateState sm = true ->
      fst (ScoreManager.importState (ScoreManager.exportState sm) sm0) = Returned tt)
  /\ (ScoreManager.validateState sm = false ->
      fst (ScoreManager.importState (ScoreManager.exportState sm) sm0)
      = Thrown "Invalid score manager state imported").
Proof.
unfold ScoreManager.importState, ScoreManager.exportState, bind, modify, get.
rewrite !orZ_zero.
replace {| ScoreManager.player1Score := ScoreManager.player1Score sm |} with sm
  by (destruct sm; reflexivity).
destruct (ScoreManager.validateState sm); cbn [negb]; repeat split;
  intros; (reflexivity || discriminate).
Qed.

(** ** The match coordinator, method by method *)

Section MatchMethods.
Import GameConfig.

Lemma setRoundManager_same (m : MatchManager.t) :
  MatchManager.setRoundManager (MatchManager.roundManager m) m = m.
Proof. destruct m; reflexivity. Qed.

Lemma Phase_eqb_neq (a b : Phase) : a <> b -> Phase_eqb a b = false.
Proof.
intros N. destruct (Phase_eqb a b) eqn:E; [|reflexivity].
apply Phase_eqb_eq in E. contradiction.
Qed.

Lemma Phase_eqb_refl (a : Phase) : Phase_eqb a a = true.
Proof. destruct a; reflexivity. Qed.

Lemma validatePlayerCards_spec (h1 h2 : list Card) :
  MatchManager.validatePlayerCards h1 h2 = true <->
  len h1 = 3 /\ len h2 = 3
  /\ forall c1 c2, In c1 h1 -> In c2 h2 -> id c1 <> id c2.
Proof.
unfold MatchManager.validatePlayerCards, CARDS_PER_PLAYER.
destruct (Z.eqb_spec (len h1) 3) as [L1|L1]; cbn [negb orb].
2:{ split; [discriminate|]. intros (A & _). contradiction. }
destruct (Z.eqb_spec (len h2) 3) as [L2|L2]; cbn [negb].
2:{ split; [discriminate|]. intros (_ & A & _). contradiction. }
set (duplicates := filter _ _).
split.
- intros E. split; [assumption|]. split; [assumption|].
  intros c1 c2 I1 I2 S.
  assert (D : In (id c1) duplicates).
  { apply filter_In. split; [apply in_map; assumption|].
    apply existsb_exists. exists (id c2). split; [apply in_map; assumption|].
    apply Z.eqb_eq. assumption. }
  destruct duplicates; [destruct D|discriminate E].
- intros (_ & _ & N). destruct duplicates as [|i rest] eqn:E; [reflexivity|].
  exfalso.
  assert (D : In i duplicates) by (rewrite E; left; reflexivity).
  apply filter_In in D. destruct D as [D1 D2].
  apply in_map_iff in D1. destruct D1 as (c1 & <- & I1).
  apply existsb_exists in D2. destruct D2 as (j & D2 & J).
  apply in_map_iff in D2. destruct D2 as (c2 & <- & I2).
  apply Z.eqb_eq in J. exact (N c1 c2 I1 I2 J).
Qed.

End MatchMethods.

(** X15.  The [MatchManager] constructor accepts two hands exactly when
    each holds three cards and no identifier of the first hand occurs in
    the second (a card repeated within one hand is not looked for); its
    only complaint is "Invalid player cards provided".  The match it
    returns is in card-game 1 of 3, in the card-selection phase, with no
    card selected, no result, zero scores, a round manager at round 1,
    and it passes [validateState]. *)
Theorem MatchManager_constructor_characterised
  (player1Cards player2Cards : list Card) (gameMode : string) :
  ((exists m, MatchManager.new player1Cards player2Cards gameMode = Returned m)
   <-> len player1Cards = 3 /\ len player2Cards = 3
       /\ forall c1 c2, In c1 player1Cards -> In c2 player2Cards -> id c1 <> id c2)
  /\ (forall msg, MatchManager.new player1Cards player2Cards gameMode = Thrown msg ->
                  msg = "Invalid player cards provided")
  /\ (forall m, MatchManager.new player1Cards player2Cards gameMode = Returned m ->
        MatchManager.player1Cards m = player1Cards
        /\ MatchManager.player2Cards m = player2Cards
        /\ MatchManager.gameMode m = gameMode
        /\ MatchManager.currentCardGame m = 1 /\ MatchManager.maxCardGames m = 3
        /\ MatchManager.matchPhase m = GameConfig.CARD_SELECTION
        /\ MatchManager.player1SelectedCard m = None
        /\ MatchManager.player2SelectedCard m = None
        /\ MatchManager.cardGameResults m = []
        /\ MatchManager.getMatchResult m = None
        /\ MatchManager.isMatchComplete m = false
        /\ MatchManager.roundManager m = RoundManager.new
        /\ ScoreManager.getScores (MatchManager.scoreManager m) = (0, 0)
        /\ MatchManager.validateState m = true).
Proof.
unfold MatchManager.new.
destruct (MatchManager.validatePlayerCards player1Cards player2Cards) eqn:V; cbn [negb].
- split; [split; [intros _; apply validatePlayerCards_spec; exact V | eauto]|].
  split; [discriminate|].
  intros m [= <-].
  apply validatePlayerCards_spec in V. destruct V as (L1 & L2 & _).
  repeat (split; [reflexivity|]).
  unfold MatchManager.validateState, MatchManager.selectedInRange.
  cbn [MatchManager.currentCardGame MatchManager.maxCardGames
       MatchManager.player1SelectedCard MatchManager.player2SelectedCard
       MatchManager.roundManager MatchManager.scoreManager].
  reflexivity.
- split.
  { split; [intros [m E]; discriminate E|].
    intros H. apply validatePlayerCards_spec in H. congruence. }
  split; [intros msg [= <-]; reflexivity | discriminate].
Qed.

(** X16.  [selectCard] checks, in this order, the phase, the index
    against the hand (any player number other than 1 selects for player
    2), and the index against the number of finished card-games; each
    refusal leaves the match untouched.  An accepted call records the
    index for that side only; it reports [readyToProceed] exactly when
    the other side had already selected, and then the match is in
    property selection with the round manager reset for a new card-game;
    otherwise the match stays in card selection with the round manager
    as it was.  Scores and the card-game counter never change. *)
Theorem selectCard_characterised
  (playerNumber cardIndex : Z) (m : MatchManager.t) :
  let cards := if playerNumber =? 1 then MatchManager.player1Cards m
               else MatchManager.player2Cards m in
  let other := if playerNumber =? 1 then MatchManager.player2SelectedCard m
               else MatchManager.player1SelectedCard m in
  (MatchManager.matchPhase m <> GameConfig.CARD_SELECTION ->
   MatchManager.selectCard playerNumber cardIndex m
   = (Thrown "Cannot select card during phase: ", m))
  /\ (MatchManager.matchPhase m = GameConfig.CARD_SELECTION ->
      ~ 0 <= cardIndex < len cards ->
      MatchManager.selectCard playerNumber cardIndex m
      = (Thrown "Invalid card index: ", m))
  /\ (MatchManager.matchPhase m = GameConfig.CARD_SELECTION ->
      0 <= cardIndex < len cards -> cardIndex < MatchManager.currentCardGame m - 1 ->
      MatchManager.selectCard playerNumber cardIndex m
      = (Thrown "Card already used in previous card game", m))
  /\ (MatchManager.matchPhase m = GameConfig.CARD_SELECTION ->
      0 <= cardIndex < len cards -> MatchManager.currentCardGame m - 1 <= cardIndex ->
      exists r m',
        MatchManager.selectCard playerNumber cardIndex m = (Returned r, m')
        /\ MatchManager.selectedCard r = cardIndex
        /\ MatchManager.nextPhase r = MatchManager.matchPhase m'
        /\ (if playerNumber =? 1 then MatchManager.player1SelectedCard m'
            else MatchManager.player2SelectedCard m') = Some cardIndex
        /\ (if playerNumber =? 1 then MatchManager.player2SelectedCard m'
            else MatchManager.player1SelectedCard m') = other
        /\ (MatchManager.readyToProceed r = true <-> other <> None)
        /\ (other <> None ->
            MatchManager.matchPhase m' = GameConfig.PROPERTY_SELECTION
            /\ MatchManager.roundManager m'
               = snd (RoundManager.reset (MatchManager.roundManager m)))
        /\ (other = None ->
            MatchManager.matchPhase m' = GameConfig.CARD_SELECTION
            /\ MatchManager.roundManager m' = MatchManager.roundManager m)
        /\ MatchManager.scoreManager m' = MatchManager.scoreManager m
        /\ MatchManager.currentCardGame m' = MatchManager.currentCardGame m
        /\ MatchManager.cardGameResults m' = MatchManager.cardGameResults m).
Proof.
cbv zeta. rewrite selectCard_eq.
split; [|split; [|split]].
- intros N. rewrite (Phase_eqb_neq _ _ N). reflexivity.
- intros -> N. cbn [GameConfig.Phase_eqb negb].
  destruct (Z.ltb_spec cardIndex 0); [reflexivity|].
  destruct (Z.geb_spec cardIndex (len (if playerNumber =? 1
                                       then MatchManager.player1Cards m
                                       else MatchManager.player2Cards m)));
    [reflexivity|lia].
- intros -> R U. cbn [GameConfig.Phase_eqb negb].
  destruct (Z.ltb_spec cardIndex 0); [lia|].
  destruct (Z.geb_spec cardIndex (len (if playerNumber =? 1
                                       then MatchManager.player1Cards m
                                       else MatchManager.player2Cards m))); [lia|].
  destruct (Z.ltb_spec cardIndex (MatchManager.currentCardGame m - 1)); [reflexivity|lia].
- intros P R U. rewrite P. cbn [GameConfig.Phase_eqb negb].
  destruct (Z.ltb_spec cardIndex 0); [lia|].
  destruct (Z.geb_spec cardIndex (len (if playerNumber =? 1
                                       then MatchManager.player1Cards m
                                       else MatchManager.player2Cards m))); [lia|].
  destruct (Z.ltb_spec cardIndex (MatchManager.currentCardGame m - 1)); [lia|].
  cbn [orb]. cbv zeta. eexists. eexists. split; [reflexivity|].
  cbn [MatchManager.selectedCard MatchManager.nextPhase MatchManager.readyToProceed].
  unfold MatchManager.canProceedToPropertySelection, MatchManager.startPropertySelection,
    MatchManager.onRounds, zoom, bind, modify.
  destruct (playerNumber =? 1);
    cbn [MatchManager.setPlayer1SelectedCard MatchManager.setPlayer2SelectedCard
         MatchManager.player1SelectedCard MatchManager.player2SelectedCard];
    [destruct (MatchManager.player2SelectedCard m) eqn:O
    |destruct (MatchManager.player1SelectedCard m) eqn:O];
    cbn; rewrite ?P, ?O; repeat split; try reflexivity; try discriminate;
    intros; try discriminate; try congruence; try reflexivity.
Qed.


(** ** What every call keeps *)

Section KeptRules.
Import Keeps.
Context {S : Type} (I : S -> Prop).

Lemma kept_ret {A} (a : A) : kept I (ret a).
Proof. intros s H. exact H. Qed.

Lemma kept_throw {A} (msg : string) : kept I (@throw S A msg).
Proof. intros s H. exact H. Qed.

Lemma kept_lift {A} (o : outcome A) : kept I (lift o).
Proof. intros s H. exact H. Qed.

Lemma kept_get : kept I get.
Proof. intros s H. exact H. Qed.

Lemma kept_bind {A B} (c : M S A) (k : A -> M S B) :
  kept I c -> (forall a, kept I (k a)) -> kept I (bind c k).
Proof.
intros Hc Hk s H. unfold bind. specialize (Hc s H).
destruct (c s) as [[a|msg] s']; cbn [snd] in *; [apply Hk; exact Hc | exact Hc].
Qed.

(** Reading the state first: the continuation may rely on what was read. *)
Lemma kept_bind_get {B} (k : S -> M S B) :
  (forall s, I s -> I (snd (k s s))) -> kept I (bind get k).
Proof. intros Hk s H. unfold bind, get. apply Hk. exact H. Qed.

Lemma kept_when (b : bool) (c : M S unit) : kept I c -> kept I (when b c).
Proof. intros Hc. destruct b; [exact Hc | apply kept_ret]. Qed.

Lemma kept_modify (f : S -> S) : (forall s, I s -> I (f s)) -> kept I (modify f).
Proof. intros Hf s H. apply Hf. exact H. Qed.

Lemma kept_if {A} (b : bool) (c c' : M S A) : kept I c -> kept I c' ->
  kept I (if b then c else c').
Proof. intros H H'. destruct b; assumption. Qed.

End KeptRules.

Section KeptZoom.
Import Keeps.

(** A method of a sub-object keeps an invariant of the enclosing one when
    it keeps the part of it that speaks of the sub-object. *)
Lemma kept_zoom {S T A} (I : S -> Prop) (J : T -> Prop)
                (proj : S -> T) (upd : T -> S -> S) (c : M T A) :
  (forall s, I s -> J (proj s)) ->
  (forall s t, I s -> J t -> I (upd t s)) ->
  kept J c -> kept I (zoom proj upd c).
Proof.
intros P U Hc s H. unfold zoom. specialize (Hc (proj s) (P s H)).
destruct (c (proj s)) as [r t']. cbn [snd] in *. apply U; assumption.
Qed.

End KeptZoom.

(** *** The round manager's books *)

Section RoundBooks.
Import GameConfig Keeps.

Lemma calculateRoundScore_returned (prop1 prop2 : string) (val1 val2 : Z) (pts : Z * Z) :
  GameRules.calculateRoundScore prop1 val1 prop2 val2 = Returned pts ->
  1 <= val1 <= 9 /\ 1 <= val2 <= 9
  /\ 0 <= fst pts <= 8 /\ 0 <= snd pts <= 8 /\ (fst pts = 0 \/ snd pts = 0).
Proof.
intros E.
assert (V : GameRules.validateRoundInput prop1 val1 prop2 val2 = true).
{ unfold GameRules.validateRoundInput. revert E. unfold GameRules.calculateRoundScore.
  destruct (GameRules.isValidProperty prop1), (GameRules.isValidProperty prop2);
    cbn [negb orb andb]; try discriminate.
  destruct (GameRules.isValidPropertyValue val1), (GameRules.isValidPropertyValue val2);
    cbn [negb orb andb]; try discriminate. reflexivity. }
destruct (calculateRoundScore_range _ _ _ _ V) as (a & b & E' & A & B & Z0).
rewrite E in E'. injection E' as ->. cbn [fst snd].
apply validateRoundInput_split in V. tauto.
Qed.

Lemma GameConfig_isValidProperty_names (p : string) :
  GameConfig.isValidProperty p = true ->
  p = "deception" \/ p = "magic" \/ p = "attack"
  \/ p = "rock" \/ p = "paper" \/ p = "scissors".
Proof.
unfold GameConfig.isValidProperty, PROPERTIES, LEGACY_PROPERTIES, includes.
cbn [existsb].
destruct (String.eqb_spec p "deception"); [auto|].
destruct (String.eqb_spec p "magic"); [auto|].
destruct (String.eqb_spec p "attack"); [auto|].
destruct (String.eqb_spec p "rock"); [auto 6|].
destruct (String.eqb_spec p "paper"); [auto 6|].
destruct (String.eqb_spec p "scissors"); [auto 6|].
discriminate.
Qed.

Lemma GameConfig_isValidProperty_getProperty (c : Card) (p : string) :
  GameConfig.isValidProperty p = true ->
  exists v, CardOps.getProperty c p = Returned v
            /\ (v = deception c \/ v = magic c \/ v = attack c)
            /\ GameRules.isValidProperty p = true.
Proof.
intros V. apply GameConfig_isValidProperty_names in V.
destruct V as [-> | [-> | [-> | [-> | [-> | ->]]]]]; eexists; repeat split; auto.
Qed.

Lemma NoDup_snoc {A} (l : list A) (x : A) : NoDup l -> ~ In x l -> NoDup (l ++ [x]).
Proof.
intros N X. apply NoDup_app; [exact N | repeat constructor; intros [] | ].
- intros y Y [<- | []]. contradiction.
Qed.

Lemma Forall_snoc {A} (P : A -> Prop) (l : list A) (x : A) :
  Forall P l -> P x -> Forall P (l ++ [x]).
Proof. intros H X. apply Forall_app. split; [exact H | repeat constructor; exact X]. Qed.

Lemma reset_roundsInOrder (rm : RoundManager.t) :
  roundsInOrder rm -> roundsInOrder (snd (RoundManager.reset rm)).
Proof.
intros (M & A & _). unfold roundsInOrder. cbn.
repeat split; try assumption; try lia; try constructor; intros; discriminate.
Qed.

Lemma selectProperty_roundsInOrder (playerNumber : Z) (property : string) :
  kept roundsInOrder (RoundManager.selectProperty playerNumber property).
Proof.
intros rm H. rewrite RoundManager_selectProperty_eq.
destruct (GameConfig.isValidProperty property) eqn:V; cbn [negb]; [|exact H].
unfold RoundManager.isPropertyAvailable.
destruct (includes (RoundManager.usedProperties rm playerNumber) property) eqn:U;
  cbn [negb]; [exact H|].
assert (N : ~ In property (RoundManager.usedProperties rm playerNumber)).
{ intros X. apply includes_In in X. congruence. }
destruct H as (M & A & R & N1 & N2 & F1 & F2 & C1 & C2 & Res).
unfold RoundManager.usedProperties in N.
destruct (Z.eqb_spec playerNumber 1) as [->|P1].
{ cbn [snd Z.eqb Pos.eqb] in *. unfold roundsInOrder. cbn.
  repeat split; try assumption; try lia.
  - apply NoDup_snoc; assumption.
  - apply Forall_snoc; assumption.
  - intros p [= <-]. apply in_or_app. right. left. reflexivity. }
destruct (Z.eqb_spec playerNumber 2) as [->|P2].
{ cbn [snd] in *. unfold roundsInOrder. cbn.
  repeat split; try assumption; try lia.
  - apply NoDup_snoc; assumption.
  - apply Forall_snoc; assumption.
  - intros p [= <-]. apply in_or_app. right. left. reflexivity. }
cbn [snd]. unfold roundsInOrder. auto 12.
Qed.

Lemma setRoundPhase_roundsInOrder (phase : Phase) :
  kept roundsInOrder (RoundManager.setRoundPhase phase).
Proof. intros rm H. exact H. Qed.

Lemma calculateRoundResult_roundsInOrder (player1Card player2Card : option Card) :
  kept roundsInOrder (RoundManager.calculateRoundResult player1Card player2Card).
Proof.
intros rm H. unfold RoundManager.calculateRoundResult, bind, get, lift.
destruct (RoundManager.currentPlayer1Property rm) as [prop1|] eqn:P1; [|exact H].
destruct (RoundManager.currentPlayer2Property rm) as [prop2|] eqn:P2; [|exact H].
destruct (RoundManager.cardProperty player1Card prop1) as [v1|] eqn:V1; [|exact H].
destruct (RoundManager.cardProperty player2Card prop2) as [v2|] eqn:V2; [|exact H].
destruct (GameRules.calculateRoundScore prop1 v1 prop2 v2) as [pts|] eqn:S; [|exact H].
destruct H as (M & A & R & N1 & N2 & F1 & F2 & C1 & C2 & Res).
cbn [snd modify ret bind]. unfold roundsInOrder. cbn.
repeat split; try assumption; try lia.
apply Forall_snoc; [exact Res|]. unfold consistent.
cbn [round player1Property player1Value player1Points
     player2Property player2Value player2Points winner].
rewrite Forall_forall in F1, F2.
repeat split; try lia.
- apply F1, C1. exact P1.
- apply F2, C2. exact P2.
- rewrite S. destruct pts; reflexivity.
Qed.

Lemma advanceToNextRound_roundsInOrder :
  kept roundsInOrder RoundManager.advanceToNextRound.
Proof.
intros rm H. unfold RoundManager.advanceToNextRound, bind, get,
  RoundManager.areAllRoundsComplete.
destruct (Z.gtb_spec (RoundManager.currentRound rm) (RoundManager.maxRounds rm));
  [exact H|].
destruct H as (M & A & R & N1 & N2 & F1 & F2 & C1 & C2 & Res).
cbn. unfold roundsInOrder. cbn.
repeat split; try assumption; try lia; try (intros; discriminate).
eapply Forall_impl; [|exact Res]. cbn. intros r (Cr & Rr). split; [exact Cr|lia].
Qed.

Lemma autoPlayRound_roundsInOrder (player1Card player2Card : option Card) :
  kept roundsInOrder (RoundManager.autoPlayRound player1Card player2Card).
Proof.
unfold RoundManager.autoPlayRound. apply kept_bind; [apply kept_get|]. intros rm.
apply kept_if; [apply kept_throw|].
destruct (RoundManager.getAvailableProperties rm 1); [apply kept_throw|].
destruct (RoundManager.getAvailableProperties rm 2); [apply kept_throw|].
apply kept_bind; [apply selectProperty_roundsInOrder|]. intros _.
apply kept_bind; [apply selectProperty_roundsInOrder|]. intros _.
apply kept_bind; [apply setRoundPhase_roundsInOrder|]. intros _.
apply calculateRoundResult_roundsInOrder.
Qed.

End RoundBooks.

(** *** The score manager's books *)

Section ScoreBooks.
Import GameConfig Keeps.

Lemma historyPoints_snoc (n : Z) (h : list ScoreManager.ScoreChange)
                         (e : ScoreManager.ScoreChange) :
  historyPoints n (h ++ [e])
  = historyPoints n h + (if ScoreManager.player e =? n then ScoreManager.points e else 0).
Proof.
unfold historyPoints. rewrite filter_app, map_app. cbn [filter].
induction (map ScoreManager.points (filter _ h)) as [|x l IH].
- destruct (_ =? _); cbn; lia.
- cbn [app fold_right]. rewrite IH. lia.
Qed.

Lemma addPoints_books (playerNumber points : Z) (source : string) :
  0 < points -> kept books (ScoreManager.addPoints playerNumber points source).
Proof.
intros P sm [A Mi]. unfold ScoreManager.addPoints.
destruct (Z.ltb_spec points 0); [lia|]. unfold bind, get.
destruct A as (B1 & B2 & T1 & T2 & H1 & H2 & F).
destruct (Z.eqb_spec playerNumber 1) as [->|N1].
{ split; [|exact Mi].
  unfold accounted. cbn -[historyPoints]. rewrite !historyPoints_snoc.
  cbn -[historyPoints].
  repeat split; try lia. apply Forall_snoc; [exact F|]. cbn. auto with zarith. }
destruct (Z.eqb_spec playerNumber 2) as [->|N2].
{ split; [|exact Mi].
  unfold accounted. cbn -[historyPoints]. rewrite !historyPoints_snoc.
  cbn -[historyPoints].
  repeat split; try lia. apply Forall_snoc; [exact F|]. cbn. auto with zarith. }
split; [unfold accounted; auto 10 | exact Mi].
Qed.

Lemma addBonusPoints_books (playerNumber points : Z) (bonusType : string) :
  playerNumber = 1 \/ playerNumber = 2 ->
  kept books (ScoreManager.addBonusPoints playerNumber points bonusType).
Proof.
intros PN sm [A Mi]. unfold ScoreManager.addBonusPoints, when.
destruct (Z.gtb_spec points 0) as [G|G]; [|split; assumption].
unfold ScoreManager.addPoints.
destruct (Z.ltb_spec points 0); [lia|]. unfold bind, get.
destruct A as (B1 & B2 & T1 & T2 & H1 & H2 & F).
destruct PN as [-> | ->].
- split; [|exact Mi].
  unfold accounted. cbn -[historyPoints]. rewrite !historyPoints_snoc.
  cbn -[historyPoints].
  repeat split; try lia. apply Forall_snoc; [exact F|]. cbn. auto with zarith.
- split; [|exact Mi].
  unfold accounted. cbn -[historyPoints]. rewrite !historyPoints_snoc.
  cbn -[historyPoints].
  repeat split; try lia. apply Forall_snoc; [exact F|]. cbn. auto with zarith.
Qed.

(** The books read the statistics through their counters only. *)
Lemma books_counters (sm : ScoreManager.t)
                     (st : ScoreManager.PlayerStats * ScoreManager.PlayerStats) :
  counters (fst st) = counters (fst (ScoreManager.statistics sm)) ->
  counters (snd st) = counters (snd (ScoreManager.statistics sm)) ->
  books sm -> books (ScoreManager.setStatistics st sm).
Proof.
unfold counters. intros E1 E2 B.
injection E1 as A1 A2 A3 A4 A5 A6 A7 A8 A9.
injection E2 as B1 B2 B3 B4 B5 B6 B7 B8 B9.
unfold books, accounted, mirrored in *.
cbn [ScoreManager.setStatistics ScoreManager.statistics ScoreManager.player1Score
     ScoreManager.player2Score ScoreManager.bonusPoints ScoreManager.scoreHistory
     ScoreManager.cardScores].
cbv zeta in *.
rewrite A1, A2, A3, A4, A5, A6, A7, A8, A9, B1, B2, B3, B4, B5, B6, B7, B8, B9.
exact B.
Qed.

Lemma raiseHighest_counters (p : Z) (s : ScoreManager.PlayerStats) :
  counters (ScoreManager.raiseHighest p s) = counters s.
Proof. unfold ScoreManager.raiseHighest. destruct (_ >? _); reflexivity. Qed.

Lemma average_counters (s : ScoreManager.PlayerStats) :
  counters (ScoreManager.average s) = counters s.
Proof. unfold ScoreManager.average. destruct (_ >? _); reflexivity. Qed.

Lemma mapStats1_books (f : ScoreManager.PlayerStats -> ScoreManager.PlayerStats) :
  (forall s, counters (f s) = counters s) ->
  kept books (modify (ScoreManager.mapStats1 f)).
Proof.
intros H. apply kept_modify. intros sm B. unfold ScoreManager.mapStats1.
apply books_counters; [apply H | reflexivity | exact B].
Qed.

Lemma mapStats2_books (f : ScoreManager.PlayerStats -> ScoreManager.PlayerStats) :
  (forall s, counters (f s) = counters s) ->
  kept books (modify (ScoreManager.mapStats2 f)).
Proof.
intros H. apply kept_modify. intros sm B. unfold ScoreManager.mapStats2.
apply books_counters; [reflexivity | apply H | exact B].
Qed.

(** The counters of the round and the streaks move together. *)
Lemma roundCounted_books (w : Winner) :
  kept books
    (match w with
     | player1 =>
         modify (fun sm => ScoreManager.mapStats2 (ScoreManager.addRounds 0 1 0)
                             (ScoreManager.mapStats1 (ScoreManager.addRounds 1 0 0) sm)) ;;
         ScoreManager.updateWinStreak 1
     | player2 =>
         modify (fun sm => ScoreManager.mapStats1 (ScoreManager.addRounds 0 1 0)
                             (ScoreManager.mapStats2 (ScoreManager.addRounds 1 0 0) sm)) ;;
         ScoreManager.updateWinStreak 2
     | tie =>
         modify (fun sm => ScoreManager.mapStats2 (ScoreManager.addRounds 0 0 1)
                             (ScoreManager.mapStats1 (ScoreManager.addRounds 0 0 1) sm)) ;;
         ScoreManager.resetWinStreaks
     end)%eff.
Proof.
intros sm [A Mi]. split.
- destruct w; exact A.
- unfold mirrored in Mi. cbv zeta in Mi.
  destruct Mi as (M1 & M2 & M3 & M4 & M5 & M6 & M7 & M8 & M9 & M10 & M11 & M12
                  & M13 & M14 & M15).
  destruct (ScoreManager.statistics sm) as [s1 s2] eqn:St. cbn [fst snd] in *.
  destruct w;
    unfold mirrored, bind, modify, ScoreManager.updateWinStreak,
      ScoreManager.resetWinStreaks, modify, ScoreManager.mapStats1,
      ScoreManager.mapStats2, ScoreManager.setStatistics;
    cbn [Z.eqb Pos.eqb snd fst ScoreManager.statistics ScoreManager.cardScores];
    rewrite St; cbn [fst snd];
    cbn [ScoreManager.streakWon ScoreManager.streakLost ScoreManager.setStreaks
         ScoreManager.addRounds ScoreManager.totalPoints ScoreManager.roundsWon
         ScoreManager.roundsLost ScoreManager.roundsTied ScoreManager.cardsWon
         ScoreManager.cardsLost ScoreManager.cardsTied ScoreManager.winStreak
         ScoreManager.currentStreak];
    repeat split; try assumption; try lia.
Qed.

Lemma updateRoundStatistics_books (roundResult : RoundResult) (cardGame round : Z) :
  kept books (ScoreManager.updateRoundStatistics roundResult cardGame round).
Proof.
unfold ScoreManager.updateRoundStatistics.
apply kept_bind; [apply roundCounted_books|]. intros _.
apply kept_bind; [apply mapStats1_books, raiseHighest_counters|]. intros _.
apply kept_bind; [apply mapStats2_books, raiseHighest_counters|]. intros _.
unfold ScoreManager.updateAverages. apply kept_modify. intros sm B.
assert (B1 : books (ScoreManager.mapStats1 ScoreManager.average sm))
  by (apply books_counters; [apply average_counters | reflexivity | exact B]).
unfold ScoreManager.mapStats2 at 1.
apply books_counters; [reflexivity | apply average_counters | exact B1].
Qed.

Lemma checkForBonuses_books (config : Scoring) (roundResult : RoundResult)
                            (cardGame round : Z) :
  kept books (ScoreManager.checkForBonuses config roundResult cardGame round).
Proof.
unfold ScoreManager.checkForBonuses.
apply kept_bind; [apply kept_when, addBonusPoints_books; auto|]. intros _.
apply kept_bind; [apply kept_when, addBonusPoints_books; auto|]. intros _.
apply kept_bind; [apply kept_get|]. intros sm.
apply kept_bind; [apply kept_when, addBonusPoints_books; auto|]. intros _.
apply kept_bind; [apply kept_get|]. intros sm'.
apply kept_when, addBonusPoints_books; auto.
Qed.

Lemma processRoundResult_books (config : Scoring) (roundResult : RoundResult)
                               (cardGame round : Z) :
  kept books (ScoreManager.processRoundResult config roundResult cardGame round).
Proof.
unfold ScoreManager.processRoundResult. cbv zeta.
apply kept_bind.
{ unfold when. destruct (Z.gtb_spec (orZ (player1Points roundResult) 0) 0);
    [apply addPoints_books; lia | apply kept_ret]. }
intros _. apply kept_bind.
{ unfold when. destruct (Z.gtb_spec (orZ (player2Points roundResult) 0) 0);
    [apply addPoints_books; lia | apply kept_ret]. }
intros _. apply kept_bind; [apply updateRoundStatistics_books|]. intros _.
apply checkForBonuses_books.
Qed.

Lemma addComeback_books (sm : ScoreManager.t) :
  books sm -> books (ScoreManager.mapStats1 ScoreManager.addComeback sm)
              /\ books (ScoreManager.mapStats2 ScoreManager.addComeback sm).
Proof. intros H. split; exact H. Qed.

Lemma checkForComebacks_books (config : Scoring) (cardResult : ScoreManager.CardResult)
                              (cardGame : Z) :
  kept books (ScoreManager.checkForComebacks config cardResult cardGame).
Proof.
unfold ScoreManager.checkForComebacks.
apply kept_bind; [apply kept_get|]. intros sm.
destruct (ScoreManager.cardWinner cardResult).
- apply kept_when, kept_bind;
    [apply kept_modify; intros s H; apply (addComeback_books s H)|].
  intros _. apply addBonusPoints_books. auto.
- apply kept_when, kept_bind;
    [apply kept_modify; intros s H; apply (addComeback_books s H)|].
  intros _. apply addBonusPoints_books. auto.
- apply kept_ret.
Qed.

Lemma completeCardGame_books (config : Scoring) (roundResults : list RoundResult)
                             (cardGame : Z) :
  kept books (ScoreManager.completeCardGame config roundResults cardGame).
Proof.
unfold ScoreManager.completeCardGame. cbv zeta.
set (cardResult := {| ScoreManager.cardGame := cardGame |}).
intros sm H.
assert (K : kept books (ScoreManager.checkForComebacks config cardResult cardGame))
  by apply checkForComebacks_books.
unfold bind at 1. unfold modify at 1. unfold bind at 1.
destruct H as [A Mi].
destruct A as (B1 & B2 & T1 & T2 & H1 & H2 & F).
unfold mirrored in Mi. cbv zeta in Mi.
destruct Mi as (M1 & M2 & M3 & M4 & M5 & M6 & M7 & M8 & M9 & M10 & M11 & M12
                & M13 & M14 & M15).
assert (L : forall c, len (ScoreManager.cardScores sm ++ [c])
                      = len (ScoreManager.cardScores sm) + 1).
{ intros c. unfold len. rewrite length_app. cbn [List.length]. lia. }
destruct (ScoreManager.cardWinner cardResult); unfold modify; apply K;
  (split; [unfold accounted | unfold mirrored; cbv zeta]);
  unfold ScoreManager.mapStats1, ScoreManager.mapStats2, ScoreManager.setStatistics,
    ScoreManager.pushCardResult;
  cbn [ScoreManager.statistics ScoreManager.player1Score ScoreManager.player2Score
       ScoreManager.bonusPoints ScoreManager.scoreHistory ScoreManager.cardScores
       fst snd ScoreManager.addCards ScoreManager.totalPoints ScoreManager.roundsWon
       ScoreManager.roundsLost ScoreManager.roundsTied ScoreManager.cardsWon
       ScoreManager.cardsLost ScoreManager.cardsTied ScoreManager.winStreak
       ScoreManager.currentStreak];
  rewrite ?L; repeat split; try assumption; try lia.
Qed.

(** The records of the score manager only grow. *)

Lemma extends_refl {A} (l : list A) : extends l l.
Proof. exists []. symmetry. apply app_nil_r. Qed.

Lemma extends_trans {A} (l1 l2 l3 : list A) :
  extends l1 l2 -> extends l2 l3 -> extends l1 l3.
Proof. intros [a ->] [b ->]. exists (a ++ b). symmetry. apply app_assoc. Qed.

Lemma extends_snoc {A} (l : list A) (x : A) : extends l (l ++ [x]).
Proof. exists [x]. reflexivity. Qed.

Lemma scoresGrow_refl (sm : ScoreManager.t) : scoresGrow sm sm.
Proof. unfold scoresGrow. repeat split; try lia; apply extends_refl. Qed.

Lemma scoresGrow_trans (a b c : ScoreManager.t) :
  scoresGrow a b -> scoresGrow b c -> scoresGrow a c.
Proof.
intros (A1 & A2 & A3 & A4 & A5 & A6) (B1 & B2 & B3 & B4 & B5 & B6).
unfold scoresGrow. repeat split; try lia; eapply extends_trans; eassumption.
Qed.

End ScoreBooks.

Section RelatedRules.
Import Keeps.
Context {S : Type} (R : S -> S -> Prop).
Hypothesis R_refl : forall s, R s s.
Hypothesis R_trans : forall a b c, R a b -> R b c -> R a c.

Lemma related_ret {A} (a : A) : related R (ret a).
Proof. intros s. apply R_refl. Qed.

Lemma related_throw {A} (msg : string) : related R (@throw S A msg).
Proof. intros s. apply R_refl. Qed.

Lemma related_lift {A} (o : outcome A) : related R (lift o).
Proof. intros s. apply R_refl. Qed.

Lemma related_get : related R get.
Proof. intros s. apply R_refl. Qed.

Lemma related_bind {A B} (c : M S A) (k : A -> M S B) :
  related R c -> (forall a, related R (k a)) -> related R (bind c k).
Proof.
intros Hc Hk s. unfold bind. specialize (Hc s).
destruct (c s) as [[a|msg] s']; cbn [snd] in *;
  [eapply R_trans; [exact Hc | apply Hk] | exact Hc].
Qed.

Lemma related_when (b : bool) (c : M S unit) : related R c -> related R (when b c).
Proof. intros Hc. destruct b; [exact Hc | apply related_ret]. Qed.

Lemma related_if {A} (b : bool) (c c' : M S A) :
  related R c -> related R c' -> related R (if b then c else c').
Proof. intros H H'. destruct b; assumption. Qed.

Lemma related_modify (f : S -> S) : (forall s, R s (f s)) -> related R (modify f).
Proof. intros Hf s. apply Hf. Qed.

End RelatedRules.

Section RelatedZoom.
Import Keeps.

Lemma related_zoom {S T A} (R : S -> S -> Prop) (Q : T -> T -> Prop)
                   (proj : S -> T) (upd : T -> S -> S) (c : M T A) :
  (forall s t, Q (proj s) t -> R s (upd t s)) ->
  related Q c -> related R (zoom proj upd c).
Proof.
intros U Hc s. unfold zoom. specialize (Hc (proj s)).
destruct (c (proj s)) as [r t']. cbn [snd] in *. apply U. exact Hc.
Qed.

End RelatedZoom.

Section ScoreGrowth.
Import GameConfig Keeps.

Ltac grow_bind :=
  apply (related_bind scoresGrow scoresGrow_trans).

Lemma grow_modify_stats (f : ScoreManager.t -> ScoreManager.t) :
  (forall sm, ScoreManager.player1Score (f sm) = ScoreManager.player1Score sm
              /\ ScoreManager.player2Score (f sm) = ScoreManager.player2Score sm
              /\ ScoreManager.bonusPoints (f sm) = ScoreManager.bonusPoints sm
              /\ ScoreManager.scoreHistory (f sm) = ScoreManager.scoreHistory sm
              /\ ScoreManager.cardScores (f sm) = ScoreManager.cardScores sm) ->
  related scoresGrow (modify f).
Proof.
intros H sm. destruct (H sm) as (A & B & C & D & E).
unfold scoresGrow, modify. cbn [snd]. rewrite A, B, C, D, E.
repeat split; try lia; apply extends_refl.
Qed.

Lemma addPoints_grows (playerNumber points : Z) (source : string) :
  related scoresGrow (ScoreManager.addPoints playerNumber points source).
Proof.
intros sm. unfold ScoreManager.addPoints.
destruct (Z.ltb_spec points 0); [apply scoresGrow_refl|]. unfold bind, get.
destruct (Z.eqb_spec playerNumber 1) as [->|N1];
  [|destruct (Z.eqb_spec playerNumber 2) as [->|N2]; [|apply scoresGrow_refl]];
  unfold scoresGrow; cbn; repeat split; try lia;
  (apply extends_snoc || apply extends_refl).
Qed.

Lemma addBonusPoints_grows (playerNumber points : Z) (bonusType : string) :
  related scoresGrow (ScoreManager.addBonusPoints playerNumber points bonusType).
Proof.
unfold ScoreManager.addBonusPoints, when.
destruct (Z.gtb_spec points 0) as [G|G];
  [|apply (related_ret scoresGrow scoresGrow_refl)].
grow_bind; [apply addPoints_grows|]. intros _.
intros sm. unfold scoresGrow, modify, ScoreManager.addBonus. cbn.
destruct (playerNumber =? 1); cbn; repeat split; try lia; apply extends_refl.
Qed.

Lemma updateRoundStatistics_grows (roundResult : RoundResult) (cardGame round : Z) :
  related scoresGrow (ScoreManager.updateRoundStatistics roundResult cardGame round).
Proof.
unfold ScoreManager.updateRoundStatistics, ScoreManager.updateWinStreak,
  ScoreManager.resetWinStreaks, ScoreManager.updateAverages.
grow_bind.
{ destruct (winner roundResult); cbn [Z.eqb Pos.eqb];
    (grow_bind; [|intros _]); apply grow_modify_stats; intros sm; repeat split. }
intros _. grow_bind; [apply grow_modify_stats; intros sm; repeat split|].
intros _. grow_bind; [apply grow_modify_stats; intros sm; repeat split|].
intros _. apply grow_modify_stats; intros sm; repeat split.
Qed.

Lemma checkForBonuses_grows (config : Scoring) (roundResult : RoundResult)
                            (cardGame round : Z) :
  related scoresGrow (ScoreManager.checkForBonuses config roundResult cardGame round).
Proof.
unfold ScoreManager.checkForBonuses.
grow_bind; [apply related_when; [exact scoresGrow_refl|apply addBonusPoints_grows]|].
intros _.
grow_bind; [apply related_when; [exact scoresGrow_refl|apply addBonusPoints_grows]|].
intros _. grow_bind; [apply related_get; exact scoresGrow_refl|]. intros sm.
grow_bind; [apply related_when; [exact scoresGrow_refl|apply addBonusPoints_grows]|].
intros _. grow_bind; [apply related_get; exact scoresGrow_refl|]. intros sm'.
apply related_when; [exact scoresGrow_refl|apply addBonusPoints_grows].
Qed.

Lemma processRoundResult_grows (config : Scoring) (roundResult : RoundResult)
                               (cardGame round : Z) :
  related scoresGrow (ScoreManager.processRoundResult config roundResult cardGame round).
Proof.
unfold ScoreManager.processRoundResult. cbv zeta.
grow_bind; [apply related_when; [exact scoresGrow_refl|apply addPoints_grows]|].
intros _.
grow_bind; [apply related_when; [exact scoresGrow_refl|apply addPoints_grows]|].
intros _. grow_bind; [apply updateRoundStatistics_grows|]. intros _.
apply checkForBonuses_grows.
Qed.

Lemma completeCardGame_grows (config : Scoring) (roundResults : list RoundResult)
                             (cardGame : Z) :
  related scoresGrow (ScoreManager.completeCardGame config roundResults cardGame).
Proof.
unfold ScoreManager.completeCardGame. cbv zeta.
grow_bind.
{ intros sm. unfold scoresGrow, modify. cbn.
  repeat split; try lia; (apply extends_snoc || apply extends_refl). }
intros _. grow_bind.
{ destruct (ScoreManager.cardWinner _); apply grow_modify_stats; intros sm; repeat split. }
intros _. unfold ScoreManager.checkForComebacks.
grow_bind; [apply related_get; exact scoresGrow_refl|]. intros sm.
destruct (ScoreManager.cardWinner _).
- apply related_when; [exact scoresGrow_refl|].
  grow_bind; [apply grow_modify_stats; intros s; repeat split|]. intros _.
  apply addBonusPoints_grows.
- apply related_when; [exact scoresGrow_refl|].
  grow_bind; [apply grow_modify_stats; intros s; repeat split|]. intros _.
  apply addBonusPoints_grows.
- apply related_ret. exact scoresGrow_refl.
Qed.

End ScoreGrowth.

(** *** The match's books *)

Section MatchBooks.
Import GameConfig Keeps.
Variable config : Scoring.
Variables (hand1 hand2 : list Card) (mode : string).

Local Abbreviation Inv := (inOrder hand1 hand2 mode).
Local Abbreviation Play := (inPlay hand1 hand2 mode).

Ltac fields :=
  cbn [MatchManager.gameMode MatchManager.player1Cards MatchManager.player2Cards
       MatchManager.currentCardGame MatchManager.maxCardGames MatchManager.matchPhase
       MatchManager.player1SelectedCard MatchManager.player2SelectedCard
       MatchManager.roundManager MatchManager.scoreManager
       MatchManager.cardGameResults MatchManager.matchResult
       MatchManager.setRoundManager MatchManager.setScoreManager
       MatchManager.setMatchPhase MatchManager.setPlayer1SelectedCard
       MatchManager.setPlayer2SelectedCard MatchManager.setCurrentCardGame
       MatchManager.setCardGameResults MatchManager.setMatchResult] in *.

Ltac conj := repeat match goal with |- _ /\ _ => split end.

Lemma kept_conj {S A} (I J : S -> Prop) (c : M S A) :
  kept I c -> kept J c -> kept (fun s => I s /\ J s) c.
Proof. intros HI HJ s [X Y]. split; [apply HI | apply HJ]; assumption. Qed.

Lemma onRounds_inOrder {A} (c : M RoundManager.t A) :
  kept roundsInOrder c -> kept Inv (MatchManager.onRounds c).
Proof.
intros H. unfold MatchManager.onRounds.
apply (kept_zoom Inv roundsInOrder); [|intros s t (R & _ & B) T|exact H].
- intros s (_ & R & _). exact R.
- split; [exact R | split; assumption].
Qed.

Lemma onScores_inOrder {A} (c : M ScoreManager.t A) :
  kept books c -> kept Inv (MatchManager.onScores c).
Proof.
intros H. unfold MatchManager.onScores.
apply (kept_zoom Inv books); [|intros s t (R & Ro & _) T|exact H].
- intros s (_ & _ & B). exact B.
- split; [exact R | split; assumption].
Qed.

Lemma onRounds_selected {A} (c : M RoundManager.t A) :
  kept bothSelected (MatchManager.onRounds c).
Proof.
intros m H. unfold MatchManager.onRounds, zoom.
destruct (c (MatchManager.roundManager m)). exact H.
Qed.

Lemma onScores_selected {A} (c : M ScoreManager.t A) :
  kept bothSelected (MatchManager.onScores c).
Proof.
intros m H. unfold MatchManager.onScores, zoom.
destruct (c (MatchManager.scoreManager m)). exact H.
Qed.

Lemma onRounds_inPlay {A} (c : M RoundManager.t A) :
  kept roundsInOrder c -> kept Play (MatchManager.onRounds c).
Proof.
intros H. apply kept_conj; [apply onRounds_inOrder; exact H | apply onRounds_selected].
Qed.

Lemma onScores_inPlay {A} (c : M ScoreManager.t A) :
  kept books c -> kept Play (MatchManager.onScores c).
Proof.
intros H. apply kept_conj; [apply onScores_inOrder; exact H | apply onScores_selected].
Qed.

Lemma setMatchPhase_inOrder (phase : Phase) (m : MatchManager.t) :
  Inv m ->
  (phase = PROPERTY_SELECTION \/ phase = ROUND_RESULT -> bothSelected m) ->
  phase <> GAME_OVER -> phase <> AUTO_ROUND -> phase <> WAITING ->
  Inv (MatchManager.setMatchPhase phase m).
Proof.
intros (R & Ro & B) S G A W. split; [|split; assumption].
destruct R as (R1 & R2 & R3 & R4 & R5 & R6 & R7 & R8 & R9 & R10 & R11 & R12).
unfold inRange, bothSelected in *. fields.
conj; try assumption; try lia; try (intros; contradiction).
Qed.

Lemma completeMatch_inOrder : kept Inv MatchManager.completeMatch.
Proof.
intros m (R & Ro & B).
destruct R as (R1 & R2 & R3 & R4 & R5 & R6 & R7 & R8 & R9 & R10 & R11 & R12).
unfold MatchManager.completeMatch, bind, modify, get. cbn [snd].
split; [|split; assumption].
unfold inRange, bothSelected in *. fields.
conj; try assumption; try lia; try discriminate;
  try (intros [E|E]; discriminate E).
Qed.

Lemma completeMatch_selected : kept bothSelected MatchManager.completeMatch.
Proof. intros m H. exact H. Qed.

Lemma completeCardGame_selected :
  kept bothSelected (MatchManager.completeCardGame config).
Proof.
intros m H. unfold MatchManager.completeCardGame, bind, get, modify.
unfold MatchManager.onScores, zoom.
destruct (ScoreManager.completeCardGame _ _ _ _) as [[[]|msg] sm']; [|exact H].
cbn [snd fst]. unfold when.
destruct (_ >=? _); exact H.
Qed.

Lemma completeCardGame_inOrder : kept Inv (MatchManager.completeCardGame config).
Proof.
intros m0 H0.
assert (C : Forall consistent (RoundManager.getRoundResults (MatchManager.roundManager m0))).
{ destruct H0 as (_ & Ro & _).
  destruct Ro as (_ & _ & _ & _ & _ & _ & _ & _ & _ & Res).
  eapply Forall_impl; [|exact Res]. cbn. tauto. }
unfold MatchManager.completeCardGame. unfold bind at 1. unfold get at 1. cbv beta iota.
match goal with
| |- _ (snd (?c m0)) => cut (kept Inv c); [intros K; exact (K m0 H0)|]
end.
apply kept_bind; [apply onScores_inOrder, completeCardGame_books|]. intros _.
apply kept_bind_get. intros m H.
unfold bind, modify. cbv beta iota.
refine (kept_when Inv _ _ completeMatch_inOrder _ _).
apply setMatchPhase_inOrder; try discriminate; [|intros [E|E]; discriminate E].
destruct H as (R & Ro & B). split; [|split; assumption].
destruct R as (R1 & R2 & R3 & R4 & R5 & R6 & R7 & R8 & R9 & R10 & R11 & R12).
unfold inRange, bothSelected in *. fields.
conj; try assumption; try lia.
apply Forall_snoc; [exact R12|]. cbn. split; [lia|exact C].
Qed.

Lemma completeCardGame_inPlay : kept Play (MatchManager.completeCardGame config).
Proof. apply kept_conj; [apply completeCardGame_inOrder | apply completeCardGame_selected]. Qed.

Lemma autoPlayFinalRound_inPlay : kept Play (MatchManager.autoPlayFinalRound config).
Proof.
unfold MatchManager.autoPlayFinalRound.
apply kept_bind; [apply kept_get|]. intros m.
apply kept_bind; [apply onRounds_inPlay, autoPlayRound_roundsInOrder|]. intros rr.
apply kept_bind; [apply kept_get|]. intros m'.
apply kept_bind; [apply onScores_inPlay, processRoundResult_books|]. intros _.
apply kept_bind; [apply completeCardGame_inPlay|]. intros _. apply kept_ret.
Qed.

Lemma calculateRound_inPlay : kept Play (MatchManager.calculateRound config).
Proof.
unfold MatchManager.calculateRound.
apply kept_bind; [apply kept_get|]. intros m.
apply kept_bind; [apply onRounds_inPlay, calculateRoundResult_roundsInOrder|]. intros rr.
apply kept_bind; [apply kept_get|]. intros m'.
apply kept_bind; [apply onScores_inPlay, processRoundResult_books|]. intros _.
apply kept_bind.
{ apply kept_modify. intros s [H S]. split; [|exact S].
  apply setMatchPhase_inOrder; try discriminate; auto. }
intros _. apply kept_bind; [apply kept_get|]. intros m''.
apply kept_bind; [|intros _; apply kept_ret].
apply kept_if; [apply completeCardGame_inPlay|].
apply kept_if; [|apply kept_ret].
apply kept_bind; [apply autoPlayFinalRound_inPlay|]. intros _. apply kept_ret.
Qed.

Lemma inOrder_selected (m : MatchManager.t) :
  Inv m ->
  MatchManager.matchPhase m = PROPERTY_SELECTION
  \/ MatchManager.matchPhase m = ROUND_RESULT -> bothSelected m.
Proof. intros (R & _) P. apply R. exact P. Qed.

Lemma selectProperty_inOrder (playerNumber : Z) (property : string) :
  kept Inv (MatchManager.selectProperty config playerNumber property).
Proof.
unfold MatchManager.selectProperty. apply kept_bind_get. intros m H.
destruct (Phase_eqb (MatchManager.matchPhase m) PROPERTY_SELECTION) eqn:P;
  cbn [negb]; [|exact H].
apply Phase_eqb_eq in P.
assert (S : Play m) by (split; [exact H | apply (inOrder_selected m H); auto]).
assert (K : kept Play
              (success <- MatchManager.onRounds
                            (RoundManager.selectProperty playerNumber property) ;;
               m1 <- get ;;
               (if success
                   && RoundManager.isRoundReadyForCalculation (MatchManager.roundManager m1)
                then (MatchManager.calculateRound config ;; ret tt)
                else ret tt) ;;
               m2 <- get ;;
               ret {| MatchManager.success := success;
                      MatchManager.readyForCalculation :=
                        RoundManager.isRoundReadyForCalculation
                          (MatchManager.roundManager m2);
                      MatchManager.availableProperties :=
                        RoundManager.getAvailableProperties
                          (MatchManager.roundManager m2) playerNumber |})%eff).
{ apply kept_bind; [apply onRounds_inPlay, selectProperty_roundsInOrder|]. intros success.
  apply kept_bind; [apply kept_get|]. intros m1.
  apply kept_bind.
  { apply kept_if; [|apply kept_ret].
    apply kept_bind; [apply calculateRound_inPlay|]. intros _. apply kept_ret. }
  intros _. apply kept_bind; [apply kept_get|]. intros m2. apply kept_ret. }
exact (proj1 (K m S)).
Qed.

Lemma advanceToNextRound_inOrder : kept Inv MatchManager.advanceToNextRound.
Proof.
unfold MatchManager.advanceToNextRound. apply kept_bind_get. intros m H.
destruct (Phase_eqb (MatchManager.matchPhase m) ROUND_RESULT) eqn:P;
  cbn [negb]; [|exact H].
apply Phase_eqb_eq in P.
assert (S : Play m) by (split; [exact H | apply (inOrder_selected m H); auto]).
assert (K : kept Play
              (advanced <- MatchManager.onRounds RoundManager.advanceToNextRound ;;
               when advanced (modify (MatchManager.setMatchPhase PROPERTY_SELECTION)) ;;
               ret advanced)%eff).
{ apply kept_bind; [apply onRounds_inPlay, advanceToNextRound_roundsInOrder|].
  intros advanced. apply kept_bind; [|intros _; apply kept_ret].
  apply kept_when, kept_modify. intros s [I Sel]. split; [|exact Sel].
  apply setMatchPhase_inOrder; try discriminate; auto. }
exact (proj1 (K m S)).
Qed.

Lemma advanceToNextCard_inOrder : kept Inv MatchManager.advanceToNextCard.
Proof.
unfold MatchManager.advanceToNextCard. apply kept_bind_get. intros m H.
destruct (Phase_eqb (MatchManager.matchPhase m) CARD_COMPLETE) eqn:P;
  cbn [negb]; [|exact H].
destruct (Z.geb_spec (MatchManager.currentCardGame m) (MatchManager.maxCardGames m)).
{ exact (kept_bind Inv _ _ completeMatch_inOrder (fun _ => kept_ret Inv false) m H). }
unfold bind, modify, ret. cbn [snd].
destruct H as (R & Ro & B). split; [|split; assumption].
destruct R as (R1 & R2 & R3 & R4 & R5 & R6 & R7 & R8 & R9 & R10 & R11 & R12).
unfold inRange, bothSelected in *. fields.
conj; try assumption; try lia; try discriminate;
  try (intros i E; discriminate E); try (intros [E|E]; discriminate E).
eapply Forall_impl; [|exact R12]. cbn. intros c [X Y]. split; [lia|exact Y].
Qed.

Lemma selectCard_inOrder (playerNumber cardIndex : Z) :
  kept Inv (MatchManager.selectCard playerNumber cardIndex).
Proof.
intros m H. rewrite selectCard_eq.
destruct (Phase_eqb (MatchManager.matchPhase m) CARD_SELECTION) eqn:P;
  cbn [negb]; [|exact H].
apply Phase_eqb_eq in P.
destruct (Z.ltb_spec cardIndex 0); cbn [orb]; [exact H|].
destruct (Z.geb_spec cardIndex (len (if playerNumber =? 1
                                     then MatchManager.player1Cards m
                                     else MatchManager.player2Cards m)));
  [exact H|].
destruct (Z.ltb_spec cardIndex (MatchManager.currentCardGame m - 1)); [exact H|].
cbv zeta. cbn [snd].
set (m1 := if playerNumber =? 1
           then MatchManager.setPlayer1SelectedCard (Some cardIndex) m
           else MatchManager.setPlayer2SelectedCard (Some cardIndex) m).
assert (I1 : Inv m1).
{ destruct H as (R & Ro & B).
  assert (Rest : roundsInOrder (MatchManager.roundManager m1)
                 /\ books (MatchManager.scoreManager m1))
    by (unfold m1; destruct (playerNumber =? 1); split; assumption).
  split; [|exact Rest].
  destruct R as (R1 & R2 & R3 & R4 & R5 & R6 & R7 & R8 & R9 & R10 & R11 & R12).
  unfold m1. unfold inRange, bothSelected in *.
  destruct (playerNumber =? 1); fields;
    (conj; try assumption; try lia; try discriminate;
     try (rewrite P; intros [E|E]; discriminate E);
     try (rewrite P; intros E; discriminate E);
     try (intros i [= <-]; subst; lia)). }
destruct (MatchManager.canProceedToPropertySelection m1) eqn:Can; [|exact I1].
unfold MatchManager.startPropertySelection, bind, modify.
assert (Sel : bothSelected m1).
{ unfold MatchManager.canProceedToPropertySelection in Can. unfold bothSelected.
  destruct (MatchManager.player1SelectedCard m1), (MatchManager.player2SelectedCard m1);
    try discriminate Can. split; discriminate. }
assert (I2 : Inv (MatchManager.setMatchPhase PROPERTY_SELECTION m1))
  by (apply setMatchPhase_inOrder; try discriminate; auto).
cbv beta iota.
exact (onRounds_inOrder _ (fun rm => reset_roundsInOrder rm) _ I2).
Qed.

Lemma call_inOrder (c : Engine.Call) : kept Inv (Engine.call config c).
Proof.
destruct c; cbn [Engine.call].
- apply kept_bind; [apply selectCard_inOrder|]. intros _. apply kept_ret.
- apply kept_bind; [apply selectProperty_inOrder|]. intros _. apply kept_ret.
- apply kept_bind; [apply advanceToNextRound_inOrder|]. intros _. apply kept_ret.
- apply completeCardGame_inOrder.
- apply kept_bind; [apply advanceToNextCard_inOrder|]. intros _. apply kept_ret.
- apply completeMatch_inOrder.
Qed.

Lemma run_inOrder (calls : list Engine.Call) (m : MatchManager.t) :
  Inv m -> Inv (Engine.run config calls m).
Proof.
revert m. induction calls as [|c calls IH]; intros m H; [exact H|].
cbn [Engine.run fold_left]. apply IH. apply call_inOrder. exact H.
Qed.

End MatchBooks.

Section FreshBooks.
Import GameConfig Keeps.

Lemma new_inOrder (hand1 hand2 : list Card) (mode : string) (m : MatchManager.t) :
  MatchManager.new hand1 hand2 mode = Returned m -> inOrder hand1 hand2 mode m.
Proof.
unfold MatchManager.new.
destruct (MatchManager.validatePlayerCards hand1 hand2); cbn [negb]; [|discriminate].
intros [= <-]. unfold inOrder, inRange, bothSelected, roundsInOrder, books,
  accounted, mirrored.
cbn [MatchManager.gameMode MatchManager.player1Cards MatchManager.player2Cards
     MatchManager.currentCardGame MatchManager.maxCardGames MatchManager.matchPhase
     MatchManager.player1SelectedCard MatchManager.player2SelectedCard
     MatchManager.roundManager MatchManager.scoreManager
     MatchManager.cardGameResults MatchManager.matchResult].
cbv zeta.
repeat match goal with |- _ /\ _ => split end;
  try reflexivity; try (cbn; lia); try discriminate;
  try (intros [E|E]; discriminate E); try (intros; discriminate);
  try constructor; auto.
Qed.

Lemma reached_inOrder (config : Scoring) (hand1 hand2 : list Card) (mode : string)
                      (m0 : MatchManager.t) (calls : list Engine.Call) :
  MatchManager.new hand1 hand2 mode = Returned m0 ->
  inOrder hand1 hand2 mode (Engine.run config calls m0).
Proof. intros E. apply run_inOrder, new_inOrder, E. Qed.

End FreshBooks.

(** *** What the books say of every match *)

(** X18.  However a match built by the constructor is driven, by any
    sequence of [selectCard] calls with an integer card index and of
    [selectProperty], [advanceToNextRound], [completeCardGame],
    [advanceToNextCard] and [completeMatch] calls, failed calls included,
    its own fields stay in range: the hands and the game mode are the
    ones given, the card-game counter stays between 1 and 3, a selected
    card is an index of the hand not below the number of finished
    card-games, both cards are selected whenever the match is in
    property selection or in round-result, a match that is over has a
    result, the match is never in the auto-round or waiting phase, and
    every card-game result carries a card-game number between 1 and the
    current one and round results that agree with the rule book.  (The
    index has to be an integer: [selectCard] compares its argument with
    the bounds and never asks whether it is one.) *)
Theorem match_fields_stay_in_range
  (config : GameConfig.Scoring) (hand1 hand2 : list Card) (mode : string)
  (m0 : MatchManager.t) (calls : list Engine.Call) :
  MatchManager.new hand1 hand2 mode = Returned m0 ->
  Keeps.inRange hand1 hand2 mode (Engine.run config calls m0).
Proof. intros E. exact (proj1 (reached_inOrder config _ _ _ _ calls E)). Qed.

Lemma match_fields_stay_in_range_witness :
  Keeps.inRange Example.hand1 Example.hand2 "demo"
    (Engine.run GameConfig.SCORING Scenarios.lastCardFirst Example.fresh).
Proof.
apply (match_fields_stay_in_range GameConfig.SCORING Example.hand1 Example.hand2 "demo").
reflexivity.
Defined.

Section RoundBookFacts.
Import Keeps.

Lemma valid_names_at_most_six (l : list string) :
  NoDup l -> Forall (fun p => GameConfig.isValidProperty p = true) l -> len l <= 6.
Proof.
intros N F. unfold len.
assert (L : (List.length l <= List.length ["deception"; "magic"; "attack";
                                           "rock"; "paper"; "scissors"])%nat).
{ apply NoDup_incl_length; [exact N|]. intros p I.
  rewrite Forall_forall in F. specialize (F p I).
  apply GameConfig_isValidProperty_names in F. cbn [In]. intuition auto. }
cbn [List.length] in L. lia.
Qed.

End RoundBookFacts.

(** X19.  In every state such a match passes through the round manager's
    books are in order: three rounds per card-game and auto-play
    switched on, a round counter between 1 and 4, no name twice on a
    side's used list and only valid names on it (so at most six, the
    three properties under both their names), a current selection that
    is on its side's list, and recorded results that agree with the rule
    book (the points are what [calculateRoundScore] gives for the
    recorded properties and values, the winner is the side with the
    points) under a round number between 1 and the current round. *)
Theorem round_books_stay_in_order
  (config : GameConfig.Scoring) (hand1 hand2 : list Card) (mode : string)
  (m0 : MatchManager.t) (calls : list Engine.Call) :
  MatchManager.new hand1 hand2 mode = Returned m0 ->
  let rm := MatchManager.roundManager (Engine.run config calls m0) in
  Keeps.roundsInOrder rm
  /\ len (RoundManager.usedPlayer1Properties rm) <= 6
  /\ len (RoundManager.usedPlayer2Properties rm) <= 6.
Proof.
intros E rm.
assert (R : Keeps.roundsInOrder rm)
  by exact (proj1 (proj2 (reached_inOrder config _ _ _ _ calls E))).
split; [exact R|].
destruct R as (_ & _ & _ & N1 & N2 & F1 & F2 & _).
split; apply valid_names_at_most_six; assumption.
Qed.

Lemma round_books_stay_in_order_witness :
  Keeps.roundsInOrder
    (MatchManager.roundManager
       (Engine.run GameConfig.SCORING Scenarios.threeExplicitRounds Example.fresh)).
Proof.
apply (round_books_stay_in_order GameConfig.SCORING Example.hand1 Example.hand2 "demo"
         Example.fresh Scenarios.threeExplicitRounds).
reflexivity.
Defined.



(** X21.  In every state such a match passes through the two sides'
    statistics mirror each other: the rounds (card-games) one side won
    are the rounds (card-games) the other lost, both count the same
    ties, the card-game counters add up to the number of recorded card
    scores, a side's current streak is at most its best streak, which is
    at most the rounds it won, and at most one side is on a streak. *)
Theorem statistics_mirror_each_other
  (config : GameConfig.Scoring) (hand1 hand2 : list Card) (mode : string)
  (m0 : MatchManager.t) (calls : list Engine.Call) :
  MatchManager.new hand1 hand2 mode = Returned m0 ->
  Keeps.mirrored (MatchManager.scoreManager (Engine.run config calls m0)).
Proof.
intros E. exact (proj2 (proj2 (proj2 (reached_inOrder config _ _ _ _ calls E)))).
Qed.

Lemma statistics_mirror_each_other_witness :
  Keeps.mirrored
    (MatchManager.scoreManager
       (Engine.run GameConfig.SCORING Scenarios.lastCardFirst Example.fresh)).
Proof.
apply (statistics_mirror_each_other GameConfig.SCORING Example.hand1 Example.hand2 "demo"
         Example.fresh Scenarios.lastCardFirst).
reflexivity.
Defined.

(** *** The records only grow *)

Section MatchGrowth.
Import GameConfig Keeps.
Variable config : Scoring.

Lemma grows_refl (m : MatchManager.t) : grows m m.
Proof.
unfold grows. repeat split; try lia; try apply scoresGrow_refl; apply extends_refl.
Qed.

Lemma grows_trans (a b c : MatchManager.t) : grows a b -> grows b c -> grows a c.
Proof.
intros (A1 & A2 & A3 & A4 & A5) (B1 & B2 & B3 & B4 & B5).
unfold grows. split; [eapply scoresGrow_trans; eassumption|].
split; [eapply extends_trans; eassumption|].
split; [lia|]. split; congruence.
Qed.

Ltac grows_bind := apply (related_bind grows grows_trans).
Ltac grows_ret := apply (related_ret grows grows_refl).
Ltac grows_get := apply (related_get grows grows_refl).

Lemma onRounds_grows {A} (c : M RoundManager.t A) :
  related grows (MatchManager.onRounds c).
Proof.
intros m. unfold MatchManager.onRounds, zoom.
destruct (c (MatchManager.roundManager m)). unfold grows. cbn.
repeat split; try lia; try apply scoresGrow_refl; apply extends_refl.
Qed.

Lemma onScores_grows {A} (c : M ScoreManager.t A) :
  related scoresGrow c -> related grows (MatchManager.onScores c).
Proof.
intros H m. unfold MatchManager.onScores, zoom. specialize (H (MatchManager.scoreManager m)).
destruct (c (MatchManager.scoreManager m)) as [r sm']. cbn [snd] in *.
unfold grows. cbn. split; [exact H|].
repeat split; try lia; apply extends_refl.
Qed.

Lemma grows_modify (f : MatchManager.t -> MatchManager.t) :
  (forall m, MatchManager.scoreManager (f m) = MatchManager.scoreManager m
             /\ MatchManager.cardGameResults (f m) = MatchManager.cardGameResults m
             /\ MatchManager.currentCardGame (f m) = MatchManager.currentCardGame m
             /\ MatchManager.player1Cards (f m) = MatchManager.player1Cards m
             /\ MatchManager.player2Cards (f m) = MatchManager.player2Cards m) ->
  related grows (modify f).
Proof.
intros H m. destruct (H m) as (A & B & C & D & E).
unfold grows, modify. cbn [snd]. rewrite A, B, C, D, E.
repeat split; try lia; try apply scoresGrow_refl; apply extends_refl.
Qed.

Lemma completeMatch_grows : related grows MatchManager.completeMatch.
Proof.
unfold MatchManager.completeMatch.
grows_bind; [apply grows_modify; intros m; repeat split|]. intros _.
grows_bind; [grows_get|]. intros m.
apply grows_modify; intros m'; repeat split.
Qed.

Lemma related_bind_get {S B} (R : S -> S -> Prop) (k : S -> M S B) :
  (forall s, R s (snd (k s s))) -> related R (bind get k).
Proof. intros H s. unfold bind, get. apply H. Qed.

Lemma MatchManager_completeCardGame_grows :
  related grows (MatchManager.completeCardGame config).
Proof.
unfold MatchManager.completeCardGame.
grows_bind; [grows_get|]. intros m.
grows_bind; [apply onScores_grows, completeCardGame_grows|]. intros _.
apply related_bind_get. intros m'.
unfold bind, modify. cbv beta iota.
eapply grows_trans; [|apply (related_when grows grows_refl), completeMatch_grows].
unfold grows. cbn.
repeat split; try lia; try apply scoresGrow_refl; apply extends_snoc.
Qed.

Lemma calculateRound_grows : related grows (MatchManager.calculateRound config).
Proof.
unfold MatchManager.calculateRound, MatchManager.autoPlayFinalRound.
grows_bind; [grows_get|]. intros m.
grows_bind; [apply onRounds_grows|]. intros rr.
grows_bind; [grows_get|]. intros m'.
grows_bind; [apply onScores_grows, processRoundResult_grows|]. intros _.
grows_bind; [apply grows_modify; intros s; repeat split|]. intros _.
grows_bind; [grows_get|]. intros m''.
grows_bind; [|intros _; grows_ret].
apply related_if; [apply MatchManager_completeCardGame_grows|].
apply related_if; [|grows_ret].
grows_bind; [|intros _; grows_ret].
grows_bind; [grows_get|]. intros m3.
grows_bind; [apply onRounds_grows|]. intros rr'.
grows_bind; [grows_get|]. intros m4.
grows_bind; [apply onScores_grows, processRoundResult_grows|]. intros _.
grows_bind; [apply MatchManager_completeCardGame_grows|]. intros _. grows_ret.
Qed.

Lemma call_grows (c : Engine.Call) : related grows (Engine.call config c).
Proof.
destruct c; cbn [Engine.call].
- grows_bind; [|intros _; grows_ret].
  intros m. rewrite selectCard_eq.
  destruct (negb _); [apply grows_refl|].
  destruct (_ || _); [apply grows_refl|].
  destruct (_ <? _); [apply grows_refl|].
  cbv zeta. cbn [snd].
  unfold MatchManager.startPropertySelection, bind, modify,
    MatchManager.onRounds, zoom, RoundManager.reset, modify.
  destruct (playerNumber =? 1);
    destruct (MatchManager.canProceedToPropertySelection _);
    unfold grows; cbn;
    repeat split; try lia; try apply scoresGrow_refl; apply extends_refl.
- grows_bind; [|intros _; grows_ret].
  unfold MatchManager.selectProperty.
  grows_bind; [grows_get|]. intros m.
  apply related_if; [apply (related_throw grows grows_refl)|].
  grows_bind; [apply onRounds_grows|]. intros success.
  grows_bind; [grows_get|]. intros m1.
  grows_bind.
  { apply related_if; [|grows_ret].
    grows_bind; [apply calculateRound_grows|]. intros _. grows_ret. }
  intros _. grows_bind; [grows_get|]. intros m2. grows_ret.
- grows_bind; [|intros _; grows_ret].
  unfold MatchManager.advanceToNextRound.
  grows_bind; [grows_get|]. intros m.
  apply related_if; [grows_ret|].
  grows_bind; [apply onRounds_grows|]. intros advanced.
  grows_bind; [|intros _; grows_ret].
  apply (related_when grows grows_refl). apply grows_modify. intros s. repeat split.
- apply MatchManager_completeCardGame_grows.
- grows_bind; [|intros _; grows_ret].
  unfold MatchManager.advanceToNextCard.
  apply related_bind_get. intros m.
  destruct (negb _); [apply grows_refl|].
  destruct (_ >=? _).
  + apply (related_bind grows grows_trans _ _ completeMatch_grows).
    intros _. grows_ret.
  + unfold bind, modify, ret. cbn [snd]. unfold grows. cbn.
    repeat split; try lia; try apply scoresGrow_refl; apply extends_refl.
- apply completeMatch_grows.
Qed.

Lemma run_grows (calls : list Engine.Call) (m : MatchManager.t) :
  grows m (Engine.run config calls m).
Proof.
revert m. induction calls as [|c calls IH]; intros m; [apply grows_refl|].
cbn [Engine.run fold_left]. eapply grows_trans; [apply call_grows | apply IH].
Qed.

End MatchGrowth.


(** *** Calls that cannot fail halfway *)

Section ReturningRules.
Import Keeps.
Context {S : Type} (P : S -> Prop).

Lemma returning_ret {A} (a : A) : returning P (ret a).
Proof. intros s H. exists a, s. split; [reflexivity|exact H]. Qed.

Lemma returning_get : returning P get.
Proof. intros s H. exists s, s. split; [reflexivity|exact H]. Qed.

Lemma returning_bind {A B} (c : M S A) (k : A -> M S B) :
  returning P c -> (forall a, returning P (k a)) -> returning P (bind c k).
Proof.
intros Hc Hk s H. destruct (Hc s H) as (a & s1 & E & H1).
destruct (Hk a s1 H1) as (b & s2 & E2 & H2).
exists b, s2. unfold bind. rewrite E. split; assumption.
Qed.

Lemma returning_bind_get {B} (k : S -> M S B) :
  (forall s, P s -> exists b s', k s s = (Returned b, s') /\ P s') ->
  returning P (bind get k).
Proof. intros Hk s H. unfold bind, get. apply Hk. exact H. Qed.

Lemma returning_modify (f : S -> S) :
  (forall s, P s -> P (f s)) -> returning P (modify f).
Proof. intros Hf s H. exists tt, (f s). split; [reflexivity|apply Hf; exact H]. Qed.

Lemma returning_when (b : bool) (c : M S unit) :
  returning P c -> returning P (when b c).
Proof. intros H. destruct b; [exact H | apply returning_ret]. Qed.

Lemma returning_if {A} (b : bool) (c c' : M S A) :
  returning P c -> returning P c' -> returning P (if b then c else c').
Proof. intros H H'. destruct b; assumption. Qed.

End ReturningRules.

Section ScoreCallsReturn.
Import GameConfig Keeps.

Local Abbreviation always := (returning (fun _ : ScoreManager.t => True)).

Lemma addPoints_returns (playerNumber points : Z) (source : string) :
  0 <= points -> playerNumber = 1 \/ playerNumber = 2 ->
  always (ScoreManager.addPoints playerNumber points source).
Proof.
intros P N sm _. unfold ScoreManager.addPoints.
destruct (Z.ltb_spec points 0); [lia|].
destruct N as [-> | ->]; eexists; eexists; (split; [reflexivity|exact I]).
Qed.

Lemma addBonusPoints_returns (playerNumber points : Z) (bonusType : string) :
  playerNumber = 1 \/ playerNumber = 2 ->
  always (ScoreManager.addBonusPoints playerNumber points bonusType).
Proof.
intros N. unfold ScoreManager.addBonusPoints, when.
destruct (Z.gtb_spec points 0); [|apply returning_ret].
apply returning_bind; [apply addPoints_returns; [lia|exact N]|]. intros _.
apply returning_modify. auto.
Qed.

Lemma updateRoundStatistics_returns (roundResult : RoundResult) (cardGame round : Z) :
  always (ScoreManager.updateRoundStatistics roundResult cardGame round).
Proof.
intros sm _. unfold ScoreManager.updateRoundStatistics.
destruct (winner roundResult); eexists; eexists; (split; [reflexivity|exact I]).
Qed.

Lemma checkForBonuses_returns (config : Scoring) (roundResult : RoundResult)
                              (cardGame round : Z) :
  always (ScoreManager.checkForBonuses config roundResult cardGame round).
Proof.
unfold ScoreManager.checkForBonuses.
apply returning_bind; [apply returning_when, addBonusPoints_returns; auto|]. intros _.
apply returning_bind; [apply returning_when, addBonusPoints_returns; auto|]. intros _.
apply returning_bind; [apply returning_get|]. intros sm.
apply returning_bind; [apply returning_when, addBonusPoints_returns; auto|]. intros _.
apply returning_bind; [apply returning_get|]. intros sm'.
apply returning_when, addBonusPoints_returns; auto.
Qed.

Lemma processRoundResult_returns (config : Scoring) (roundResult : RoundResult)
                                 (cardGame round : Z) :
  always (ScoreManager.processRoundResult config roundResult cardGame round).
Proof.
unfold ScoreManager.processRoundResult. cbv zeta.
apply returning_bind.
{ unfold when. destruct (Z.gtb_spec (orZ (player1Points roundResult) 0) 0);
    [apply addPoints_returns; [lia|auto] | apply returning_ret]. }
intros _. apply returning_bind.
{ unfold when. destruct (Z.gtb_spec (orZ (player2Points roundResult) 0) 0);
    [apply addPoints_returns; [lia|auto] | apply returning_ret]. }
intros _. apply returning_bind; [apply updateRoundStatistics_returns|]. intros _.
apply checkForBonuses_returns.
Qed.

Lemma ScoreManager_completeCardGame_returns
  (config : Scoring) (roundResults : list RoundResult) (cardGame : Z) :
  always (ScoreManager.completeCardGame config roundResults cardGame).
Proof.
intros sm _.
destruct (completeCardGame_effect config roundResults cardGame sm) as (sm' & E & _).
exists tt, sm'. split; [exact E|exact I].
Qed.

End ScoreCallsReturn.

Section MatchCallsReturn.
Import GameConfig Keeps.
Variable config : Scoring.
Variables c1 c2 : Card.
Hypothesis W1 : CardOps.wellFormed c1 = true.
Hypothesis W2 : CardOps.wellFormed c2 = true.

Local Abbreviation Table := (onTable c1 c2).

Lemma onScores_returns {A} (c : M ScoreManager.t A) :
  returning (fun _ => True) c -> returning Table (MatchManager.onScores c).
Proof.
intros H m T. destruct (H (MatchManager.scoreManager m) I) as (a & sm' & E & _).
exists a, (MatchManager.setScoreManager sm' m).
unfold MatchManager.onScores, zoom. rewrite E. split; [reflexivity|exact T].
Qed.

Lemma completeMatch_returns : returning Table MatchManager.completeMatch.
Proof.
intros m T. eexists. eexists. split; [reflexivity|exact T].
Qed.

Lemma MatchManager_completeCardGame_returns :
  returning Table (MatchManager.completeCardGame config).
Proof.
unfold MatchManager.completeCardGame.
apply returning_bind; [apply returning_get|]. intros m.
apply returning_bind;
  [apply onScores_returns, ScoreManager_completeCardGame_returns|]. intros _.
apply returning_bind; [apply returning_get|]. intros m'.
apply returning_bind; [apply returning_modify; intros s T; exact T|]. intros _.
apply returning_bind; [apply returning_modify; intros s T; exact T|]. intros _.
apply returning_when, completeMatch_returns.
Qed.

Lemma autoPlayFinalRound_returns (m : MatchManager.t) :
  Table m -> RoundManager.shouldAutoPlayRound (MatchManager.roundManager m) = true ->
  exists rr m', MatchManager.autoPlayFinalRound config m = (Returned rr, m') /\ Table m'.
Proof.
intros (T1 & T2 & Ro) Y.
destruct (autoPlayRound_resolves (MatchManager.roundManager m) c1 c2 Y W1 W2)
  as (p1 & p2 & rr & rm' & _ & _ & E & _).
assert (Ro' : roundsInOrder rm').
{ pose proof (autoPlayRound_roundsInOrder (Some c1) (Some c2) _ Ro) as K.
  rewrite E in K. exact K. }
unfold MatchManager.autoPlayFinalRound. unfold bind at 1. unfold get at 1.
cbv beta iota. rewrite T1, T2.
unfold bind at 1. unfold MatchManager.onRounds at 1. unfold zoom. rewrite E.
cbv beta iota.
assert (T' : Table (MatchManager.setRoundManager rm' m)) by exact (conj T1 (conj T2 Ro')).
revert T'. generalize (MatchManager.setRoundManager rm' m). intros m1 T'.
match goal with
| |- exists a s', ?c m1 = _ /\ _ =>
    cut (returning Table c);
    [intros K; destruct (K m1 T') as (a0 & s0 & Ea & Ta); exists a0, s0; auto|]
end.
apply returning_bind; [apply returning_get|]. intros m2.
apply returning_bind; [apply onScores_returns, processRoundResult_returns|]. intros _.
apply returning_bind; [apply MatchManager_completeCardGame_returns|]. intros _.
apply returning_ret.
Qed.

Lemma calculateRound_returns (m : MatchManager.t) :
  Table m ->
  RoundManager.isRoundReadyForCalculation (MatchManager.roundManager m) = true ->
  exists rr m', MatchManager.calculateRound config m = (Returned rr, m') /\ Table m'.
Proof.
intros (T1 & T2 & Ro) Ready.
unfold RoundManager.isRoundReadyForCalculation in Ready.
destruct (RoundManager.currentPlayer1Property (MatchManager.roundManager m))
  as [p1|] eqn:P1; [|discriminate Ready].
destruct (RoundManager.currentPlayer2Property (MatchManager.roundManager m))
  as [p2|] eqn:P2; [|discriminate Ready].
assert (V1 : GameConfig.isValidProperty p1 = true).
{ destruct Ro as (_ & _ & _ & _ & _ & F1 & _ & C1 & _).
  rewrite Forall_forall in F1. apply F1, C1, P1. }
assert (V2 : GameConfig.isValidProperty p2 = true).
{ destruct Ro as (_ & _ & _ & _ & _ & _ & F2 & _ & C2 & _).
  rewrite Forall_forall in F2. apply F2, C2, P2. }
destruct (GameConfig_isValidProperty_getProperty c1 p1 V1) as (v1 & G1 & O1 & N1).
destruct (GameConfig_isValidProperty_getProperty c2 p2 V2) as (v2 & G2 & O2 & N2).
assert (R1 : 1 <= v1 <= 9) by (apply wellFormed_spec in W1; lia).
assert (R2 : 1 <= v2 <= 9) by (apply wellFormed_spec in W2; lia).
destruct (calculateRoundScore_range p1 p2 v1 v2) as (a & b & Sc & _).
{ unfold GameRules.validateRoundInput. rewrite N1, N2.
  apply isValidPropertyValue_range in R1, R2. rewrite R1, R2. reflexivity. }
assert (K := calculateRoundResult_roundsInOrder (Some c1) (Some c2) _ Ro).
assert (E : exists rr rm',
  RoundManager.calculateRoundResult (Some c1) (Some c2) (MatchManager.roundManager m)
  = (Returned rr, rm')).
{ unfold RoundManager.calculateRoundResult, bind, get, lift.
  rewrite P1, P2. cbn [RoundManager.cardProperty]. rewrite G1, G2, Sc.
  eexists. eexists. reflexivity. }
destruct E as (rr & rm' & E). rewrite E in K. cbn [snd] in K.
unfold MatchManager.calculateRound. unfold bind at 1. unfold get at 1.
cbv beta iota. rewrite T1, T2.
unfold bind at 1. unfold MatchManager.onRounds at 1. unfold zoom. rewrite E.
cbv beta iota.
assert (T' : Table (MatchManager.setRoundManager rm' m)) by exact (conj T1 (conj T2 K)).
revert T'. generalize (MatchManager.setRoundManager rm' m). intros m1 T'.
match goal with
| |- exists a s', ?c m1 = _ /\ _ =>
    cut (returning Table c);
    [intros X; destruct (X m1 T') as (a0 & s0 & Ea & Ta); exists a0, s0; auto|]
end.
apply returning_bind; [apply returning_get|]. intros m2.
apply returning_bind; [apply onScores_returns, processRoundResult_returns|]. intros _.
apply returning_bind; [apply returning_modify; intros s T; exact T|]. intros _.
apply returning_bind_get. intros s T.
destruct (RoundManager.areAllRoundsComplete (MatchManager.roundManager s)).
{ destruct (MatchManager_completeCardGame_returns s T) as ([] & s' & E' & T'').
  unfold bind. rewrite E'. eexists. eexists. split; [reflexivity|exact T'']. }
destruct (RoundManager.shouldAutoPlayRound (MatchManager.roundManager s)) eqn:Y.
{ destruct (autoPlayFinalRound_returns s T Y) as (rr' & s' & E' & T'').
  unfold bind. rewrite E'. eexists. eexists. split; [reflexivity|exact T'']. }
eexists. eexists. split; [reflexivity|exact T].
Qed.

End MatchCallsReturn.

Section CleanFailure.
Import GameConfig Keeps.

Lemma cardAt_In (cards : list Card) (i : Z) :
  0 <= i < len cards ->
  exists c, MatchManager.cardAt cards (Some i) = Some c /\ In c cards.
Proof.
intros R. unfold MatchManager.cardAt. destruct (Z.ltb_spec i 0); [lia|].
destruct (nth_error cards (Z.to_nat i)) as [c|] eqn:E.
- exists c. split; [reflexivity|]. eapply nth_error_In. exact E.
- apply nth_error_None in E. unfold len in R. lia.
Qed.

Lemma inOrder_onTable (hand1 hand2 : list Card) (mode : string) (m : MatchManager.t) :
  Forall (fun c => CardOps.wellFormed c = true) (hand1 ++ hand2) ->
  inOrder hand1 hand2 mode m ->
  MatchManager.matchPhase m = PROPERTY_SELECTION ->
  exists c1 c2, CardOps.wellFormed c1 = true /\ CardOps.wellFormed c2 = true
                /\ onTable c1 c2 m.
Proof.
intros W (R & Ro & _) P. apply Forall_app in W. destruct W as [W1 W2].
rewrite Forall_forall in W1, W2.
destruct R as (R1 & R2 & _ & _ & R5 & R6 & R7 & R8 & _).
destruct (R8 (or_introl P)) as [S1 S2].
destruct (MatchManager.player1SelectedCard m) as [i|] eqn:E1; [|contradiction].
destruct (MatchManager.player2SelectedCard m) as [j|] eqn:E2; [|contradiction].
specialize (R6 i eq_refl). specialize (R7 j eq_refl).
destruct (cardAt_In hand1 i) as (c1 & A1 & I1); [lia|].
destruct (cardAt_In hand2 j) as (c2 & A2 & I2); [lia|].
exists c1, c2. split; [apply W1, I1|]. split; [apply W2, I2|].
unfold onTable. rewrite R1, R2, E1, E2. auto.
Qed.

Lemma selectProperty_clean (config : Scoring) (hand1 hand2 : list Card) (mode : string)
                           (playerNumber : Z) (property : string) (m : MatchManager.t) :
  Forall (fun c => CardOps.wellFormed c = true) (hand1 ++ hand2) ->
  inOrder hand1 hand2 mode m ->
  (exists r m', MatchManager.selectProperty config playerNumber property m
                = (Returned r, m')
                /\ MatchManager.success r = true)
  \/ (exists msg, MatchManager.selectProperty config playerNumber property m
                  = (Thrown msg, m)
                  /\ In msg selectPropertyErrors).
Proof.
intros W H.
cut (forall res, MatchManager.selectProperty config playerNumber property m = res ->
       (exists r m', res = (Returned r, m') /\ MatchManager.success r = true)
       \/ (exists msg, res = (Thrown msg, m) /\ In msg selectPropertyErrors)).
{ intros X. apply X. reflexivity. }
intros res. unfold MatchManager.selectProperty. unfold bind at 1. unfold get at 1.
cbv beta iota.
destruct (Phase_eqb (MatchManager.matchPhase m) PROPERTY_SELECTION) eqn:P; cbn [negb].
2:{ intros <-. right. eexists. split; [reflexivity|]. cbn. auto. }
apply Phase_eqb_eq in P.
destruct (inOrder_onTable _ _ _ _ W H P) as (c1 & c2 & W1 & W2 & T).
assert (Ro : roundsInOrder (MatchManager.roundManager m)) by apply T.
pose proof (selectProperty_roundsInOrder playerNumber property _ Ro) as K.
unfold bind at 1. unfold MatchManager.onRounds at 1. unfold zoom.
revert K. rewrite RoundManager_selectProperty_eq.
destruct (negb (isValidProperty property)).
{ intros _ <-. right. rewrite setRoundManager_same. eexists.
  split; [reflexivity|]. cbn. auto. }
destruct (negb (RoundManager.isPropertyAvailable _ _ _)).
{ intros _ <-. right. rewrite setRoundManager_same. eexists.
  split; [reflexivity|]. cbn. auto. }
assert (Go : forall rm', roundsInOrder rm' ->
  exists r m',
    (m1 <- get ;;
     (if true && RoundManager.isRoundReadyForCalculation (MatchManager.roundManager m1)
      then (MatchManager.calculateRound config ;; ret tt)
      else ret tt) ;;
     m2 <- get ;;
     ret {| MatchManager.success := true;
            MatchManager.readyForCalculation :=
              RoundManager.isRoundReadyForCalculation (MatchManager.roundManager m2);
            MatchManager.availableProperties :=
              RoundManager.getAvailableProperties (MatchManager.roundManager m2)
                                                  playerNumber |})%eff
      (MatchManager.setRoundManager rm' m) = (Returned r, m')
    /\ MatchManager.success r = true).
{ intros rm' Ro'. unfold bind at 1. unfold get at 1. cbv beta iota.
  cbn [andb MatchManager.roundManager MatchManager.setRoundManager].
  destruct (RoundManager.isRoundReadyForCalculation rm') eqn:Ready.
  - assert (T' : onTable c1 c2 (MatchManager.setRoundManager rm' m)).
    { destruct T as (T1 & T2 & _). exact (conj T1 (conj T2 Ro')). }
    destruct (calculateRound_returns config c1 c2 W1 W2 _ T' Ready)
      as (rr & m' & E & _).
    unfold bind at 1. unfold bind at 1. rewrite E. cbv beta iota.
    eexists. eexists. split; reflexivity.
  - eexists. eexists. split; reflexivity. }
destruct (playerNumber =? 1).
{ cbn [snd fst modify bind ret]. intros K <-. left.
  destruct (Go _ K) as (r & m' & E & Su). exists r, m'. split; [exact E|exact Su]. }
destruct (playerNumber =? 2).
{ cbn [snd fst modify bind ret]. intros K <-. left.
  destruct (Go _ K) as (r & m' & E & Su). exists r, m'. split; [exact E|exact Su]. }
intros _ <-. right. rewrite setRoundManager_same. eexists.
split; [reflexivity|]. cbn. auto 6.
Qed.

End CleanFailure.



(** *** Export and import of a state that validates *)



(** ** The AI's choice *)

Section AIAnswers.
Import AIStrategy AIMove.
Variable R : Runtime.
Variable card : Card.
Variable pool : list Card.
Variable used : list string.
Variable difficulty : string.

Local Abbreviation wf := (fun c : Card => CardOps.wellFormed c = true).
Local Abbreviation valid := (fun p : string => GameConfig.isValidProperty p = true).

Lemma getProperty_in_range (c : Card) (p : string) :
  wf c -> valid p ->
  exists v, CardOps.getProperty c p = Returned v /\ 1 <= v <= 9
            /\ GameRules.isValidProperty p = true.
Proof.
intros W V. destruct (GameConfig_isValidProperty_getProperty c p V) as (v & G & O & N).
apply wellFormed_spec in W. exists v. repeat split; try assumption; lia.
Qed.

Lemma scenarios_return (property : string) (myValue : Z) (opponentCard : Card)
                       (props : list string) (acc : outcome (Z * Z)) :
  GameRules.isValidProperty property = true -> 1 <= myValue <= 9 ->
  wf opponentCard -> Forall valid props ->
  (exists t n, acc = Returned (t, n)) ->
  exists t n, fold_left (AIStrategy.scenario property myValue opponentCard) props acc
              = Returned (t, n).
Proof.
intros N Rg W F. revert acc. induction F as [|p props V F IH]; intros acc A.
- exact A.
- cbn [fold_left]. apply IH. destruct A as (t & n & ->).
  destruct (getProperty_in_range opponentCard p W V) as (v & G & Rv & Nv).
  destruct (calculateRoundScore_range property p myValue v) as (a & b & Sc & _).
  { unfold GameRules.validateRoundInput. rewrite N, Nv.
    apply isValidPropertyValue_range in Rg, Rv. rewrite Rg, Rv. reflexivity. }
  unfold AIStrategy.scenario. cbn. rewrite G. cbn. rewrite Sc. eexists. eexists. reflexivity.
Qed.

Lemma baseScore_returns (property : string) :
  wf card -> Forall wf pool -> valid property ->
  exists s, baseScore R card property pool used = Returned s.
Proof.
intros W F V. destruct (getProperty_in_range card property W V) as (v & G & Rv & N).
unfold baseScore. rewrite G. cbn -[fold_left filter includes].
set (props := filter _ _).
assert (Fp : Forall valid props).
{ apply Forall_forall. intros p I. apply filter_In in I. destruct I as [I _].
  cbn in I. destruct I as [<-|[<-|[<-|[]]]]; reflexivity. }
assert (X : forall acc, (exists t n, acc = Returned (t, n)) ->
  exists t n, fold_left (fun acc opponentCard =>
                 fold_left (AIStrategy.scenario property v opponentCard) props acc)
              pool acc = Returned (t, n)).
{ induction F as [|c cs Wc F IH]; intros acc A; [exact A|].
  cbn [fold_left]. apply IH. apply scenarios_return; assumption. }
destruct (X (Returned (0, 0))) as (t & n & ->); [eexists; eexists; reflexivity|].
eexists. reflexivity.
Qed.

Lemma calculateCardSynergy_returns (property : string) :
  valid property -> exists s, calculateCardSynergy R card property = Returned s.
Proof.
intros V. destruct (GameConfig_isValidProperty_getProperty card property V)
  as (v & G & _).
unfold calculateCardSynergy. rewrite G. cbn -[CardOps.getHighestProperty
  CardOps.getLowestProperty CardOps.isBalanced String.eqb].
repeat match goal with |- context [if ?b then _ else _] => destruct b end;
  eexists; reflexivity.
Qed.

Lemma calculatePositionalAdvantage_returns (property : string) :
  valid property -> exists s, calculatePositionalAdvantage R card property = Returned s.
Proof.
intros V. destruct (GameConfig_isValidProperty_getProperty card property V)
  as (v & G & _).
unfold calculatePositionalAdvantage. rewrite G. cbn -[Z.geb Z.leb].
repeat match goal with |- context [if ?b then _ else _] => destruct b end;
  eexists; reflexivity.
Qed.

Lemma evaluateMove_returns (property : string) (g : rng R) :
  wf card -> Forall wf pool -> valid property ->
  exists s g', evaluateMove R card property pool used difficulty g = (Returned s, g').
Proof.
intros W F V. rewrite evaluateMove_base.
destruct (baseScore_returns property W F V) as (avg & ->).
destruct (calculateCardSynergy_returns property V) as (sy & Sy).
destruct (calculatePositionalAdvantage_returns property V) as (po & Po).
unfold applyDifficultyModifier, mathRandom, bind, lift, ret. rewrite Sy, Po.
repeat match goal with |- context [if ?b then _ else _] => destruct b end;
  try destruct (random R g); eexists; eexists; reflexivity.
Qed.

Lemma chooseLoop_answers (candidates : list string) :
  wf card -> Forall wf pool -> Forall valid candidates ->
  forall (best : string * option (num R)) (g : rng R),
  exists p g', chooseLoop R card pool used difficulty candidates best g = (Returned p, g')
               /\ (In p candidates \/ p = fst best).
Proof.
intros W F Fc. induction Fc as [|q rest V Fc IH]; intros best g.
- exists (fst best), g. split; [reflexivity|right; reflexivity].
- destruct (evaluateMove_returns q g W F V) as (s & g1 & E).
  cbn [chooseLoop]. unfold bind at 1. rewrite E.
  destruct (IH (if better R s (snd best) then (q, Some s) else best) g1)
    as (p & g' & E' & I).
  exists p, g'. split; [exact E'|].
  destruct I as [I | ->]; [left; right; exact I|].
  destruct (better R s (snd best)); [left; left; reflexivity | right; reflexivity].
Qed.

Lemma chooseBestProperty_answers (available : list string) (g : rng R) :
  wf card -> Forall wf pool -> available <> [] -> Forall valid available ->
  exists p g', chooseBestProperty R card available pool used difficulty g
               = (Returned p, g')
               /\ In p available.
Proof.
intros W F N Fa. destruct available as [|p0 [|p1 rest]]; [congruence| |].
- exists p0, g. split; [reflexivity|left; reflexivity].
- unfold chooseBestProperty.
  destruct (chooseLoop_answers (p0 :: p1 :: rest) W F Fa (p0, None) g)
    as (p & g' & E & I).
  exists p, g'. split; [exact E|]. destruct I as [I | ->]; [exact I|left; reflexivity].
Qed.

End AIAnswers.

(** X25.  Given a well-formed card, a pool of well-formed opponent cards
    and a non-empty list of valid property names, [chooseBestProperty]
    returns, at every difficulty, with every generator and whatever the
    arithmetic of numbers, and the property it returns is one of the
    available ones: the AI never throws in the middle of an evaluation and
    never answers with a property it was not offered. *)
Theorem chooseBestProperty_answers_with_an_available_property
  (R : AIStrategy.Runtime) (card : Card) (availableProperties : list string)
  (allPossibleOpponentCards : list Card) (usedOpponentProperties : list string)
  (difficulty : string) (g : AIStrategy.rng R) :
  CardOps.wellFormed card = true ->
  Forall (fun c => CardOps.wellFormed c = true) allPossibleOpponentCards ->
  availableProperties <> [] ->
  Forall (fun p => GameConfig.isValidProperty p = true) availableProperties ->
  exists p g',
    AIStrategy.chooseBestProperty R card availableProperties allPossibleOpponentCards
                                  usedOpponentProperties difficulty g
    = (Returned p, g')
    /\ In p availableProperties.
Proof.
intros W F N Fa. apply chooseBestProperty_answers; assumption.
Qed.

Lemma chooseBestProperty_answers_with_an_available_property_witness :
  exists p g',
    AIStrategy.chooseBestProperty AIStrategy.exact
      {| id := 21; deception := 6; magic := 7; attack := 7 |}
      ["magic"; "attack"] CardGenerator.generateAllCards ["deception"] "easy"
      [(9 # 10)%Q; 0%Q]
    = (Returned p, g')
    /\ In p ["magic"; "attack"].
Proof.
apply (chooseBestProperty_answers_with_an_available_property AIStrategy.exact
         {| id := 21; deception := 6; magic := 7; attack := 7 |}
         ["magic"; "attack"] CardGenerator.generateAllCards ["deception"] "easy"
         [(9 # 10)%Q; 0%Q]).
- reflexivity.
- apply Forall_forall, forallb_forall. reflexivity.
- discriminate.
- repeat constructor.
Defined.

Section AIMaximum.
Import AIStrategy.
Variable R : Runtime.
Variable card : Card.
Variable pool : list Card.
Variable used : list string.
Variable difficulty : string.

(** What the comparison of numbers is needed to satisfy. *)
Hypothesis gt_asym : forall a b, gt R a b = true -> gt R b a = false.
Hypothesis le_trans :
  forall a b c, gt R a b = false -> gt R b c = false -> gt R a c = false.

Hypothesis W : CardOps.wellFormed card = true.
Hypothesis F : Forall (fun c => CardOps.wellFormed c = true) pool.
Hypothesis notEasy : difficulty <> GameConfig.EASY.
Hypothesis notNormal : difficulty <> GameConfig.NORMAL.

Local Abbreviation scored := (scored R card pool used difficulty).

Lemma gt_irrefl (a : num R) : gt R a a = false.
Proof.
destruct (gt R a a) eqn:E; [|reflexivity]. rewrite (gt_asym a a E) in E. discriminate E.
Qed.

Lemma evaluateMove_scored (property : string) (g : rng R) :
  GameConfig.isValidProperty property = true -> exists s, scored property s.
Proof.
intros V.
destruct (evaluateMove_generatorFree R card property pool used difficulty
            notEasy notNormal) as (o & Fr).
destruct (evaluateMove_returns R card pool used difficulty property g W F V)
  as (s & g' & E).
rewrite Fr in E. injection E as -> _. exists s. exact Fr.
Qed.

Lemma chooseLoop_maximum (candidates : list string) :
  Forall (fun p => GameConfig.isValidProperty p = true) candidates ->
  forall (seen : list string) (bp : string) (bs : option (num R)) (g g' : rng R)
         (p : string),
  match bs with
  | None => seen = [] /\ candidates <> []
  | Some b => scored bp b
              /\ forall q, In q seen -> exists s, scored q s /\ gt R s b = false
  end ->
  chooseLoop R card pool used difficulty candidates (bp, bs) g = (Returned p, g') ->
  exists b, scored p b
            /\ forall q, In q (seen ++ candidates) ->
                         exists s, scored q s /\ gt R s b = false.
Proof.
intros Fc. induction Fc as [|q rest V Fc IH]; intros seen bp bs g g' p Inv E.
- destruct bs as [b|]; [|destruct Inv as [_ N]; congruence].
  cbn in E. injection E as <- _. exists b. rewrite app_nil_r. exact Inv.
- destruct (evaluateMove_scored q g V) as (s & Sq).
  cbn [chooseLoop] in E. unfold bind at 1 in E. rewrite (Sq g) in E.
  cbn [snd fst] in E.
  assert (Inv' : match (if better R s bs then (q, Some s) else (bp, bs)) with
                 | (bp', None) => False
                 | (bp', Some b') =>
                     scored bp' b'
                     /\ forall x, In x (seen ++ [q]) ->
                                  exists sx, scored x sx /\ gt R sx b' = false
                 end).
  { destruct bs as [b|]; cbn [better].
    - destruct Inv as [Sb Le]. destruct (gt R s b) eqn:G.
      + split; [exact Sq|]. intros x I. apply in_app_or in I.
        destruct I as [I | [<- | []]].
        * destruct (Le x I) as (sx & Sx & Lx). exists sx. split; [exact Sx|].
          apply (le_trans sx b s Lx). apply gt_asym. exact G.
        * exists s. split; [exact Sq|apply gt_irrefl].
      + split; [exact Sb|]. intros x I. apply in_app_or in I.
        destruct I as [I | [<- | []]]; [apply Le, I|].
        exists s. split; [exact Sq|exact G].
    - destruct Inv as [-> _]. split; [exact Sq|]. intros x [<- | []].
      exists s. split; [exact Sq|apply gt_irrefl]. }
  destruct (if better R s bs then (q, Some s) else (bp, bs)) as [bp' [b'|]];
    [|contradiction].
  destruct (IH (seen ++ [q]) bp' (Some b') g g' p Inv' E) as (b & Sp & Le).
  exists b. split; [exact Sp|]. intros x I. apply Le.
  rewrite <- app_assoc. exact I.
Qed.

Lemma chooseBestProperty_maximum (available : list string) (g g' : rng R) (p : string) :
  Forall (fun p => GameConfig.isValidProperty p = true) available ->
  chooseBestProperty R card available pool used difficulty g = (Returned p, g') ->
  exists b, scored p b
            /\ forall q, In q available -> exists s, scored q s /\ gt R s b = false.
Proof.
intros Fa E. destruct available as [|p0 [|p1 rest]]; [discriminate E| |].
- cbn in E. injection E as <- _.
  destruct (evaluateMove_scored p0 g) as (s & Sp); [inversion Fa; assumption|].
  exists s. split; [exact Sp|]. intros q [<- | []].
  exists s. split; [exact Sp|apply gt_irrefl].
- unfold chooseBestProperty in E.
  apply (chooseLoop_maximum (p0 :: p1 :: rest) Fa [] p0 None g g' p); [|exact E].
  split; [reflexivity|discriminate].
Qed.

End AIMaximum.

(** X26.  At a difficulty other than easy and normal, with a comparison
    of numbers that is asymmetric and whose negation is transitive (as
    [>] on numbers is), a well-formed card, well-formed opponent cards and
    valid property names: the property [chooseBestProperty] returns is
    one whose evaluation by [evaluateMove] no available property's
    evaluation exceeds. *)
Theorem chooseBestProperty_returns_a_best_evaluation
  (R : AIStrategy.Runtime) (card : Card) (availableProperties : list string)
  (allPossibleOpponentCards : list Card) (usedOpponentProperties : list string)
  (difficulty : string) (g g' : AIStrategy.rng R) (p : string) :
  (forall a b, AIStrategy.gt R a b = true -> AIStrategy.gt R b a = false) ->
  (forall a b c, AIStrategy.gt R a b = false -> AIStrategy.gt R b c = false ->
                 AIStrategy.gt R a c = false) ->
  CardOps.wellFormed card = true ->
  Forall (fun c => CardOps.wellFormed c = true) allPossibleOpponentCards ->
  Forall (fun p => GameConfig.isValidProperty p = true) availableProperties ->
  difficulty <> GameConfig.EASY -> difficulty <> GameConfig.NORMAL ->
  AIStrategy.chooseBestProperty R card availableProperties allPossibleOpponentCards
                                usedOpponentProperties difficulty g
  = (Returned p, g') ->
  exists best,
    AIStrategy.evaluateMove R card p allPossibleOpponentCards usedOpponentProperties
                            difficulty g
    = (Returned best, g)
    /\ forall q, In q availableProperties ->
         exists s,
           AIStrategy.evaluateMove R card q allPossibleOpponentCards
                                   usedOpponentProperties difficulty g
           = (Returned s, g)
           /\ AIStrategy.gt R s best = false.
Proof.
intros A T W F Fa NE NN E.
destruct (chooseBestProperty_maximum R card allPossibleOpponentCards
            usedOpponentProperties difficulty A T W F NE NN availableProperties
            g g' p Fa E) as (b & Sp & Le).
exists b. split; [apply Sp|]. intros q I. destruct (Le q I) as (s & Sq & L).
exists s. split; [apply Sq|exact L].
Qed.

Section ExactNumbers.
Import AIStrategy.

Lemma exact_gt_asym (a b : num exact) : gt exact a b = true -> gt exact b a = false.
Proof.
cbn. intros G. apply negb_true_iff in G. apply negb_false_iff, Qle_bool_iff.
destruct (Qlt_le_dec b a) as [L|L]; [apply Qlt_le_weak, L|].
apply Qle_bool_iff in L. rewrite L in G. discriminate G.
Qed.

Lemma exact_le_trans (a b c : num exact) :
  gt exact a b = false -> gt exact b c = false -> gt exact a c = false.
Proof.
cbn. intros G1 G2. apply negb_false_iff in G1, G2. apply negb_false_iff.
apply Qle_bool_iff in G1, G2. apply Qle_bool_iff. eapply Qle_trans; eassumption.
Qed.

End ExactNumbers.

Lemma chooseBestProperty_returns_a_best_evaluation_witness :
  exists best,
    AIStrategy.evaluateMove AIStrategy.exact
      {| id := 21; deception := 6; magic := 7; attack := 7 |} "attack"
      CardGenerator.generateAllCards ["deception"] "hard" []
    = (Returned best, [])
    /\ forall q, In q ["magic"; "attack"] ->
         exists s,
           AIStrategy.evaluateMove AIStrategy.exact
             {| id := 21; deception := 6; magic := 7; attack := 7 |} q
             CardGenerator.generateAllCards ["deception"] "hard" []
           = (Returned s, [])
           /\ AIStrategy.gt AIStrategy.exact s best = false.
Proof.
apply (chooseBestProperty_returns_a_best_evaluation AIStrategy.exact
         {| id := 21; deception := 6; magic := 7; attack := 7 |}
         ["magic"; "attack"] CardGenerator.generateAllCards ["deception"] "hard"
         [] [] "attack").
- exact exact_gt_asym.
- exact exact_le_trans.
- reflexivity.
- apply Forall_forall, forallb_forall. reflexivity.
- repeat constructor.
- discriminate.
- discriminate.
- vm_compute. reflexivity.
Defined.

Section AIMoves.
Import AIStrategy AIMove.
Variable R : Runtime.
Variable pool : list Card.
Variable used : list string.
Variable difficulty : string.
Variable properties : list string.

Hypothesis F : Forall (fun c => CardOps.wellFormed c = true) pool.

Lemma propertyLoop_answers (card : Card) (cardIndex : Z) (props : list string) :
  CardOps.wellFormed card = true ->
  Forall (fun p => GameConfig.isValidProperty p = true) props ->
  forall (best : Best R) (g : rng R),
  exists best' g',
    propertyLoop R card cardIndex pool used difficulty props best g
    = (Returned best', g')
    /\ (best' = best \/ (fst (fst best') = cardIndex /\ In (snd (fst best')) props)).
Proof.
intros W Fp. induction Fp as [|q rest V Fp IH]; intros best g.
- exists best, g. split; [reflexivity|left; reflexivity].
- destruct (evaluateMove_returns R card pool used difficulty q g W F V)
    as (s & g1 & E).
  cbn [propertyLoop]. unfold bind at 1. rewrite E.
  destruct (IH (if better R s (snd best) then (cardIndex, q, Some s) else best) g1)
    as (best' & g' & E' & I).
  exists best', g'. split; [exact E'|].
  destruct I as [-> | [I1 I2]].
  + destruct (better R s (snd best)); [right; split; [reflexivity|left; reflexivity]
                                      | left; reflexivity].
  + right. split; [exact I1|right; exact I2].
Qed.

Hypothesis Fp : Forall (fun p => GameConfig.isValidProperty p = true) properties.

Lemma cardLoop_answers (cards : list Card) :
  Forall (fun c => CardOps.wellFormed c = true) cards ->
  forall (cardIndex : Z) (best : Best R) (g : rng R),
  exists best' g',
    cardLoop R properties pool used difficulty cards cardIndex best g
    = (Returned best', g')
    /\ (best' = best
        \/ (cardIndex <= fst (fst best') < cardIndex + len cards
            /\ In (snd (fst best')) properties)).
Proof.
intros Fc. induction Fc as [|c rest W Fc IH]; intros cardIndex best g.
- exists best, g. split; [reflexivity|left; reflexivity].
- destruct (propertyLoop_answers c cardIndex properties W Fp best g)
    as (b1 & g1 & E1 & I1).
  cbn [cardLoop]. unfold bind at 1. rewrite E1.
  destruct (IH (cardIndex + 1) b1 g1) as (b2 & g2 & E2 & I2).
  exists b2, g2. split; [exact E2|].
  assert (L : len (c :: rest) = 1 + len rest) by (unfold len; cbn [List.length]; lia).
  assert (P : 0 <= len rest) by (unfold len; lia).
  destruct I2 as [-> | [I2 I3]].
  + destruct I1 as [-> | [I1 I3]]; [left; reflexivity|].
    right. split; [lia|exact I3].
  + right. split; [lia|exact I3].
Qed.

Lemma chooseBestMove_answers (cards : list Card) (g : rng R) :
  Forall (fun c => CardOps.wellFormed c = true) cards ->
  cards <> [] -> properties <> [] ->
  exists i p g',
    chooseBestMove R cards properties pool used difficulty g = (Returned (i, p), g')
    /\ 0 <= i < len cards /\ In p properties.
Proof.
intros Fc Nc Np.
assert (P : 0 < len cards).
{ destruct cards; [congruence|]. unfold len. cbn [List.length]. lia. }
assert (Loop : forall first, In first properties ->
  exists i p g',
    (best <- cardLoop R properties pool used difficulty cards 0 (0, first, None) ;;
     ret (fst best))%eff g = (Returned (i, p), g')
    /\ 0 <= i < len cards /\ In p properties).
{ intros first I.
  destruct (cardLoop_answers cards Fc 0 (0, first, None) g) as (b & g' & E & Ib).
  unfold bind. rewrite E. destruct b as [[i p] s]. exists i, p, g'.
  split; [reflexivity|]. cbn [fst snd] in Ib.
  destruct Ib as [[= -> -> _] | [I1 I2]]; [split; [lia|exact I]|]. split; [lia|exact I2]. }
unfold chooseBestMove.
destruct cards as [|c [|c' cs]]; [congruence| |];
  (destruct properties as [|p0 [|p1 ps]]; [congruence| |]);
  try (apply Loop; left; reflexivity).
exists 0, p0, g. split; [reflexivity|]. split; [unfold len; cbn; lia|left; reflexivity].
Qed.

End AIMoves.

(** X27.  Given a non-empty list of well-formed cards, a pool of
    well-formed opponent cards and a non-empty list of valid property
    names, [chooseBestMove] returns, at every difficulty and with every
    generator, and what it returns is a legal move: [cardIndex] is an
    index into the cards offered and [property] is one of the properties
    offered. *)
Theorem chooseBestMove_answers_with_a_legal_move
  (R : AIStrategy.Runtime) (availableCards : list Card)
  (availableProperties : list string) (allPossibleOpponentCards : list Card)
  (usedOpponentProperties : list string) (difficulty : string)
  (g : AIStrategy.rng R) :
  Forall (fun c => CardOps.wellFormed c = true) availableCards ->
  Forall (fun c => CardOps.wellFormed c = true) allPossibleOpponentCards ->
  Forall (fun p => GameConfig.isValidProperty p = true) availableProperties ->
  availableCards <> [] -> availableProperties <> [] ->
  exists cardIndex property g',
    AIMove.chooseBestMove R availableCards availableProperties allPossibleOpponentCards
                          usedOpponentProperties difficulty g
    = (Returned (cardIndex, property), g')
    /\ 0 <= cardIndex < len availableCards
    /\ In property availableProperties.
Proof.
intros Fc F Fp Nc Np. apply chooseBestMove_answers; assumption.
Qed.

Lemma chooseBestMove_answers_with_a_legal_move_witness :
  exists cardIndex property g',
    AIMove.chooseBestMove AIStrategy.exact Example.hand2 ["magic"; "attack"]
                          CardGenerator.generateAllCards ["deception"] "normal"
                          [(9 # 10)%Q; 0%Q]
    = (Returned (cardIndex, property), g')
    /\ 0 <= cardIndex < len Example.hand2
    /\ In property ["magic"; "attack"].
Proof.
apply (chooseBestMove_answers_with_a_legal_move AIStrategy.exact Example.hand2
         ["magic"; "attack"] CardGenerator.generateAllCards ["deception"] "normal"
         [(9 # 10)%Q; 0%Q]).
- repeat constructor.
- apply Forall_forall, forallb_forall. reflexivity.
- repeat constructor.
- discriminate.
- discriminate.
Defined.

(** ** Dealing the opponent's hand *)

Section UniverseIds.

Lemma filtered_ids_NoDup (keep : Card -> bool) (cards : list Card) :
  NoDup (map id cards) -> NoDup (map id (filter keep cards)).
Proof.
induction cards as [|c cards IH]; cbn [map filter]; intros N; [constructor|].
inversion N as [|? ? Nc Ncards]; subst.
destruct (keep c); [|apply IH, Ncards]. cbn [map]. constructor; [|apply IH, Ncards].
intros I. apply Nc. apply in_map_iff in I. destruct I as (c' & E & I).
apply filter_In in I. apply in_map_iff. exists c'. split; [exact E|apply I].
Qed.

Lemma generateAllCards_ids : NoDup (map id CardGenerator.generateAllCards).
Proof. apply (NoDup_by_nodup Z.eq_dec). vm_compute. reflexivity. Qed.

Lemma notExcluded_NoDup (excludeCards : list Card) :
  NoDup (map id (RandomCards.notExcluded excludeCards)).
Proof. apply filtered_ids_NoDup, generateAllCards_ids. Qed.

Lemma notExcluded_In (excludeCards : list Card) (c : Card) :
  In c (RandomCards.notExcluded excludeCards) ->
  In c CardGenerator.generateAllCards /\ ~ In (id c) (map id excludeCards).
Proof.
unfold RandomCards.notExcluded. intros I. apply filter_In in I. destruct I as [I E].
split; [exact I|]. intros J. apply in_map_iff in J. destruct J as (e & Ee & J).
apply negb_true_iff in E.
assert (X : existsb (fun excludeCard => id excludeCard =? id c) excludeCards = true).
{ apply existsb_exists. exists e. split; [exact J|apply Z.eqb_eq, Ee]. }
rewrite X in E. discriminate E.
Qed.

Lemma filter_snoc (excludeCards : list Card) (c : Card) (l : list Card) :
  filter (fun card => negb (existsb (fun excludeCard => id excludeCard =? id card)
                                    (excludeCards ++ [c]))) l
  = filter (fun card => negb (id c =? id card))
           (filter (fun card => negb (existsb (fun excludeCard =>
                                                 id excludeCard =? id card)
                                              excludeCards)) l).
Proof.
induction l as [|x l IH]; [reflexivity|]. cbn [filter].
rewrite existsb_app. cbn [existsb]. rewrite orb_false_r.
destruct (existsb _ excludeCards); cbn [negb orb]; [exact IH|].
cbn [filter]. destruct (id c =? id x); cbn [negb]; [exact IH|]. f_equal. exact IH.
Qed.

Lemma notExcluded_snoc (excludeCards : list Card) (c : Card) :
  RandomCards.notExcluded (excludeCards ++ [c])
  = filter (fun card => negb (id c =? id card)) (RandomCards.notExcluded excludeCards).
Proof. apply filter_snoc. Qed.

Lemma filter_out_one (c : Card) (l : list Card) :
  NoDup (map id l) -> In c l ->
  S (List.length (filter (fun card => negb (id c =? id card)) l)) = List.length l.
Proof.
induction l as [|x l IH]; cbn [map filter List.length]; intros N I; [destruct I|].
inversion N as [|? ? Nx Nl]; subst. destruct I as [-> | I].
- rewrite Z.eqb_refl. cbn [negb]. f_equal.
  assert (X : forall l', ~ In (id c) (map id l') ->
                         filter (fun card => negb (id c =? id card)) l' = l').
  { induction l' as [|y l' IH']; [reflexivity|]. cbn [map filter]. intros J.
    destruct (Z.eqb_spec (id c) (id y)) as [E|_]; [exfalso; apply J; left; auto|].
    cbn [negb]. f_equal. apply IH'. intros K. apply J. right. exact K. }
  rewrite X; [reflexivity|exact Nx].
- destruct (Z.eqb_spec (id c) (id x)) as [E|_].
  + exfalso. apply Nx. rewrite <- E. apply in_map. exact I.
  + cbn [negb List.length]. f_equal. apply IH; assumption.
Qed.

Lemma notExcluded_at_least (excludeCards : list Card) :
  (List.length CardGenerator.generateAllCards
   <= List.length (RandomCards.notExcluded excludeCards) + List.length excludeCards)%nat.
Proof.
induction excludeCards as [|e l IH] using rev_ind; [vm_compute; lia|].
rewrite notExcluded_snoc, length_app. cbn [List.length].
assert (X : forall l', NoDup (map id l') ->
  (List.length l' <= S (List.length (filter (fun card => negb (Z.eqb (id e) (id card))) l')))%nat).
{ induction l' as [|y l' IH']; [cbn; lia|]. cbn [map filter List.length]. intros N.
  inversion N as [|? ? Ny Nl]; subst.
  destruct (Z.eqb_spec (id e) (id y)) as [E|_]; cbn [negb List.length].
  - assert (Y : filter (fun card => negb (id e =? id card)) l' = l').
    { clear IH'. rewrite E. revert Ny. clear. induction l' as [|z l' IH'];
        [reflexivity|]. cbn [map filter]. intros J.
      destruct (Z.eqb_spec (id y) (id z)) as [E|_]; [exfalso; apply J; left; auto|].
      cbn [negb]. f_equal. apply IH'. intros K. apply J. right. exact K. }
    rewrite Y. lia.
  - specialize (IH' Nl). lia. }
specialize (X _ (notExcluded_NoDup l)). lia.
Qed.

Lemma notExcluded_enough (excludeCards : list Card) :
  len excludeCards = 3 -> 3 <= len (RandomCards.notExcluded excludeCards).
Proof.
intros L. pose proof (notExcluded_at_least excludeCards) as A.
assert (U : List.length CardGenerator.generateAllCards = 36%nat)
  by (vm_compute; reflexivity).
rewrite U in A. unfold len in *. lia.
Qed.

End UniverseIds.

Section Deal.
Import RandomCards.
Variable rng : Type.
Variable randomIndex : Z -> rng -> Z * rng.
Hypothesis inRange : forall n g, 0 < n -> 0 <= fst (randomIndex n g) < n.

Lemma someSameId_real (excludeCards : list Card) (card : Card) :
  someSameId (map Some excludeCards) card
  = Returned (existsb (fun excludeCard => id excludeCard =? id card) excludeCards).
Proof.
induction excludeCards as [|e l IH]; [reflexivity|]. cbn [map someSameId existsb].
destruct (id e =? id card); [reflexivity|exact IH].
Qed.

Lemma removeExcluded_real (excludeCards : list Card) (allCards : list Card) :
  removeExcluded (map Some excludeCards) allCards
  = Returned (filter (fun card =>
                        negb (existsb (fun excludeCard => id excludeCard =? id card)
                                      excludeCards))
                     allCards).
Proof.
induction allCards as [|c l IH]; [reflexivity|]. cbn [removeExcluded filter].
rewrite someSameId_real, IH. cbn. reflexivity.
Qed.

Lemma element_In (cards : list Card) (index : Z) :
  0 <= index < len cards -> exists c, element cards index = Some c /\ In c cards.
Proof.
intros R. unfold element. destruct (Z.ltb_spec index 0); [lia|].
destruct (nth_error cards (Z.to_nat index)) as [c|] eqn:E.
- exists c. split; [reflexivity|]. eapply nth_error_In. exact E.
- apply nth_error_None in E. unfold len in R. lia.
Qed.

Lemma getRandomCard_real (excludeCards : list Card) (g : rng) :
  (notExcluded excludeCards = []
   /\ exists msg, getRandomCard rng randomIndex (map Some excludeCards) g
                  = (Thrown msg, g))
  \/ (exists c g', getRandomCard rng randomIndex (map Some excludeCards) g
                   = (Returned (Some c), g')
                   /\ In c (notExcluded excludeCards)).
Proof.
assert (E0 : removeExcluded (map Some excludeCards) CardGenerator.generateAllCards
             = Returned (notExcluded excludeCards)) by apply removeExcluded_real.
unfold getRandomCard. rewrite E0. unfold bind, lift.
destruct (notExcluded excludeCards) as [|c0 l] eqn:E.
- left. split; [reflexivity|]. eexists. reflexivity.
- right. rewrite <- E.
  assert (P : 0 < len (notExcluded excludeCards)).
  { rewrite E. unfold len. cbn [List.length]. lia. }
  destruct (Z.eqb_spec (len (notExcluded excludeCards)) 0) as [Z0|_]; [lia|].
  pose proof (inRange (len (notExcluded excludeCards)) g P) as Rg.
  destruct (randomIndex (len (notExcluded excludeCards)) g) as [i g'].
  destruct (element_In _ i Rg) as (c & Ec & Ic).
  exists c, g'. rewrite Ec. split; [reflexivity|exact Ic].
Qed.

Lemma dealLoop_real (remaining : nat) :
  forall (cards excludeCards : list Card) (g : rng),
  exists dealt g',
    dealLoop rng randomIndex remaining (map Some cards) (map Some excludeCards) g
    = (Returned (map Some (cards ++ dealt)), g')
    /\ NoDup (map id dealt)
    /\ (forall c, In c dealt -> In c (notExcluded excludeCards))
    /\ List.length dealt
       = Nat.min remaining (List.length (notExcluded excludeCards)).
Proof.
induction remaining as [|n IH]; intros cards excludeCards g.
- exists [], g. rewrite app_nil_r. repeat split; [constructor|intros c []].
- cbn [dealLoop].
  destruct (getRandomCard_real excludeCards g) as [[E (msg & T)] | (c & g1 & E & I)].
  + rewrite T. exists [], g. rewrite app_nil_r, E.
    repeat split; [constructor|intros c []].
  + rewrite E.
    replace (map Some cards ++ [Some c]) with (map Some (cards ++ [c]))
      by (rewrite map_app; reflexivity).
    replace (map Some excludeCards ++ [Some c]) with (map Some (excludeCards ++ [c]))
      by (rewrite map_app; reflexivity).
    destruct (IH (cards ++ [c]) (excludeCards ++ [c]) g1)
      as (dealt & g' & E' & N & Sub & L).
    exists (c :: dealt), g'.
    assert (Sub' : forall x, In x dealt ->
                             In x (notExcluded excludeCards) /\ id x <> id c).
    { intros x J. apply Sub in J. rewrite notExcluded_snoc in J.
      apply filter_In in J. destruct J as [J K]. split; [exact J|].
      apply negb_true_iff, Z.eqb_neq in K. congruence. }
    split; [rewrite E', <- app_assoc; reflexivity|].
    split.
    { cbn [map]. constructor; [|exact N]. intros J. apply in_map_iff in J.
      destruct J as (x & Ex & J). apply Sub' in J. destruct J as [_ J]. congruence. }
    split.
    { intros x [<- | J]; [exact I|apply Sub', J]. }
    cbn [List.length]. rewrite L, notExcluded_snoc.
    pose proof (filter_out_one c _ (notExcluded_NoDup excludeCards) I). lia.
Qed.

Lemma getRandomCards_real (count : Z) (excludeCards : list Card) (g : rng) :
  exists cards g',
    getRandomCards rng randomIndex count (map Some excludeCards) g
    = (Returned (map Some cards), g')
    /\ NoDup (map id cards)
    /\ (forall c, In c cards ->
          In c CardGenerator.generateAllCards /\ ~ In (id c) (map id excludeCards))
    /\ len cards = Z.min (Z.max count 0) (len (notExcluded excludeCards)).
Proof.
unfold getRandomCards. destruct (Z.leb_spec count 0) as [C|C].
- exists [], g. split; [reflexivity|]. split; [constructor|].
  split; [intros c []|]. unfold len. cbn [List.length]. lia.
- destruct (dealLoop_real (Z.to_nat count) [] excludeCards g)
    as (dealt & g' & E & N & Sub & L).
  exists dealt, g'. split; [exact E|]. split; [exact N|].
  split; [intros c I; apply notExcluded_In, Sub, I|]. unfold len. lia.
Qed.

Lemma dealt_hand_is_accepted (selectedCards : list Card) (mode : string) (g : rng) :
  len selectedCards = 3 ->
  exists aiCards g' m,
    getRandomCards rng randomIndex 3 (map Some selectedCards) g
    = (Returned (map Some aiCards), g')
    /\ MatchManager.new selectedCards aiCards mode = Returned m
    /\ Forall (fun c => CardOps.wellFormed c = true) aiCards.
Proof.
intros L3.
destruct (getRandomCards_real 3 selectedCards g) as (cards & g' & E & N & Sub & L).
assert (A := notExcluded_enough selectedCards L3).
assert (Lc : len cards = 3) by lia.
assert (V : MatchManager.validatePlayerCards selectedCards cards = true).
{ unfold MatchManager.validatePlayerCards.
  change GameConfig.CARDS_PER_PLAYER with 3. rewrite L3, Lc. cbn [Z.eqb negb orb].
  cbv zeta.
  assert (X : filter (fun i => existsb (Z.eqb i) (map id cards)) (map id selectedCards)
              = []).
  { assert (Y : forall i, In i (map id selectedCards) ->
                          existsb (Z.eqb i) (map id cards) = false).
    { intros i I. destruct (existsb (Z.eqb i) (map id cards)) eqn:X; [|reflexivity].
      apply existsb_exists in X. destruct X as (j & J & Ej). apply Z.eqb_eq in Ej.
      subst j. apply in_map_iff in J. destruct J as (c & Ec & J).
      apply Sub in J. destruct J as [_ J]. rewrite Ec in J. contradiction. }
    revert Y. generalize (map id selectedCards). intros ids.
    induction ids as [|i ids IH]; intros Y; [reflexivity|]. cbn [filter].
    rewrite (Y i (or_introl eq_refl)). apply IH. intros j J. apply Y. right. exact J. }
  rewrite X. reflexivity. }
exists cards, g'. unfold MatchManager.new. rewrite V. cbn [negb].
eexists. split; [exact E|]. split; [reflexivity|].
apply Forall_forall. intros c I. apply Sub in I. destruct I as [I _].
apply wellFormed_spec. apply (proj2 (proj2 (proj2 generateAllCards_universe))), I.
Qed.

End Deal.

(** X28.  With a generator whose [Math.floor(Math.random() * n)] lies in
    0..n-1, [getRandomCards(count, excludeCards)] returns cards of the
    universe of [generateAllCards] with pairwise different identifiers,
    none sharing an identifier with an excluded card, and as many of them
    as asked for, or as many as are not excluded if that is fewer (none
    for a count of zero or less): running out of cards shortens the deal
    and never throws. *)
Theorem getRandomCards_deals_distinct_cards
  (rng : Type) (randomIndex : Z -> rng -> Z * rng)
  (count : Z) (excludeCards : list Card) (g : rng) :
  (forall n g, 0 < n -> 0 <= fst (randomIndex n g) < n) ->
  exists cards g',
    RandomCards.getRandomCards rng randomIndex count (map Some excludeCards) g
    = (Returned (map Some cards), g')
    /\ NoDup (map id cards)
    /\ (forall c, In c cards ->
          In c CardGenerator.generateAllCards /\ ~ In (id c) (map id excludeCards))
    /\ len cards = Z.min (Z.max count 0) (len (RandomCards.notExcluded excludeCards)).
Proof.
intros H. apply getRandomCards_real. exact H.
Qed.

Lemma counting_in_range (n g : Z) : 0 < n -> 0 <= fst (RandomCards.counting n g) < n.
Proof. intros P. cbn. apply Z.mod_pos_bound. exact P. Qed.

Lemma getRandomCards_deals_distinct_cards_witness :
  exists cards g',
    RandomCards.getRandomCards Z RandomCards.counting 3 (map Some Example.hand1) 7
    = (Returned (map Some cards), g')
    /\ NoDup (map id cards)
    /\ (forall c, In c cards ->
          In c CardGenerator.generateAllCards /\ ~ In (id c) (map id Example.hand1))
    /\ len cards = Z.min (Z.max 3 0) (len (RandomCards.notExcluded Example.hand1)).
Proof.
apply (getRandomCards_deals_distinct_cards Z RandomCards.counting 3 Example.hand1 7).
exact counting_in_range.
Defined.

(** X29.  What the web driver does when a match starts goes through:
    with three selected cards (whatever they are) and such a generator,
    [getRandomCards(3, selectedCards)] deals three well-formed cards and
    the [MatchManager] constructor accepts the two hands; it never throws
    'Invalid player cards provided'. *)
Theorem dealt_hand_is_accepted_by_the_constructor
  (rng : Type) (randomIndex : Z -> rng -> Z * rng)
  (selectedCards : list Card) (mode : string) (g : rng) :
  (forall n g, 0 < n -> 0 <= fst (randomIndex n g) < n) ->
  len selectedCards = 3 ->
  exists aiCards g' m,
    RandomCards.getRandomCards rng randomIndex 3 (map Some selectedCards) g
    = (Returned (map Some aiCards), g')
    /\ MatchManager.new selectedCards aiCards mode = Returned m
    /\ Forall (fun c => CardOps.wellFormed c = true) aiCards.
Proof.
intros H L. apply dealt_hand_is_accepted; assumption.
Qed.

Lemma dealt_hand_is_accepted_by_the_constructor_witness :
  exists aiCards g' m,
    RandomCards.getRandomCards Z RandomCards.counting 3 (map Some Example.hand1) 7
    = (Returned (map Some aiCards), g')
    /\ MatchManager.new Example.hand1 aiCards "pvc" = Returned m
    /\ Forall (fun c => CardOps.wellFormed c = true) aiCards.
Proof.
apply (dealt_hand_is_accepted_by_the_constructor Z RandomCards.counting
         Example.hand1 "pvc" 7).
- exact counting_in_range.
- reflexivity.
Defined.

(** ** The selection of cards in the browser *)

Section Selection.
Import CardSelectionManager.

Lemma findIndex_None (cardId : Z) (selectedCards : list Card) :
  findIndex cardId selectedCards = None -> ~ In cardId (map id selectedCards).
Proof.
induction selectedCards as [|c l IH]; cbn [findIndex map]; intros E; [intros []|].
destruct (Z.eqb_spec (id c) cardId) as [|N]; [discriminate E|].
destruct (findIndex cardId l); [discriminate E|].
intros [J | J]; [contradiction|]. apply IH; [reflexivity|exact J].
Qed.

Lemma findIndex_Some (cardId : Z) (selectedCards : list Card) (index : nat) :
  findIndex cardId selectedCards = Some index ->
  exists before c after,
    selectedCards = before ++ c :: after /\ id c = cardId
    /\ splice index selectedCards = before ++ after.
Proof.
revert index. induction selectedCards as [|c l IH]; cbn [findIndex]; intros index E;
  [discriminate E|].
destruct (Z.eqb_spec (id c) cardId) as [Ec|N].
- injection E as <-. exists [], c, l. repeat split; assumption.
- destruct (findIndex cardId l) as [i|]; [|discriminate E]. injection E as <-.
  destruct (IH i eq_refl) as (before & x & after & -> & Ex & Sp).
  exists (c :: before), x, after. split; [reflexivity|]. split; [exact Ex|].
  unfold splice in *. cbn [firstn skipn app]. f_equal. exact Sp.
Qed.

(** What every click keeps. *)
Lemma toggleCardSelection_keeps (card : Card) (selectedCards : list Card) :
  NoDup (map id selectedCards) -> len selectedCards <= 3 ->
  NoDup (map id (toggleCardSelection card selectedCards))
  /\ len (toggleCardSelection card selectedCards) <= 3
  /\ forall c, In c (toggleCardSelection card selectedCards) ->
               c = card \/ In c selectedCards.
Proof.
intros N L. unfold toggleCardSelection.
destruct (findIndex (id card) selectedCards) as [index|] eqn:E.
- destruct (findIndex_Some _ _ _ E) as (before & x & after & -> & Ex & ->).
  rewrite map_app in N. cbn [map] in N. apply NoDup_remove_1 in N.
  split; [rewrite map_app; exact N|].
  split.
  { unfold len in *. rewrite length_app in *. cbn [List.length] in L. lia. }
  intros c I. right. apply in_app_or in I. apply in_or_app.
  destruct I as [I|I]; [left; exact I|right; right; exact I].
- apply findIndex_None in E. destruct (Z.ltb_spec (len selectedCards) 3) as [Lt|_].
  + split.
    { rewrite map_app. cbn [map]. apply NoDup_snoc; assumption. }
    split.
    { unfold len in *. rewrite length_app. cbn [List.length]. lia. }
    intros c I. apply in_app_or in I. destruct I as [I | [<- | []]]; auto.
  + split; [exact N|]. split; [exact L|]. intros c I. right. exact I.
Qed.

Lemma clicks_keep (cards : list Card) :
  forall selectedCards,
  NoDup (map id selectedCards) -> len selectedCards <= 3 ->
  let result := fold_left (fun selected card => toggleCardSelection card selected)
                          cards selectedCards in
  NoDup (map id result) /\ len result <= 3
  /\ forall c, In c result -> In c cards \/ In c selectedCards.
Proof.
induction cards as [|card rest IH]; intros selectedCards N L; cbn [fold_left].
- split; [exact N|]. split; [exact L|]. intros c I. right. exact I.
- destruct (toggleCardSelection_keeps card selectedCards N L) as (N' & L' & S').
  destruct (IH _ N' L') as (N2 & L2 & S2). split; [exact N2|]. split; [exact L2|].
  intros c I. destruct (S2 c I) as [J|J]; [left; right; exact J|].
  destruct (S' c J) as [-> | K]; [left; left; reflexivity|right; exact K].
Qed.

End Selection.

(** X30.  Whatever cards are clicked in whatever order, the selection
    the manager holds has at most three cards, with pairwise different
    identifiers, each of them one of the cards clicked; and clicking a
    card whose identifier is selected takes that card out again. *)
Theorem selection_holds_at_most_three_distinct_cards (cards : list Card) :
  NoDup (map id (CardSelectionManager.clicks cards))
  /\ len (CardSelectionManager.clicks cards) <= 3
  /\ (forall c, In c (CardSelectionManager.clicks cards) -> In c cards)
  /\ (forall card, In (id card) (map id (CardSelectionManager.clicks cards)) ->
        ~ In (id card)
             (map id (CardSelectionManager.toggleCardSelection
                        card (CardSelectionManager.clicks cards)))).
Proof.
destruct (clicks_keep cards [] (NoDup_nil _)) as (N & L & S);
  [unfold len; cbn; lia|].
split; [exact N|]. split; [exact L|].
split; [intros c I; destruct (S c I) as [J | []]; exact J|].
intros card I. fold (CardSelectionManager.clicks cards) in N.
unfold CardSelectionManager.toggleCardSelection.
destruct (CardSelectionManager.findIndex (id card) (CardSelectionManager.clicks cards))
  as [index|] eqn:E; [|apply findIndex_None in E; contradiction].
destruct (findIndex_Some _ _ _ E) as (before & x & after & Eq & Ex & ->).
rewrite Eq in N. rewrite map_app in *. cbn [map] in N.
apply NoDup_remove_2 in N. rewrite Ex in N. exact N.
Qed.
